(** * A shallow embedding of the reflective Protocol Buffers codec

    The development follows the Go sources of the package:
    the field resolver ([ParseTag], [innerFieldIndexes], [ProtoFields]),
    the encoder ([Encode], [encoder.message], [encoder.value], ...) and the
    decoder ([DecodeWithConstructors], [decoder.message], [decoder.value],
    [decoder.putvalue], ...).

    Conventions.
    - Machine integers are [Z] with the wrap-around written out
      ([wrap64], [wrap32], [to_int64], [to_int32]).
    - A byte is a [Z] in [0, 256); a byte string is a [list Z].
    - A [reflect.Value] is a triple: its type, its contents and whether it
      is settable ([CanSet]).
    - A function that can return an error or panic returns a [result];
      a panic is kept apart from an error until the public entry points
      recover it.
    - Go pointers are modelled as owned optional values (no sharing): the
      codec only follows pointers downwards.
    - A nil slice and an empty slice are identified, and so are a nil and an
      empty map: the sources never test a slice for nil, and the only test of
      a map for nil is followed by its allocation. *)

From Stdlib Require Import String Ascii.
From Stdlib Require Import ZArith List Bool Lia Arith DecimalString.
Import ListNotations.
Open Scope string_scope.
Open Scope list_scope.
Open Scope Z_scope.

Set Implicit Arguments.
Set Warnings "-register-all".

(** ** Results: values, errors, panics *)

Inductive result (A : Type) : Type :=
| Ok (a : A)
| Err (msg : string)        (* a returned [error] *)
| Panic (msg : string)      (* a [panic], unwinding the stack *)
| OutOfFuel                 (* the recursion bound of the model was hit *)
| IllTyped.                 (* contents that do not fit their type: no Go
                               program state looks like this *)

Arguments Ok {A} a.
Arguments Err {A} msg.
Arguments Panic {A} msg.
Arguments OutOfFuel {A}.
Arguments IllTyped {A}.

Definition bind {A B} (r : result A) (k : A -> result B) : result B :=
  match r with
  | Ok a => k a
  | Err m => Err m
  | Panic m => Panic m
  | OutOfFuel => OutOfFuel
  | IllTyped => IllTyped
  end.

Declare Scope go_scope.
Notation "x <- c1 ;; c2" := (bind c1 (fun x => c2))
  (at level 61, c1 at next level, right associativity) : go_scope.
Notation "' pat <- c1 ;; c2" := (bind c1 (fun x => match x with pat => c2 end))
  (at level 61, pat pattern, c1 at next level, right associativity) : go_scope.
Open Scope go_scope.

Definition is_ok {A} (r : result A) : bool :=
  match r with Ok _ => true | _ => false end.

(** ** Machine arithmetic *)

Definition wrap64 (z : Z) : Z := z mod 2 ^ 64.
Definition wrap32 (z : Z) : Z := z mod 2 ^ 32.

(** [int64(v)] for an unsigned 64-bit pattern [v]. *)
Definition to_int64 (z : Z) : Z :=
  let u := wrap64 z in if u <? 2 ^ 63 then u else u - 2 ^ 64.

(** [int32(v)]: keep the low 32 bits, read as signed. *)
Definition to_int32 (z : Z) : Z :=
  let u := wrap32 z in if u <? 2 ^ 31 then u else u - 2 ^ 32.

(** ** Floating-point bit patterns

    A float is held by its IEEE 754 bit pattern.  The code handles a
    [float32] through [float64]: [reflect.Value.Float] and [SetFloat]
    convert, and the conversion of a signalling NaN sets the quiet bit
    (amd64 and arm64); the rest of the pattern comes back unchanged. *)

Definition isNaN32 (b : Z) : bool :=
  (Z.land b 2139095040 =? 2139095040) && negb (Z.land b 8388607 =? 0).

Definition isNaN64 (b : Z) : bool :=
  (Z.land b 9218868437227405312 =? 9218868437227405312)
  && negb (Z.land b 4503599627370495 =? 0).

(** [math.Float32bits(float32(float64(math.Float32frombits(b))))] *)
Definition quiet32 (b : Z) : Z :=
  if isNaN32 b then Z.lor b 4194304 else b.

(** [==] on two floats given by their patterns ([wide]: [float64]): a NaN
    equals nothing, and the two zeros are equal. *)
Definition float_eqb (wide : bool) (a b : Z) : bool :=
  let nan := if wide then isNaN64 else isNaN32 in
  let zero x := if wide then Z.land x 9223372036854775807 =? 0
                else Z.land x 2147483647 =? 0 in
  negb (nan a) && negb (nan b) && ((a =? b) || (zero a && zero b)).

(** ** Byte slices with a capacity

    The decoder re-slices its input ([buf[n:]], [vb[:len(vb):len(vb)]]);
    a slice header is its visible bytes together with its capacity. *)

Record Bytes : Type := mkBytes { data : list Z; cap : nat }.

Definition blen (b : Bytes) : nat := length (data b).

(** [b[n:]] *)
Definition slice_from (b : Bytes) (n : nat) : Bytes :=
  mkBytes (skipn n (data b)) (cap b - n).

(** [b[:m]] *)
Definition slice_to (b : Bytes) (m : nat) : Bytes :=
  mkBytes (firstn m (data b)) (cap b).

(** [b[:m:c]] *)
Definition slice3 (b : Bytes) (m c : nat) : Bytes :=
  mkBytes (firstn m (data b)) c.

Definition wf_bytes (b : Bytes) : Prop := (blen b <= cap b)%nat.

(** [append(b, extra...)]: the elements are written in place, into the array
    behind [b], when they fit in the capacity; otherwise a new array is
    allocated.  The flag tells whether the old array was written to. *)
Definition go_append (b : Bytes) (extra : list Z) : Bytes * bool :=
  if (blen b + length extra <=? cap b)%nat
  then (mkBytes (data b ++ extra) (cap b), negb (length extra =? 0)%nat)
  else (mkBytes (data b ++ extra) (blen b + length extra), false).

(** ** The wire primitives (package protowire of the protobuf module) *)

Module protowire.

Definition VarintType : Z := 0.
Definition Fixed64Type : Z := 1.
Definition BytesType : Z := 2.
Definition StartGroupType : Z := 3.
Definition EndGroupType : Z := 4.
Definition Fixed32Type : Z := 5.

Definition errCodeTruncated : Z := -1.
Definition errCodeFieldNumber : Z := -2.
Definition errCodeOverflow : Z := -3.

Definition MinValidNumber : Z := 1.
Definition MaxInt32 : Z := 2 ^ 31 - 1.

(** The bytes of the base-128 encoding of [v], low group first. *)
Fixpoint varint_bytes (fuel : nat) (v : Z) : list Z :=
  match fuel with
  | O => []
  | S f =>
      if v <? 128 then [v]
      else Z.lor (Z.land v 127) 128 :: varint_bytes f (Z.shiftr v 7)
  end.

Definition AppendVarint (b : list Z) (v : Z) : list Z :=
  b ++ varint_bytes 10 (wrap64 v).

(** [ConsumeVarint]: [i] is the index of the byte read next, [v] what
    the earlier bytes gave.  At most ten bytes; the tenth holds one bit. *)
Fixpoint consume_varint (left : nat) (i : Z) (v : Z) (b : list Z) : Z * Z :=
  match left with
  | O => (0, errCodeOverflow)
  | S left' =>
      match b with
      | [] => (0, errCodeTruncated)
      | y :: b' =>
          let v := v + Z.shiftl y (7 * i) in
          if i =? 9 then
            if y <? 2 then (v, 10) else (0, errCodeOverflow)
          else if y <? 128 then (v, i + 1)
          else consume_varint left' (i + 1) (v - Z.shiftl 128 (7 * i)) b'
      end
  end.

Definition ConsumeVarint (b : list Z) : Z * Z := consume_varint 10 0 0 b.

Definition EncodeTag (num : Z) (typ : Z) : Z :=
  Z.lor (wrap64 (Z.shiftl (wrap64 num) 3)) (Z.land typ 7).

Definition DecodeTag (x : Z) : Z * Z :=
  if Z.shiftr x 3 >? MaxInt32 then (-1, 0)
  else (Z.shiftr x 3, Z.land x 7).

Definition ConsumeTag (b : list Z) : Z * Z * Z :=
  let '(v, n) := ConsumeVarint b in
  if n <? 0 then (0, 0, n)
  else
    let '(num, typ) := DecodeTag v in
    if num <? MinValidNumber then (0, 0, errCodeFieldNumber)
    else (num, typ, n).

Definition AppendTag (b : list Z) (num typ : Z) : list Z :=
  AppendVarint b (EncodeTag num typ).

(** Little-endian fixed-width integers. *)
Fixpoint le_bytes (n : nat) (v : Z) : list Z :=
  match n with
  | O => []
  | S n' => Z.land v 255 :: le_bytes n' (Z.shiftr v 8)
  end.

Fixpoint le_value (b : list Z) : Z :=
  match b with
  | [] => 0
  | y :: b' => y + 256 * le_value b'
  end.

Definition AppendFixed32 (b : list Z) (v : Z) : list Z := b ++ le_bytes 4 v.
Definition AppendFixed64 (b : list Z) (v : Z) : list Z := b ++ le_bytes 8 v.

Definition ConsumeFixed32 (b : list Z) : Z * Z :=
  if (length b <? 4)%nat then (0, errCodeTruncated)
  else (le_value (firstn 4 b), 4).

Definition ConsumeFixed64 (b : list Z) : Z * Z :=
  if (length b <? 8)%nat then (0, errCodeTruncated)
  else (le_value (firstn 8 b), 8).

(** [ConsumeBytes]: a length prefix, then that many bytes, returned as a
    sub-slice [b[n:][:m]] of the input (it keeps the input's capacity). *)
Definition ConsumeBytes (b : Bytes) : Bytes * Z :=
  let '(m, n) := ConsumeVarint (data b) in
  if n <? 0 then (mkBytes [] 0, n)
  else if m >? Z.of_nat (blen b) - n then (mkBytes [] 0, errCodeTruncated)
  else (slice_to (slice_from b (Z.to_nat n)) (Z.to_nat m), n + m).

Definition EncodeBool (x : bool) : Z := if x then 1 else 0.

End protowire.

(** ** Types and values, as package reflect shows them *)

Module reflect.

Inductive Kind : Set :=
| Bool | Int | Int8 | Int16 | Int32 | Int64
| Uint | Uint8 | Uint16 | Uint32 | Uint64
| Float32 | Float64 | String
| Struct | Ptr | Slice | Array | Map | Interface.

Definition Kind_eqb (a b : Kind) : bool :=
  match a, b with
  | Bool, Bool | Int, Int | Int8, Int8 | Int16, Int16 | Int32, Int32
  | Int64, Int64 | Uint, Uint | Uint8, Uint8 | Uint16, Uint16
  | Uint32, Uint32 | Uint64, Uint64 | Float32, Float32 | Float64, Float64
  | String, String | Struct, Struct | Ptr, Ptr | Slice, Slice
  | Array, Array | Map, Map | Interface, Interface => true
  | _, _ => false
  end.

(** A type description.  [TNamed] is a defined type ([type mybool bool]);
    [TTime] stands for [time.Time], whose fields are all unexported. *)
Inductive type : Type :=
| TBasic (k : Kind)
| TNamed (name : string) (underlying : type)
| TStruct (fields : list StructField)
| TPtr (elem : type)
| TSlice (elem : type)
| TArray (len : nat) (elem : type)
| TMap (key elem : type)
| TInterface (name : string)
| TTime
with StructField : Type :=
| mkField (Name : string) (PkgPath : string) (Typ : type)
          (Tag : string) (Anonymous : bool).

Definition Name (f : StructField) : string :=
  match f with mkField n _ _ _ _ => n end.
Definition PkgPath (f : StructField) : string :=
  match f with mkField _ p _ _ _ => p end.
Definition Typ (f : StructField) : type :=
  match f with mkField _ _ t _ _ => t end.
(** The value of the tag's [protobuf] key: [field.Tag.Get("protobuf")]. *)
Definition Tag (f : StructField) : string :=
  match f with mkField _ _ _ t _ => t end.
Definition Anonymous (f : StructField) : bool :=
  match f with mkField _ _ _ _ a => a end.
Definition IsExported (f : StructField) : bool :=
  String.eqb (PkgPath f) "".

Fixpoint kind (t : type) : Kind :=
  match t with
  | TBasic k => k
  | TNamed _ u => kind u
  | TStruct _ => Struct
  | TPtr _ => Ptr
  | TSlice _ => Slice
  | TArray _ _ => Array
  | TMap _ _ => Map
  | TInterface _ => Interface
  | TTime => Struct
  end.

(** The fields of [time.Time]. *)
Definition timeFields : list StructField :=
  [ mkField "wall" "time" (TBasic Uint64) "" false;
    mkField "ext" "time" (TBasic Int64) "" false;
    mkField "loc" "time" (TPtr (TNamed "time.Location" (TStruct []))) "" false ].

(** [t.NumField()] and [t.Field(i)] together: [None] when [t] is not a
    struct type (reflect panics there). *)
Fixpoint fieldsOf (t : type) : option (list StructField) :=
  match t with
  | TNamed _ u => fieldsOf u
  | TStruct fs => Some fs
  | TTime => Some timeFields
  | _ => None
  end.

(** [t.Elem()] for pointers, slices, arrays and maps. *)
Fixpoint Elem (t : type) : option type :=
  match t with
  | TNamed _ u => Elem u
  | TPtr e | TSlice e | TArray _ e | TMap _ e => Some e
  | _ => None
  end.

Fixpoint Key (t : type) : option type :=
  match t with
  | TNamed _ u => Key u
  | TMap k _ => Some k
  | _ => None
  end.

Fixpoint Len (t : type) : nat :=
  match t with
  | TNamed _ u => Len u
  | TArray n _ => n
  | _ => O
  end.

(** Type identity.  Two defined types of one name have one underlying
    type, so comparing names and structure decides identity. *)
Fixpoint type_eqb (a b : type) {struct a} : bool :=
  match a, b with
  | TBasic k1, TBasic k2 => Kind_eqb k1 k2
  | TNamed n1 u1, TNamed n2 u2 => String.eqb n1 n2 && type_eqb u1 u2
  | TStruct f1, TStruct f2 =>
      (fix all2 (l1 l2 : list StructField) : bool :=
         match l1, l2 with
         | [], [] => true
         | x :: l1', y :: l2' => field_eqb x y && all2 l1' l2'
         | _, _ => false
         end) f1 f2
  | TPtr e1, TPtr e2 => type_eqb e1 e2
  | TSlice e1, TSlice e2 => type_eqb e1 e2
  | TArray n1 e1, TArray n2 e2 => Nat.eqb n1 n2 && type_eqb e1 e2
  | TMap k1 e1, TMap k2 e2 => type_eqb k1 k2 && type_eqb e1 e2
  | TInterface n1, TInterface n2 => String.eqb n1 n2
  | TTime, TTime => true
  | _, _ => false
  end
with field_eqb (x y : StructField) {struct x} : bool :=
  match x, y with
  | mkField n1 p1 t1 g1 a1, mkField n2 p2 t2 g2 a2 =>
      String.eqb n1 n2 && String.eqb p1 p2 && type_eqb t1 t2
      && String.eqb g1 g2 && Bool.eqb a1 a2
  end.

(** The contents of a variable.  Integers are held in the range of their
    type, floats as their IEEE bit pattern, a string as its bytes, a byte
    slice with its capacity, [time.Time] as Unix seconds and nanoseconds
    (location and monotonic clock left out). *)
Inductive value : Type :=
| VBool (b : bool)
| VInt (i : Z)
| VUint (u : Z)
| VFloat (bits : Z)
| VString (s : list Z)
| VStruct (fields : list value)
| VPtr (p : option value)
| VBytes (b : Bytes)
| VSlice (elems : list value)
| VArray (elems : list value)
| VMap (entries : list (value * value))
| VInterface (dyn : option (type * value))
| VTime (sec nsec : Z).

Definition zeroTime : value := VTime (-62135596800) 0.

(** [reflect.Zero(t)] *)
Fixpoint Zero (t : type) : value :=
  match t with
  | TBasic Bool => VBool false
  | TBasic (Int | Int8 | Int16 | Int32 | Int64) => VInt 0
  | TBasic (Uint | Uint8 | Uint16 | Uint32 | Uint64) => VUint 0
  | TBasic (Float32 | Float64) => VFloat 0
  | TBasic String => VString []
  | TBasic _ => VInt 0
  | TNamed _ u => Zero u
  | TStruct fs =>
      VStruct ((fix zeros (l : list StructField) : list value :=
                  match l with
                  | [] => []
                  | mkField _ _ ft _ _ :: l' => Zero ft :: zeros l'
                  end) fs)
  | TPtr _ => VPtr None
  | TSlice e =>
      match kind e with
      | Uint8 => VBytes (mkBytes [] 0)
      | _ => VSlice []
      end
  | TArray n e => VArray (repeat (Zero e) n)
  | TMap _ _ => VMap []
  | TInterface _ => VInterface None
  | TTime => zeroTime
  end.

(** A [reflect.Value]: type, contents and the flag bits that decide
    [CanAddr] and [CanSet]. *)
Record Value : Type := mkValue {
  Type_ : type;
  val : value;
  flagAddr : bool;
  flagStickyRO : bool;
  flagEmbedRO : bool
}.

Definition flagRO (v : Value) : bool := flagStickyRO v || flagEmbedRO v.
Definition CanAddr (v : Value) : bool := flagAddr v.
Definition CanSet (v : Value) : bool := flagAddr v && negb (flagRO v).

(** [reflect.ValueOf(p).Elem()] for a non-nil pointer [p] to [x : t]. *)
Definition Deref (t : type) (x : value) : Value :=
  mkValue t x true false false.

(** [v.Field(i)] *)
Definition Field (v : Value) (i : nat) : result Value :=
  match fieldsOf (Type_ v), val v with
  | Some fs, VStruct xs =>
      match nth_error fs i, nth_error xs i with
      | Some f, Some x =>
          let ro := negb (IsExported f) in
          Ok (mkValue (Typ f) x (flagAddr v)
                (flagStickyRO v || (ro && negb (Anonymous f)))
                (ro && Anonymous f))
      | None, _ => Panic "reflect: Field index out of range"
      | _, None => IllTyped
      end
  | Some fs, VTime _ _ =>
      (* the fields of a [time.Time] are unexported; their contents are
         not modelled *)
      match nth_error fs i with
      | Some f => Ok (mkValue (Typ f) (Zero (Typ f)) (flagAddr v) true false)
      | None => Panic "reflect: Field index out of range"
      end
  | Some _, _ => IllTyped
  | None, _ => Panic "reflect: call of reflect.Value.Field on non-struct Value"
  end.

(** [v.Elem()] on a pointer. *)
Definition PtrElem (v : Value) : result Value :=
  match Elem (Type_ v), val v with
  | Some e, VPtr (Some x) =>
      Ok (mkValue e x true (flagStickyRO v) (flagEmbedRO v))
  | Some e, VPtr None => Panic "reflect: Elem of nil pointer"
  | _, _ => IllTyped
  end.

Definition IsNilPtr (v : Value) : bool :=
  match val v with VPtr None => true | _ => false end.

Definition isPtrToStruct (t : type) : bool :=
  match kind t, Elem t with
  | Ptr, Some e => Kind_eqb (kind e) Struct
  | _, _ => false
  end.

(** [v.FieldByIndex(index)]: embedded pointers to structs are followed;
    a nil one panics. *)
Fixpoint fieldByIndex_rest (v : Value) (index : list nat) : result Value :=
  match index with
  | [] => Ok v
  | x :: index' =>
      v1 <- (if isPtrToStruct (Type_ v)
             then if IsNilPtr v
                  then Panic "reflect: indirection through nil pointer to embedded struct"
                  else PtrElem v
             else Ok v) ;;
      v2 <- Field v1 x ;;
      fieldByIndex_rest v2 index'
  end.

Definition FieldByIndex (v : Value) (index : list nat) : result Value :=
  match index with
  | [] => Ok v
  | x :: index' => v1 <- Field v x ;; fieldByIndex_rest v1 index'
  end.

End reflect.

Import reflect.

(** ** Small library functions of package strings, strconv and fmt *)

(** [strings.Split(s, ",")] *)
Fixpoint Split (s : string) : list string :=
  match s with
  | EmptyString => [EmptyString]
  | String.String c r =>
      if Ascii.eqb c ","%char then EmptyString :: Split r
      else match Split r with
           | h :: t => String.String c h :: t
           | [] => [String.String c EmptyString]
           end
  end.

Definition digit (c : ascii) : option Z :=
  let n := Z.of_nat (nat_of_ascii c) in
  if (48 <=? n) && (n <=? 57) then Some (n - 48) else None.

Fixpoint digits (s : string) (acc : Z) : option Z :=
  match s with
  | EmptyString => Some acc
  | String.String c r =>
      match digit c with
      | Some d => digits r (10 * acc + d)
      | None => None
      end
  end.

(** [strconv.Atoi]: an optional sign, then at least one decimal digit, and
    the number fits in an [int]; [None] is its error. *)
Definition Atoi (s : string) : option Z :=
  let '(neg, body) :=
    match s with
    | String.String "+"%char r => (false, r)
    | String.String "-"%char r => (true, r)
    | _ => (false, s)
    end in
  match body with
  | EmptyString => None
  | _ =>
      match digits body 0 with
      | Some n =>
          let z := if neg then - n else n in
          if (- 2 ^ 63 <=? z) && (z <=? 2 ^ 63 - 1) then Some z else None
      | None => None
      end
  end.

(** [fmt.Sprintf("%d", z)] *)
Definition itoa (z : Z) : string := NilZero.string_of_int (Z.to_int z).

Definition KindString (k : Kind) : string :=
  match k with
  | Bool => "bool" | Int => "int" | Int8 => "int8" | Int16 => "int16"
  | Int32 => "int32" | Int64 => "int64" | Uint => "uint" | Uint8 => "uint8"
  | Uint16 => "uint16" | Uint32 => "uint32" | Uint64 => "uint64"
  | Float32 => "float32" | Float64 => "float64" | String => "string"
  | Struct => "struct" | Ptr => "ptr" | Slice => "slice" | Array => "array"
  | Map => "map" | Interface => "interface"
  end.

(** [t.String()]; the fields of a struct type without a name are not
    printed. *)
Fixpoint typeString (t : type) : string :=
  match t with
  | TBasic k => KindString k
  | TNamed n _ => n
  | TStruct _ => "struct {...}"
  | TPtr e => "*" ++ typeString e
  | TSlice e => "[]" ++ typeString e
  | TArray n e => "[" ++ itoa (Z.of_nat n) ++ "]" ++ typeString e
  | TMap k e => "map[" ++ typeString k ++ "]" ++ typeString e
  | TInterface n => n
  | TTime => "time.Time"
  end.


(** ** The field resolver *)

(** [ParseTag] parses the protobuf tag of the given struct field. *)
Definition ParseTag (field : StructField) : Z * string :=
  let tag := Tag field in
  if String.eqb tag "" then (0, "")
  else
    fold_left
      (fun (acc : Z * string) (part : string) =>
         let '(id, name) := acc in
         match Atoi part with
         | None => (id, part)
         | Some i => (i, name)
         end)
      (Split tag) (0, "").

(** [ProtoField] contains cached reflected metadata for struct fields. *)
Record ProtoField : Type := mkProtoField {
  ID : Z;               (* protowire.Number, an int32 *)
  Name : string;
  Index : list nat;
  Field : StructField
}.

(** [inner.Index = append([]int{i}, inner.Index...)] *)
Definition prependIndex (i : nat) (inner : ProtoField) : ProtoField :=
  mkProtoField (ID inner) (Name inner) (i :: Index inner) (Field inner).

(** The loop of [innerFieldIndexes] over the fields from position [i] on;
    [rec] is the recursive call on an embedded field's type and [id] the
    contents of the counter [*id].  The counter is returned with the
    entries. *)
Fixpoint fieldLoop (rec : Z -> type -> result (list ProtoField * Z))
    (fs : list StructField) (i : nat) (id : Z)
    : result (list ProtoField * Z) :=
  match fs with
  | [] => Ok ([], id)
  | f :: fs' =>
      let id1 := to_int64 (id + 1) in
      let '(tid, name) := ParseTag f in
      let id2 := if tid =? 0 then id1 else tid in
      if Anonymous f then
        '(inner, id3) <- rec (to_int64 (id2 - 1))
                             (match f with mkField _ _ ft _ _ => ft end) ;;
        '(rest, id4) <- fieldLoop rec fs' (S i) id3 ;;
        Ok (map (prependIndex i) inner ++ rest, id4)
      else
        '(rest, id4) <- fieldLoop rec fs' (S i) id2 ;;
        Ok (mkProtoField (to_int32 id2) name [i] f :: rest, id4)
  end.

Definition noEmbedding (_ : Z) (_ : type) : result (list ProtoField * Z) :=
  Panic "reflect: NumField of non-struct type".

Fixpoint innerFieldIndexes (id : Z) (v : type) {struct v}
    : result (list ProtoField * Z) :=
  match v with
  | TPtr e => innerFieldIndexes id e
  | TNamed _ u => innerFieldIndexes id u
  | TStruct fs => fieldLoop innerFieldIndexes fs 0 id
  | TTime => fieldLoop noEmbedding timeFields 0 id
  | _ => Panic "reflect: NumField of non-struct type"
  end.

(** The first field number met twice, in the order of the scan. *)
Fixpoint firstReused (seen : list Z) (idx : list ProtoField) : option Z :=
  match idx with
  | [] => None
  | i :: idx' =>
      if existsb (Z.eqb (ID i)) seen then Some (ID i)
      else firstReused (ID i :: seen) idx'
  end.

(** [t.PkgPath() + "." + t.Name()] *)
Definition qualifiedName (t : type) : string :=
  match t with
  | TNamed n _ => n
  | TTime => "time.Time"
  | _ => "."
  end.

(** [ProtoFields] without its cache: the entries of [t], or the panic on a
    reused field number. *)
Definition protoFields (t : type) : result (list ProtoField) :=
  '(idx, _) <- innerFieldIndexes 0 t ;;
  match firstReused [] idx with
  | Some n =>
      Panic ("protobuf ID " ++ itoa n ++ " reused in " ++ qualifiedName t)
  | None => Ok idx
  end.

(** The cache: [map[reflect.Type][]*ProtoField]. *)
Definition Cache : Type := list (type * list ProtoField).

Fixpoint cacheGet (cache : Cache) (t : type) : option (list ProtoField) :=
  match cache with
  | [] => None
  | (t', idx) :: cache' =>
      if type_eqb t' t then Some idx else cacheGet cache' t
  end.

(** [ProtoFields] returns a list of ProtoFields for the given struct type.
    The cache is passed in and returned; a panic leaves it as it was. *)
Definition ProtoFields (cache : Cache) (t : type)
    : result (list ProtoField) * Cache :=
  match cacheGet cache t with
  | Some idx => (Ok idx, cache)
  | None =>
      match protoFields t with
      | Ok idx => (Ok idx, (t, idx) :: cache)
      | r => (r, cache)
      end
  end.

(** The types of the tests. *)
Definition int32Type : type := TBasic Int32.

Definition TestNestedInner : type :=
  TNamed "protobuf_test.TestNestedInner"
    (TStruct [ mkField "A" "" int32Type "" false;
               mkField "B" "" int32Type "10" false;
               mkField "C" "" int32Type "renamed" false ]).

Definition TestNestedOuter : type :=
  TNamed "protobuf_test.TestNestedOuter"
    (TStruct [ mkField "A" "" int32Type "" false;
               mkField "TestNestedInner" "" (TPtr TestNestedInner) "" true ]).

Definition TestDuplicateID : type :=
  TNamed "protobuf_test.TestDuplicateID"
    (TStruct [ mkField "A" "" int32Type "1" false;
               mkField "B" "" int32Type "1" false ]).

Definition entries (r : result (list ProtoField)) : list (Z * string * list nat) :=
  match r with
  | Ok idx => map (fun p => (ID p, Name p, Index p)) idx
  | _ => []
  end.

(** ** Methods and the registry of generators *)

(** The methods of a type that the codec looks for: those of
    [encoding.BinaryMarshaler], [encoding.BinaryUnmarshaler] and
    [InterfaceMarshaler].  The receiver is given by its contents;
    [UnmarshalBinary] returns the receiver as it has changed it. *)
Record MethodSet : Type := mkMethodSet {
  MarshalBinary : option (value -> result (list Z));
  UnmarshalBinary : option (list Z -> value -> result value);
  MarshalID : option (value -> list Z);
  (* the interface types the type implements *)
  Implements : type -> bool
}.

(** [interface{}] *)
Definition emptyInterface : type := TInterface "interface {}".

(** A type without methods implements the empty interface only. *)
Definition noMethods : MethodSet :=
  mkMethodSet None None None (fun i => type_eqb i emptyInterface).

(** A [GeneratorID] is an array of eight bytes. *)
Definition GeneratorIDLen : nat := 8.

(** An [InterfaceGeneratorFunc], by the value it returns. *)
Definition InterfaceGeneratorFunc : Type := (type * value)%type.

(** The registry of generators, by its entries. *)
Definition generatorRegistry : Type := list (list Z * InterfaceGeneratorFunc).

Definition bytes_eqb (a b : list Z) : bool :=
  (length a =? length b)%nat && forallb (fun p => fst p =? snd p) (combine a b).

Fixpoint generators_get (r : generatorRegistry) (id : list Z)
    : option InterfaceGeneratorFunc :=
  match r with
  | [] => None
  | (id', g) :: r' => if bytes_eqb id' id then Some g else generators_get r' id
  end.

(** The declared types of the package. *)
Definition boolType : type := TBasic Bool.
Definition intType : type := TBasic Int.
Definition int64Type : type := TBasic Int64.
Definition uintType : type := TBasic Uint.
Definition uint32Type : type := TBasic Uint32.
Definition uint64Type : type := TBasic Uint64.
Definition float32Type : type := TBasic Float32.
Definition float64Type : type := TBasic Float64.
Definition stringType : type := TBasic String.
Definition bytesType : type := TSlice (TBasic Uint8).
Definition timeType : type := TTime.
Definition sfixed32type : type := TNamed "protobuf.Sfixed32" (TBasic Int32).
Definition sfixed64type : type := TNamed "protobuf.Sfixed64" (TBasic Int64).
Definition ufixed32type : type := TNamed "protobuf.Ufixed32" (TBasic Uint32).
Definition ufixed64type : type := TNamed "protobuf.Ufixed64" (TBasic Uint64).

(** Accessors of [reflect.Value]; contents of another shape cannot occur. *)
Definition getBool (v : Value) : result bool :=
  match val v with VBool b => Ok b | _ => IllTyped end.
Definition getInt (v : Value) : result Z :=
  match val v with VInt i => Ok i | _ => IllTyped end.
Definition getUint (v : Value) : result Z :=
  match val v with VUint u => Ok u | _ => IllTyped end.
Definition getFloat (v : Value) : result Z :=
  match val v with VFloat f => Ok f | _ => IllTyped end.
Definition getString (v : Value) : result (list Z) :=
  match val v with VString s => Ok s | _ => IllTyped end.

(** The elements of a slice or array: [v.Index(i)] for every [i].  A slice
    element is always addressable, an array element when the array is. *)
Definition elements (v : Value) : result (list Value) :=
  match Elem (Type_ v), val v with
  | Some e, VSlice xs =>
      Ok (map (fun x => mkValue e x true (flagRO v) false) xs)
  | Some e, VBytes b =>
      Ok (map (fun x => mkValue e (VUint x) true (flagRO v) false) (data b))
  | Some e, VArray xs =>
      Ok (map (fun x => mkValue e x (flagAddr v) (flagRO v) false) xs)
  | _, _ => IllTyped
  end.

(** The bytes of a slice or array of [uint8]. *)
Definition bytesOf (v : Value) : result (list Z) :=
  match val v with
  | VBytes b => Ok (data b)
  | VArray xs =>
      fold_right (fun x acc =>
                    match x with
                    | VUint u => l <- acc ;; Ok (u :: l)
                    | _ => IllTyped
                    end) (Ok []) xs
  | _ => IllTyped
  end.

(** [UnixNano] of a [time.Time]. *)
Definition UnixNano (v : Value) : result Z :=
  match val v with
  | VTime sec nsec => Ok (to_int64 (sec * 1000000000 + nsec))
  | _ => IllTyped
  end.

(** Running [f] on every element and concatenating what is written. *)
Fixpoint forEach {A} (f : A -> result (list Z)) (l : list A) : result (list Z) :=
  match l with
  | [] => Ok []
  | x :: l' => b <- f x ;; bs <- forEach f l' ;; Ok (b ++ bs)
  end.

(** A panic with a message built from the one caught. *)
Definition repanic {A} (f : string -> string) (r : result A) : result A :=
  match r with
  | Panic m => Panic (f m)
  | _ => r
  end.

(** ** The encoder *)

Section Encoder.

Variable methods : type -> MethodSet.
Variable generators : generatorRegistry.

Definition en_uvarint (v : Z) : list Z := protowire.AppendVarint [] v.

(** [en.uvarint(uint64(v))] *)
Definition en_svarint (v : Z) : list Z := en_uvarint (wrap64 v).

Definition en_keyTag (key : Z) (varintType : Z) : list Z :=
  en_uvarint (protowire.EncodeTag key varintType).

Definition en_u32 (v : Z) : list Z := protowire.AppendFixed32 [] v.
Definition en_u64 (v : Z) : list Z := protowire.AppendFixed64 [] v.

Definition lenZ (b : list Z) : Z := Z.of_nat (length b).

(** A key, a length and the bytes. *)
Definition en_bytesField (key : Z) (b : list Z) : list Z :=
  en_keyTag key protowire.BytesType ++ en_uvarint (lenZ b) ++ b.

(** [v.Interface()] panics on a value reached through an unexported
    field. *)
Definition checkInterface (v : Value) : result unit :=
  if flagRO v
  then Panic "reflect.Value.Interface: cannot return value obtained from unexported field or method"
  else Ok tt.

(** [err != nil] after [MarshalBinary] becomes [panic(err.Error())]. *)
Definition mustMarshal (r : result (list Z)) : result (list Z) :=
  match r with
  | Err m => Panic m
  | _ => r
  end.

(** [getEncoder]: the marshaler of the value itself, else of its address. *)
Definition getEncoder (v : Value) : result (option (result (list Z))) :=
  _ <- checkInterface v ;;
  match MarshalBinary (methods (Type_ v)) with
  | Some mb => Ok (Some (mb (val v)))
  | None =>
      if CanAddr v then
        match MarshalBinary (methods (TPtr (Type_ v))) with
        | Some mb => Ok (Some (mb (VPtr (Some (val v)))))
        | None => Ok None
        end
      else Ok None
  end.

Section Body.

(** The recursive call [en.value]. *)
Variable recv : Z -> Value -> result (list Z).

(** The loop of [en.message] over the entries: what is written, and
    whether [noPublicFields] still holds.  A panic is caught and raised
    again with the name of the field that was being encoded. *)
Fixpoint en_fields (sval : Value) (protoFields : list ProtoField)
    : result (list Z * bool) :=
  match protoFields with
  | [] => Ok ([], true)
  | index :: rest =>
      '(b, np) <-
        repanic (fun r => (r ++ " (field " ++ reflect.Name (Field index) ++ ")")%string)
          (field <- FieldByIndex sval (Index index) ;;
           if CanSet field
           then b <- recv (ID index) field ;; Ok (b, false)
           else Ok ([], true)) ;;
      '(bs, nps) <- en_fields sval rest ;;
      Ok (b ++ bs, np && nps)
  end.

Definition en_message_body (sval : Value) : result (list Z) :=
  pfs <- protoFields (Type_ sval) ;;
  match pfs with
  | [] => Ok []
  | _ =>
      '(out, noPublicFields) <- en_fields sval pfs ;;
      if noPublicFields
      then Panic ("struct has no serializable fields (field "
                    ++ reflect.Name (Field (last pfs (mkProtoField 0 "" [] (mkField "" "" TTime "" false))))
                    ++ ")")
      else Ok out
  end.

Definition boolBit (b : bool) : Z := if b then 1 else 0.

(** The packed payload of a slice, one element after the other. *)
Definition packWith (f : Value -> result (list Z)) (slval : Value)
    : result (list Z) :=
  els <- elements slval ;; forEach f els.

Definition en_sliceReflect (key : Z) (slval : Value) : result (list Z) :=
  match Elem (Type_ slval) with
  | None => Panic "no slice passed"
  | Some slelt =>
      match kind slelt with
      | Bool =>
          p <- packWith (fun e => b <- getBool e ;; Ok (en_uvarint (boolBit b))) slval ;;
          Ok (en_bytesField key p)
      | Int | Int32 | Int64 =>
          p <- packWith (fun e => i <- getInt e ;; Ok (en_svarint i)) slval ;;
          Ok (en_bytesField key p)
      | Uint32 | Uint64 =>
          p <- packWith (fun e => u <- getUint e ;; Ok (en_uvarint u)) slval ;;
          Ok (en_bytesField key p)
      | Float32 =>
          p <- packWith (fun e => f <- getFloat e ;; Ok (en_u32 (quiet32 f))) slval ;;
          Ok (en_bytesField key p)
      | Float64 =>
          p <- packWith (fun e => f <- getFloat e ;; Ok (en_u64 f)) slval ;;
          Ok (en_bytesField key p)
      | Uint8 =>
          (* Write the byte-slice as one key,value pair.  The conversion
             to [[]byte], and [reflect.Copy] into one, need elements of
             the very type [uint8]. *)
          if type_eqb slelt (TBasic Uint8) then
            b <- bytesOf slval ;; Ok (en_bytesField key b)
          else if Kind_eqb (kind (Type_ slval)) Array then
            if CanAddr slval then
              Panic ("reflect.Value.Convert: value of type []" ++ typeString slelt
                       ++ " cannot be converted to type []uint8")
            else Panic ("reflect.Copy: uint8 != " ++ typeString slelt)
          else
            Panic ("reflect.Value.Convert: value of type " ++ typeString (Type_ slval)
                     ++ " cannot be converted to type []uint8")
      | k =>
          if (Kind_eqb k Slice || Kind_eqb k Array)
             && negb (match Elem slelt with
                      | Some subSlice => Kind_eqb (kind subSlice) Uint8
                      | None => false
                      end)
          then Panic "protobuf: no support for 2-dimensional array except for [][]byte"
          else els <- elements slval ;; forEach (recv key) els
      end
  end.

Definition en_slice (key : Z) (slval : Value) : result (list Z) :=
  let t := Type_ slval in
  if type_eqb t (TSlice boolType) then
    p <- packWith (fun e => b <- getBool e ;; Ok (en_uvarint (boolBit b))) slval ;;
    Ok (en_bytesField key p)
  else if type_eqb t (TSlice int32Type) || type_eqb t (TSlice int64Type) then
    p <- packWith (fun e => i <- getInt e ;; Ok (en_svarint i)) slval ;;
    Ok (en_bytesField key p)
  else if type_eqb t (TSlice uint32Type) || type_eqb t (TSlice uint64Type) then
    p <- packWith (fun e => u <- getUint e ;; Ok (en_uvarint u)) slval ;;
    Ok (en_bytesField key p)
  else if type_eqb t (TSlice sfixed32type) then
    p <- packWith (fun e => i <- getInt e ;; Ok (en_u32 (wrap32 i))) slval ;;
    Ok (en_bytesField key p)
  else if type_eqb t (TSlice sfixed64type) then
    p <- packWith (fun e => i <- getInt e ;; Ok (en_u64 (wrap64 i))) slval ;;
    Ok (en_bytesField key p)
  else if type_eqb t (TSlice ufixed32type) then
    p <- packWith (fun e => u <- getUint e ;; Ok (en_u32 (wrap32 u))) slval ;;
    Ok (en_bytesField key p)
  else if type_eqb t (TSlice ufixed64type) then
    p <- packWith (fun e => u <- getUint e ;; Ok (en_u64 u)) slval ;;
    Ok (en_bytesField key p)
  else if type_eqb t (TSlice float32Type) then
    p <- packWith (fun e => f <- getFloat e ;; Ok (en_u32 f)) slval ;;
    Ok (en_bytesField key p)
  else if type_eqb t (TSlice float64Type) then
    p <- packWith (fun e => f <- getFloat e ;; Ok (en_u64 f)) slval ;;
    Ok (en_bytesField key p)
  else if type_eqb t bytesType then
    b <- bytesOf slval ;; Ok (en_bytesField key b)
  else if type_eqb t (TSlice stringType) then
    packWith (fun e => s <- getString e ;; Ok (en_bytesField key s)) slval
  else en_sliceReflect key slval.

(** [handleMap]: one entry message per key, in the order of the
    entries (Go leaves the order open). *)
Definition en_handleMap (key : Z) (mpval : Value) : result (list Z) :=
  match Key (Type_ mpval), Elem (Type_ mpval), val mpval with
  | Some kt, Some et, VMap entries =>
      forEach
        (fun kv : value * value =>
           let mkey := mkValue kt (fst kv) false (flagRO mpval) false in
           let mval := mkValue et (snd kv) false (flagRO mpval) false in
           _ <- match kind et with
                | Ptr =>
                    if IsNilPtr mval then Panic "proto: map has nil element"
                    else Ok tt
                | Slice | Array =>
                    match Elem et with
                    | Some e =>
                        if Kind_eqb (kind e) Uint8 then Ok tt
                        else Panic "protobuf: map only support []byte or string as repeated value"
                    | None => IllTyped
                    end
                | _ => Ok tt
                end ;;
           kb <- recv 1 mkey ;;
           vb <- recv 2 mval ;;
           Ok (en_bytesField key (kb ++ vb)))
        entries
  | _, _, _ => IllTyped
  end.

Definition en_interface (key : Z) (v : Value) : result (list Z) :=
  match val v with
  | VInterface None => Ok []
  | VInterface (Some (dt, dv)) =>
      _ <- checkInterface v ;;
      match MarshalBinary (methods dt) with
      | Some mb =>
          bytes <- mustMarshal (mb dv) ;;
          let id :=
            match MarshalID (methods dt) with
            | Some mid =>
                match generators_get generators (mid dv) with
                | Some _ => Some (mid dv)
                | None => None
                end
            | None => None
            end in
          match id with
          | Some id =>
              (* only write the tag if a generator exists *)
              Ok (en_keyTag key protowire.BytesType
                    ++ en_uvarint (lenZ bytes + Z.of_nat GeneratorIDLen)
                    ++ id ++ bytes)
          | None =>
              Ok (en_keyTag key protowire.BytesType
                    ++ en_uvarint (lenZ bytes) ++ bytes)
          end
      | None => recv key (mkValue dt dv false (flagRO v) false)
      end
  | _ => IllTyped
  end.

Definition KindNumber (k : Kind) : string :=
  match k with
  | Bool => "1" | Int => "2" | Int8 => "3" | Int16 => "4" | Int32 => "5"
  | Int64 => "6" | Uint => "7" | Uint8 => "8" | Uint16 => "9"
  | Uint32 => "10" | Uint64 => "11" | Float32 => "13" | Float64 => "14"
  | Array => "17" | Interface => "20" | Map => "21" | Ptr => "22"
  | Slice => "23" | String => "24" | Struct => "25"
  end.

Definition en_value_body (key : Z) (v : Value) : result (list Z) :=
  let t := Type_ v in
  (* Non-reflectively handle some of the fixed types *)
  if type_eqb t boolType then
    b <- getBool v ;;
    Ok (en_keyTag key protowire.VarintType ++ en_uvarint (protowire.EncodeBool b))
  else if type_eqb t intType || type_eqb t int32Type || type_eqb t int64Type then
    i <- getInt v ;;
    Ok (en_keyTag key protowire.VarintType ++ en_svarint i)
  else if type_eqb t timeType then
    _ <- checkInterface v ;;
    n <- UnixNano v ;;
    Ok (en_keyTag key protowire.Fixed64Type ++ en_u64 (wrap64 n))
  else if type_eqb t uintType || type_eqb t uint32Type || type_eqb t uint64Type then
    u <- getUint v ;;
    Ok (en_keyTag key protowire.VarintType ++ en_uvarint u)
  else if type_eqb t sfixed32type then
    i <- getInt v ;;
    Ok (en_keyTag key protowire.Fixed32Type ++ en_u32 (wrap32 i))
  else if type_eqb t sfixed64type then
    i <- getInt v ;;
    Ok (en_keyTag key protowire.Fixed64Type ++ en_u64 (wrap64 i))
  else if type_eqb t ufixed32type then
    u <- getUint v ;;
    Ok (en_keyTag key protowire.Fixed32Type ++ en_u32 (wrap32 u))
  else if type_eqb t ufixed64type then
    u <- getUint v ;;
    Ok (en_keyTag key protowire.Fixed64Type ++ en_u64 u)
  else if type_eqb t float32Type then
    f <- getFloat v ;;
    Ok (en_keyTag key protowire.Fixed32Type ++ en_u32 (quiet32 f))
  else if type_eqb t float64Type then
    f <- getFloat v ;;
    Ok (en_keyTag key protowire.Fixed64Type ++ en_u64 f)
  else if type_eqb t stringType then
    s <- getString v ;; Ok (en_bytesField key s)
  else
    (* Handle pointer or interface values (possibly within slices). *)
    match kind t with
    | Bool =>
        b <- getBool v ;;
        Ok (en_keyTag key protowire.VarintType ++ en_uvarint (boolBit b))
    | Int | Int32 | Int64 =>
        i <- getInt v ;;
        Ok (en_keyTag key protowire.VarintType ++ en_svarint i)
    | Uint32 | Uint64 =>
        u <- getUint v ;;
        Ok (en_keyTag key protowire.VarintType ++ en_uvarint u)
    | Float32 =>
        f <- getFloat v ;;
        Ok (en_keyTag key protowire.Fixed32Type ++ en_u32 (quiet32 f))
    | Float64 =>
        f <- getFloat v ;;
        Ok (en_keyTag key protowire.Fixed64Type ++ en_u64 f)
    | String =>
        s <- getString v ;; Ok (en_bytesField key s)
    | Struct =>
        enc <- getEncoder v ;;
        match enc with
        | Some r => b <- mustMarshal r ;; Ok (en_bytesField key b)
        | None => b <- en_message_body v ;; Ok (en_bytesField key b)
        end
    | Slice | Array => en_slice key v
    | Ptr =>
        if IsNilPtr v then Ok []
        else e <- PtrElem v ;; recv key e
    | Interface => en_interface key v
    | Map => en_handleMap key v
    | k => Panic ("unsupported field Kind " ++ KindNumber k)
    end.

End Body.

Fixpoint en_value (fuel : nat) (key : Z) (v : Value) : result (list Z) :=
  match fuel with
  | O => OutOfFuel
  | S fuel' => en_value_body (en_value fuel') key v
  end.

Definition en_message (fuel : nat) (sval : Value) : result (list Z) :=
  en_message_body (en_value fuel) sval.

(** The nesting depth of a value bounds the depth of the recursion. *)
Fixpoint depth (x : value) : nat :=
  match x with
  | VStruct xs => S (fold_right (fun y d => Nat.max (depth y) d) O xs)
  | VPtr (Some y) => S (depth y)
  | VSlice xs | VArray xs => S (fold_right (fun y d => Nat.max (depth y) d) O xs)
  | VMap es =>
      S (fold_right (fun kv d => Nat.max (Nat.max (depth (fst kv)) (depth (snd kv))) d) O es)
  | VInterface (Some (_, y)) => S (depth y)
  | _ => 1%nat
  end.

(** [recover()] in the deferred function of [Encode]. *)
Definition recoverEncode (r : result (list Z)) : result (list Z) :=
  match r with
  | Panic m => Err m
  | _ => r
  end.

(** [Encode] a Go struct into protocol buffer format.  The argument is an
    interface value: [None] is [nil], otherwise a type and contents. *)
Definition Encode (structPtr : option (type * value)) : result (list Z) :=
  recoverEncode
    match structPtr with
    | None => Ok []
    | Some (t, x) =>
        match MarshalBinary (methods t) with
        | Some mb => mb x
        | None =>
            if negb (Kind_eqb (kind t) Ptr)
            then Err "encode takes a pointer to struct"
            else
              match Elem t, x with
              | Some e, VPtr (Some y) => en_message (depth y) (Deref e y)
              | Some _, VPtr None =>
                  Panic "reflect: call of reflect.Value.Type on zero Value"
              | _, _ => IllTyped
              end
        end
    end.

End Encoder.

Definition Test1 : type :=
  TNamed "protobuf_test.Test1" (TStruct [ mkField "A" "" uint32Type "" false ]).

(** ** Writing into a struct; map keys *)

Definition bytes_beq (a b : Bytes) : bool := bytes_eqb (data a) (data b).

(** Equality of contents, pattern by pattern; capacities are not
    compared. *)
Fixpoint value_eqb (a b : value) {struct a} : bool :=
  match a, b with
  | VBool x, VBool y => Bool.eqb x y
  | VInt x, VInt y => x =? y
  | VUint x, VUint y => x =? y
  | VFloat x, VFloat y => x =? y
  | VString x, VString y => bytes_eqb x y
  | VStruct xs, VStruct ys
  | VSlice xs, VSlice ys
  | VArray xs, VArray ys =>
      (fix all2 (l1 l2 : list value) : bool :=
         match l1, l2 with
         | [], [] => true
         | x :: l1', y :: l2' => value_eqb x y && all2 l1' l2'
         | _, _ => false
         end) xs ys
  | VPtr None, VPtr None => true
  | VPtr (Some x), VPtr (Some y) => value_eqb x y
  | VBytes x, VBytes y => bytes_beq x y
  | VMap xs, VMap ys =>
      (fix all2 (l1 l2 : list (value * value)) : bool :=
         match l1, l2 with
         | [], [] => true
         | (k1, x) :: l1', (k2, y) :: l2' =>
             value_eqb k1 k2 && value_eqb x y && all2 l1' l2'
         | _, _ => false
         end) xs ys
  | VInterface None, VInterface None => true
  | VInterface (Some (t1, x)), VInterface (Some (t2, y)) =>
      type_eqb t1 t2 && value_eqb x y
  | VTime s1 n1, VTime s2 n2 => (s1 =? s2) && (n1 =? n2)
  | _, _ => false
  end.

(** [==] on two map keys of type [t], the first a key of the map, the
    second the key the decoder has just built.  Floats are compared as
    floats; a pointer the decoder has allocated is equal to no pointer
    that was there before. *)
Fixpoint go_eqb (t : type) (a b : value) {struct a} : bool :=
  match a, b with
  | VFloat x, VFloat y => float_eqb (Kind_eqb (kind t) Float64) x y
  | VStruct xs, VStruct ys =>
      match fieldsOf t with
      | Some fs =>
          (fix all3 (fs : list StructField) (l1 l2 : list value) {struct l1} : bool :=
             match fs, l1, l2 with
             | [], [], [] => true
             | f :: fs', x :: l1', y :: l2' =>
                 go_eqb (match f with mkField _ _ ft _ _ => ft end) x y
                 && all3 fs' l1' l2'
             | _, _, _ => false
             end) fs xs ys
      | None => false
      end
  | VArray xs, VArray ys =>
      match Elem t with
      | Some e =>
          (fix all2 (l1 l2 : list value) {struct l1} : bool :=
             match l1, l2 with
             | [], [] => true
             | x :: l1', y :: l2' => go_eqb e x y && all2 l1' l2'
             | _, _ => false
             end) xs ys
      | None => false
      end
  | VPtr None, VPtr None => true
  | VPtr _, VPtr _ => false
  | VInterface None, VInterface None => true
  | VInterface (Some (t1, x)), VInterface (Some (t2, y)) =>
      type_eqb t1 t2 && go_eqb t1 x y
  | _, _ => value_eqb a b
  end.

(** The first dynamic type inside a key that cannot be hashed. *)
Fixpoint unhashable (a : value) {struct a} : option type :=
  match a with
  | VInterface (Some (t, x)) =>
      match kind t with
      | Slice | Map => Some t
      | _ => unhashable x
      end
  | VStruct xs | VArray xs =>
      (fix first (l : list value) {struct l} : option type :=
         match l with
         | [] => None
         | x :: l' =>
             match unhashable x with
             | Some t => Some t
             | None => first l'
             end
         end) xs
  | _ => None
  end.

(** The assignment [m[k] = v] on the entries of a map with keys of type
    [kt]: an equal key is replaced with its value. *)
Fixpoint mapassign (kt : type) (m : list (value * value)) (k v : value)
    : list (value * value) :=
  match m with
  | [] => [(k, v)]
  | (k', v') :: m' =>
      if go_eqb kt k' k then (k, v) :: m' else (k', v') :: mapassign kt m' k v
  end.

(** [m.SetMapIndex(k, v)] *)
Definition SetMapIndex (kt : type) (m : list (value * value)) (k v : value)
    : result (list (value * value)) :=
  match unhashable k with
  | Some t => Panic ("runtime error: hash of unhashable type " ++ typeString t)
  | None => Ok (mapassign kt m k v)
  end.

(** Replacing element [i] of a list. *)
Fixpoint replaceNth {A} (l : list A) (i : nat) (x : A) : list A :=
  match l, i with
  | [], _ => []
  | _ :: l', O => x :: l'
  | y :: l', S i' => y :: replaceNth l' i' x
  end.

(** [sval.FieldByIndex(index).Set(new)], on the contents [x : t] of
    [sval]: the same walk as [FieldByIndex], writing at its end. *)
Fixpoint SetByIndex (t : type) (x : value) (index : list nat) (new : value)
    {struct index} : result value :=
  match index with
  | [] => Ok new
  | i :: index' =>
      match fieldsOf t, x with
      | Some fs, VStruct xs =>
          match nth_error fs i, nth_error xs i with
          | Some f, Some xi =>
              match index' with
              | [] => Ok (VStruct (replaceNth xs i new))
              | _ =>
                  if isPtrToStruct (Typ f) then
                    match Elem (Typ f), xi with
                    | Some e, VPtr (Some y) =>
                        y' <- SetByIndex e y index' new ;;
                        Ok (VStruct (replaceNth xs i (VPtr (Some y'))))
                    | _, VPtr None =>
                        Panic "reflect: indirection through nil pointer to embedded struct"
                    | _, _ => IllTyped
                    end
                  else
                    xi' <- SetByIndex (Typ f) xi index' new ;;
                    Ok (VStruct (replaceNth xs i xi'))
              end
          | None, _ => Panic "reflect: Field index out of range"
          | _, None => IllTyped
          end
      | Some _, _ => IllTyped
      | None, _ => Panic "reflect: call of reflect.Value.Field on non-struct Value"
      end
  end.

(** The constructors: [map[reflect.Type]func() interface{}], each function
    by the value it returns. *)
Definition Constructors : Type := list (type * (type * value)).

Fixpoint consGet (nm : Constructors) (t : type) : option (type * value) :=
  match nm with
  | [] => None
  | (t', f) :: nm' => if type_eqb t' t then Some f else consGet nm' t
  end.

(** [time.Unix(sec, nsec)] for [|nsec| < 1e9]. *)
Definition timeUnix (sec nsec : Z) : value :=
  if nsec <? 0 then VTime (sec - 1) (nsec + 1000000000) else VTime sec nsec.

(** ** The decoder *)

Section Decoder.

Variable methods : type -> MethodSet.
Variable generators : generatorRegistry.

(** Whether a value of the dynamic type [dt] can be stored in a variable
    of the interface type [t]. *)
Definition assignable (dt t : type) : bool :=
  type_eqb t emptyInterface || Implements (methods dt) t.

Definition de_decodeSignedInt (wiretype : Z) (v : Z) : result Z :=
  if wiretype =? protowire.VarintType then Ok (to_int64 v)
  else if wiretype =? protowire.Fixed32Type then Ok (to_int64 (to_int32 v))
  else if wiretype =? protowire.Fixed64Type then Ok (to_int64 v)
  else Err "bad wiretype for sint".

(** [de.instantiate]: an arbitrary type, handling dynamic interface
    types; the result is the type and contents of the new value. *)
Definition de_instantiate (nm : Constructors) (t : type) : result (type * value) :=
  match kind t with
  | Interface =>
      match consGet nm t with
      | None => Panic ("no constructor for interface " ++ typeString t)
      | Some newfunc => Ok newfunc
      end
  | _ => Ok (TPtr t, VPtr (Some (Zero t)))
  end.

(** [val.SetInt(x)] and [val.SetUint(x)] keep the bits that fit. *)
Definition setInt (k : Kind) (x : Z) : value :=
  match k with
  | Int32 => VInt (to_int32 x)
  | _ => VInt (to_int64 x)
  end.

Definition setUint (k : Kind) (x : Z) : value :=
  match k with
  | Uint32 => VUint (wrap32 x)
  | Uint8 => VUint (x mod 256)
  | _ => VUint (wrap64 x)
  end.

(** A fresh addressable variable: [reflect.New(t).Elem()]. *)
Definition newVar (t : type) : Value := mkValue t (Zero t) true false false.

(** [for fieldi < len(fields) && fields[fieldi].ID < fieldnum { fieldi++ }] *)
Fixpoint advanceFrom (rest : list ProtoField) (fieldi : nat) (fieldnum : Z) : nat :=
  match rest with
  | [] => fieldi
  | f :: rest' =>
      if ID f <? fieldnum then advanceFrom rest' (S fieldi) fieldnum
      else fieldi
  end.

Definition advance (fields : list ProtoField) (fieldi : nat) (fieldnum : Z) : nat :=
  advanceFrom (skipn fieldi fields) fieldi fieldnum.

(** For fields within embedded structs, ensure the embedded values aren't
    nil: every prefix [path] of the index is looked up and a nil pointer
    there is set to a new variable. *)
Fixpoint allocPath (sval : Value) (path rest : list nat) : result Value :=
  match rest with
  | [] => Ok sval
  | id :: rest' =>
      let path := path ++ [id] in
      field <- FieldByIndex sval path ;;
      sval' <-
        (if Kind_eqb (kind (Type_ field)) Ptr && IsNilPtr field then
           if CanSet field then
             match Elem (Type_ field) with
             | Some e =>
                 x <- SetByIndex (Type_ sval) (val sval) path (VPtr (Some (Zero e))) ;;
                 Ok (mkValue (Type_ sval) x (flagAddr sval)
                       (flagStickyRO sval) (flagEmbedRO sval))
             | None => IllTyped
             end
           else Panic "reflect: reflect.Value.Set using value obtained using unexported field"
         else Ok sval) ;;
      allocPath sval' path rest'
  end.

(** The first loop of [de.message]: every settable field that is not an
    interface is set to its zero value. *)
Fixpoint resetFields (sval : Value) (fs : list StructField) (xs : list value)
    : list value :=
  match fs, xs with
  | f :: fs', x :: xs' =>
      (match kind (Typ f) with
       | Interface => x
       | _ =>
           if flagAddr sval && negb (flagStickyRO sval) && IsExported f
           then Zero (Typ f) else x
       end) :: resetFields sval fs' xs'
  | _, _ => xs
  end.

(** The state of the loop of [de.message]. *)
Record loopState : Type := mkLoop {
  l_fieldi : nat;
  l_buf : Bytes;
  l_sval : Value
}.

(** [fmt.Errorf("error while decoding field %+v: %w", field, err)]; the
    field is shown by its name only. *)
Definition wrapFieldError (fields : list ProtoField) (fieldi : nat) (e : string)
    : string :=
  match nth_error fields fieldi with
  | Some f => "error while decoding field " ++ reflect.Name (Field f) ++ ": " ++ e
  | None => e
  end.

Section Body.

(** The recursive call [de.putvalue], with the decoder's constructors. *)
Variable recp : Constructors -> Z -> Value -> Z -> Bytes -> result value.
Variable nm : Constructors.

(** [de.value]: pull a value from the buffer and put it into [val]
    ([None] is the zero [reflect.Value]).  Returns the rest of the
    buffer and the new contents of [val] if it was given. *)
Definition de_value_body (wiretype : Z) (buf : Bytes) (val : option Value)
    : result (Bytes * option value) :=
  '(v, vb, buf') <-
    (if wiretype =? protowire.VarintType then
       let '(v, n) := protowire.ConsumeVarint (data buf) in
       if n <=? 0 then Err "bad protobuf varint value"
       else Ok (v, mkBytes [] 0, slice_from buf (Z.to_nat n))
     else if wiretype =? protowire.Fixed32Type then
       let '(res, n) := protowire.ConsumeFixed32 (data buf) in
       if n <=? 0 then Err "bad protobuf 32-bit value"
       else Ok (res, mkBytes [] 0, slice_from buf (Z.to_nat n))
     else if wiretype =? protowire.Fixed64Type then
       let '(res, n) := protowire.ConsumeFixed64 (data buf) in
       if n <=? 0 then Err "bad protobuf 64-bit value"
       else Ok (res, mkBytes [] 0, slice_from buf (Z.to_nat n))
     else if wiretype =? protowire.BytesType then
       let '(vb, n) := protowire.ConsumeBytes buf in
       if n <=? 0 then Err "bad protobuf length-delimited value"
       else Ok (0, slice3 vb (blen vb) (blen vb), slice_from buf (Z.to_nat n))
     else Err "unknown protobuf wire-type") ;;
  match val with
  | None => Ok (buf', None)
  | Some val => x <- recp nm wiretype val v vb ;; Ok (buf', Some x)
  end.

(** The packed loop of [de.slice]. *)
Fixpoint de_packed (steps : nat) (wiretype : Z) (vb : Bytes) (val : Value)
    (isSlice : bool) (acc : list value) : result (list value) :=
  if (blen vb =? 0)%nat then Ok acc
  else
    match steps with
    | O => OutOfFuel
    | S steps' =>
        '(rem, x) <- de_value_body wiretype vb (Some val) ;;
        match x with
        | Some x =>
            if isSlice then
              de_packed steps' wiretype rem
                (mkValue (Type_ val) x true false false) isSlice (acc ++ [x])
            else Panic "reflect: call of reflect.Append on array Value"
        | None => IllTyped
        end
    end.

Definition contentsOf (slval : Value) : result (list value) :=
  match val slval with
  | VSlice xs | VArray xs => Ok xs
  | _ => IllTyped
  end.

Definition isSliceKind (slval : Value) : bool :=
  Kind_eqb (kind (Type_ slval)) Slice.

Definition de_packedInto (wiretype : Z) (slval : Value) (eltype : type) (vb : Bytes)
    : result value :=
  xs <- contentsOf slval ;;
  xs' <- de_packed (blen vb) wiretype vb (newVar eltype) (isSliceKind slval) xs ;;
  Ok (if isSliceKind slval then VSlice xs' else VArray xs').

(** [de.slice]: handle decoding of slices. *)
Definition de_slice_body (slval : Value) (vb : Bytes) : result value :=
  match Elem (Type_ slval) with
  | None => IllTyped
  | Some eltype =>
      match kind eltype with
      | Bool | Int32 | Int64 | Int | Uint32 | Uint64 | Uint =>
          let wiretype :=
            if type_eqb eltype sfixed32type then protowire.Fixed32Type
            else if type_eqb eltype sfixed64type then protowire.Fixed64Type
            else if type_eqb eltype ufixed32type then protowire.Fixed32Type
            else if type_eqb eltype ufixed64type then protowire.Fixed64Type
            else protowire.VarintType in
          de_packedInto wiretype slval eltype vb
      | Float32 => de_packedInto protowire.Fixed32Type slval eltype vb
      | Float64 => de_packedInto protowire.Fixed64Type slval eltype vb
      | Uint8 =>
          if Kind_eqb (kind (Type_ slval)) Array then
            if negb (Len (Type_ slval) =? blen vb)%nat
            then Err "array length and buffer length differ"
            else Ok (VArray (map VUint (data vb)))
          else Ok (VBytes vb)
      | _ =>
          x <- recp nm 2 (newVar eltype) 0 vb ;;
          if negb (isSliceKind slval) then Err "append to non-slice"
          else xs <- contentsOf slval ;; Ok (VSlice (xs ++ [x]))
      end
  end.

(** The loop of [de.mapEntry] over the fields after the key. *)
Fixpoint de_mapValues (steps : nat) (buf : Bytes) (v : Value) : result value :=
  if (blen buf =? 0)%nat then Ok (val v)
  else
    match steps with
    | O => OutOfFuel
    | S steps' =>
        let '(_, wiretype, n) := protowire.ConsumeTag (data buf) in
        if n <=? 0 then Err "bad protobuf field key"
        else
          '(buf', x) <- de_value_body wiretype (slice_from buf (Z.to_nat n)) (Some v) ;;
          match x with
          | Some x =>
              de_mapValues steps' buf' (mkValue (Type_ v) x true false false)
          | None => IllTyped
          end
    end.

(** [de.mapEntry]: handles the entry k,v of a map[K]V. *)
Definition de_mapEntry_body (slval : Value) (vb : Bytes) : result value :=
  match Key (Type_ slval), Elem (Type_ slval), val slval with
  | Some kt, Some et, VMap entries =>
      let '(_, wiretype, n) := protowire.ConsumeTag (data vb) in
      if n <=? 0 then Err "bad protobuf field key"
      else
        '(buf, k) <- de_value_body wiretype (slice_from vb (Z.to_nat n)) (Some (newVar kt)) ;;
        v <- de_mapValues (blen buf) buf (newVar et) ;;
        match k with
        | Some k => m <- SetMapIndex kt entries k v ;; Ok (VMap m)
        | None => IllTyped
        end
  | _, _, _ => IllTyped
  end.

(** One turn of the loop of [de.message]. *)
Definition de_messageStep (fields : list ProtoField) (s : loopState)
    : result loopState :=
  let buf := l_buf s in
  let sval := l_sval s in
  (* Parse the key *)
  let '(fieldnum, wiretype, n) := protowire.ConsumeTag (data buf) in
  if n <=? 0 then Err "bad protobuf field key"
  else
    let buf := slice_from buf (Z.to_nat n) in
    (* Lookup the corresponding struct field. *)
    let fieldi := advance fields (l_fieldi s) fieldnum in
    '(sval, field) <-
      match nth_error fields fieldi with
      | Some pf =>
          if ID pf =? fieldnum then
            sval' <- allocPath sval [] (Index pf) ;;
            match Index pf with
            | [] => Ok (sval', None)
            | _ => field <- FieldByIndex sval' (Index pf) ;;
                   Ok (sval', Some (Index pf, field))
            end
          else Ok (sval, None)
      | None => Ok (sval, None)
      end ;;
    (* Decode the field's value *)
    match de_value_body wiretype buf (option_map snd field) with
    | Ok (rem, x) =>
        sval' <-
          match field, x with
          | Some (index, _), Some x =>
              c <- SetByIndex (Type_ sval) (val sval) index x ;;
              Ok (mkValue (Type_ sval) c (flagAddr sval)
                    (flagStickyRO sval) (flagEmbedRO sval))
          | _, _ => Ok sval
          end ;;
        Ok (mkLoop fieldi rem sval')
    | Err e => Err (wrapFieldError fields fieldi e)
    | Panic m => Panic m
    | OutOfFuel => OutOfFuel
    | IllTyped => IllTyped
    end.

Fixpoint de_messageLoop (steps : nat) (fields : list ProtoField) (s : loopState)
    : result value :=
  if (blen (l_buf s) =? 0)%nat then Ok (val (l_sval s))
  else
    match steps with
    | O => OutOfFuel
    | S steps' =>
        s' <- de_messageStep fields s ;;
        de_messageLoop steps' fields s'
    end.

(** [de.message]: decode a Protocol Buffers message into a Go struct.
    Returns the new contents of [sval]. *)
Definition de_message_body (buf : Bytes) (sval : Value) : result value :=
  if negb (Kind_eqb (kind (Type_ sval)) Struct) then Err "not a struct"
  else
    match fieldsOf (Type_ sval) with
    | None => IllTyped
    | Some fs =>
        let sval :=
          match val sval with
          | VStruct xs =>
              mkValue (Type_ sval) (VStruct (resetFields sval fs xs))
                (flagAddr sval) (flagStickyRO sval) (flagEmbedRO sval)
          | _ => sval
          end in
        (* Decode all the fields *)
        fields <- protoFields (Type_ sval) ;;
        de_messageLoop (blen buf) fields (mkLoop 0 buf sval)
    end.

End Body.

(** [recover()] in the deferred function of [DecodeWithConstructors]. *)
Definition recoverDecode {A} (r : result A) : result A :=
  match r with
  | Panic m => Err m
  | _ => r
  end.

Section Put.

Variable recp : Constructors -> Z -> Value -> Z -> Bytes -> result value.

(** [DecodeWithConstructors] over the recursive call.  The argument is
    an interface value ([None] is [nil]); the result is the argument as
    the call leaves it. *)
Definition DecodeWith_body (buf : Bytes) (structPtr : option (type * value))
    (cons : Constructors) : result (option (type * value)) :=
  recoverDecode
    match structPtr with
    | None => Ok None
    | Some (t, x) =>
        match UnmarshalBinary (methods t) with
        | Some bu => x' <- bu (data buf) x ;; Ok (Some (t, x'))
        | None =>
            (* if its NOT a pointer, it is bad return an error *)
            if negb (Kind_eqb (kind t) Ptr)
            then Err "decode has been given a non pointer type"
            else
              match Elem t, x with
              | Some e, VPtr (Some y) =>
                  y' <- de_message_body recp cons buf (Deref e y) ;;
                  Ok (Some (t, VPtr (Some y')))
              | Some _, VPtr None => Err "not a struct"
              | _, _ => IllTyped
              end
        end
    end.

(** [de.putvalue]; the result is the new contents of [val].  The tests
    for a 32-bit machine are left out: [int] and [uint] have 64 bits. *)
Definition de_putvalue_body (nm : Constructors) (wiretype : Z) (val : Value)
    (v : Z) (vb : Bytes) : result value :=
  (* If val is not settable, simply ignore and discard the field's
     content. *)
  if negb (CanSet val) then Ok (reflect.val val)
  else
    let t := Type_ val in
    match kind t with
    | Bool =>
        if negb (wiretype =? protowire.VarintType)
        then Err ("bad wiretype for bool: " ++ itoa wiretype)
        else if v >? 1 then Err "invalid bool value"
        else Ok (VBool (negb (v =? 0)))
    | Int | Int32 | Int64 =>
        sv <- de_decodeSignedInt wiretype v ;;
        Ok (setInt (kind t) sv)
    | Uint | Uint32 | Uint64 =>
        if wiretype =? protowire.VarintType then Ok (setUint (kind t) v)
        else if wiretype =? protowire.Fixed32Type then Ok (setUint (kind t) (wrap32 v))
        else if wiretype =? protowire.Fixed64Type then Ok (setUint (kind t) v)
        else Err "bad wiretype for uint"
    | Float32 =>
        if negb (wiretype =? protowire.Fixed32Type)
        then Err "bad wiretype for float32"
        else Ok (VFloat (quiet32 (wrap32 v)))
    | Float64 =>
        if negb (wiretype =? protowire.Fixed64Type)
        then Err "bad wiretype for float64"
        else Ok (VFloat v)
    | String =>
        if negb (wiretype =? protowire.BytesType)
        then Err "bad wiretype for string"
        else Ok (VString (data vb))
    | Struct =>
        (* Embedded message *)
        if type_eqb t timeType then
          sv <- de_decodeSignedInt wiretype v ;;
          Ok (timeUnix (Z.quot sv 1000000000) (Z.rem sv 1000000000))
        else
          match UnmarshalBinary (methods (TPtr t)) with
          | Some enc =>
              r <- enc (data vb) (VPtr (Some (reflect.val val))) ;;
              match r with
              | VPtr (Some x) => Ok x
              | _ => IllTyped
              end
          | None =>
              if negb (wiretype =? 2)
              then Err "bad wiretype for embedded message"
              else de_message_body recp nm vb val
          end
    | Ptr =>
        (* Optional field: instantiate pointer's element type. *)
        match Elem t, reflect.val val with
        | Some e, VPtr p =>
            p' <- match p with
                  | Some y => Ok (Some y)
                  | None =>
                      '(dt, dv) <- de_instantiate nm e ;;
                      if type_eqb dt (TPtr e) then
                        match dv with
                        | VPtr q => Ok q
                        | _ => IllTyped
                        end
                      else Panic ("reflect.Set: value of type " ++ typeString dt
                                    ++ " is not assignable to type " ++ typeString t)
                  end ;;
            match p' with
            | Some y =>
                x <- recp nm wiretype (mkValue e y true false false) v vb ;;
                Ok (VPtr (Some x))
            | None => Ok (VPtr None)
            end
        | _, _ => IllTyped
        end
    | Slice | Array =>
        (* Repeated field or byte-slice *)
        if negb (wiretype =? protowire.BytesType)
        then Err "bad wiretype for repeated field"
        else de_slice_body recp nm val vb
    | Map =>
        if negb (wiretype =? protowire.BytesType)
        then Err "bad wiretype for repeated field"
        else de_mapEntry_body recp nm val vb
    | Interface =>
        match reflect.val val with
        | VInterface dyn =>
            (* Abstract field: instantiate via dynamic constructor. *)
            '(d, data') <-
              match dyn with
              | Some d => Ok (d, vb)
              | None =>
                  let g :=
                    if (GeneratorIDLen <? blen vb)%nat
                    then generators_get generators (firstn GeneratorIDLen (data vb))
                    else None in
                  '(d, data') <-
                    match g with
                    | None =>
                        (* Backwards compatible usage of the default
                           constructors *)
                        d <- de_instantiate nm t ;; Ok (d, vb)
                    | Some g => Ok (g, slice_from vb GeneratorIDLen)
                    end ;;
                  (* val.Set panics on a value that does not implement
                     the interface *)
                  if assignable (fst d) t then Ok (d, data')
                  else Panic ("reflect.Set: value of type " ++ typeString (fst d)
                                ++ " is not assignable to type " ++ typeString t)
              end ;;
            let '(dt, dv) := d in
            (* If the object support self-decoding, use that. *)
            match UnmarshalBinary (methods dt) with
            | Some enc =>
                if negb (wiretype =? protowire.BytesType)
                then Err "bad wiretype for bytes"
                else dv' <- enc (data data') dv ;;
                     Ok (VInterface (Some (dt, dv')))
            | None =>
                (* Decode into the object the interface points to. *)
                r <- DecodeWith_body vb (Some (dt, dv)) [] ;;
                Ok (VInterface r)
            end
        | _ => IllTyped
        end
    | k => Panic ("unsupported value kind " ++ KindString k)
    end.

End Put.

Fixpoint de_putvalue (fuel : nat) (nm : Constructors) (wiretype : Z)
    (val : Value) (v : Z) (vb : Bytes) : result value :=
  match fuel with
  | O => OutOfFuel
  | S fuel' => de_putvalue_body (de_putvalue fuel') nm wiretype val v vb
  end.

Definition de_value (fuel : nat) (nm : Constructors) (wiretype : Z)
    (buf : Bytes) (val : option Value) : result (Bytes * option value) :=
  de_value_body (de_putvalue fuel) nm wiretype buf val.

Definition de_message (fuel : nat) (nm : Constructors) (buf : Bytes)
    (sval : Value) : result value :=
  de_message_body (de_putvalue fuel) nm buf sval.

(** [DecodeWithConstructors] is like [Decode], but you can pass a map of
    constructors with which to instantiate interface types.  [fuel]
    bounds the nesting of the values being decoded. *)
Definition DecodeWithConstructors (fuel : nat) (buf : Bytes)
    (structPtr : option (type * value)) (cons : Constructors)
    : result (option (type * value)) :=
  DecodeWith_body (de_putvalue fuel) buf structPtr cons.

(** [Decode] a protocol buffer into a Go struct. *)
Definition Decode (fuel : nat) (buf : Bytes) (structPtr : option (type * value))
    : result (option (type * value)) :=
  DecodeWithConstructors fuel buf structPtr [].

End Decoder.

Definition noM : type -> MethodSet := fun _ => noMethods.



(** ** Notions used by the statements *)

(** The caches a program can hold: the empty one, and what any call of
    [ProtoFields] leaves. *)
Inductive reachable : Cache -> Prop :=
| reach_empty : reachable []
| reach_call (c : Cache) (t : type) :
    reachable c -> reachable (snd (ProtoFields c t)).

(** Two entries of a resolved list carry one field number. *)
Definition reusesNumber (idx : list ProtoField) : Prop :=
  exists (i j : nat) (a b : ProtoField),
    i <> j /\ nth_error idx i = Some a /\ nth_error idx j = Some b
    /\ ID a = ID b.

(** The signed integer kinds the codec knows. *)
Definition signedKind (k : Kind) : bool :=
  match k with
  | Int | Int32 | Int64 => true
  | _ => false
  end.

(** The types of the test of an interface of unknown type: a struct that
    marshals itself to 01 02 03, fails to unmarshal and has the tag
    "aaaaaaaa". *)
Definition dummyStruct : type := TNamed "protobuf_test.dummyStruct" (TStruct []).
Definition dummyInterface : type := TInterface "protobuf_test.dummyInterface".
Definition dummyWrapper : type :=
  TNamed "protobuf_test.dummyWrapper"
    (TStruct [ mkField "D" "" dummyInterface "" false ]).

Definition dummyID : list Z := [97; 97; 97; 97; 97; 97; 97; 97].

Definition dummyMethods (t : type) : MethodSet :=
  if type_eqb t (TPtr dummyStruct) then
    mkMethodSet (Some (fun _ => Ok [1; 2; 3]))
                (Some (fun _ _ => Err "fail to unmarshal"))
                (Some (fun _ => dummyID))
                (fun i => type_eqb i dummyInterface || type_eqb i emptyInterface)
  else noMethods.

(** [&dummyStruct{}] *)
Definition newDummy : type * value := (TPtr dummyStruct, VPtr (Some (VStruct []))).

(** [&dummyWrapper{D: &dummyStruct{}}] and [&dummyWrapper{}] *)
Definition dummyWrapped : option (type * value) :=
  Some (TPtr dummyWrapper, VPtr (Some (VStruct [VInterface (Some newDummy)]))).
Definition dummyFresh : option (type * value) :=
  Some (TPtr dummyWrapper, VPtr (Some (VStruct [VInterface None]))).

(** The per-wire-type consumption of [de.value] when there is no
    destination: the rest of the buffer after the payload. *)
Definition skipPayload (wiretype : Z) (buf : Bytes) : result Bytes :=
  '(rem, _) <- de_value_body (fun _ _ _ _ _ => IllTyped) [] wiretype buf None ;;
  Ok rem.

(** A struct of two [int32] fields, numbered 1 and 2, and one of a single
    field. *)
Definition pairStruct : type :=
  TNamed "pair" (TStruct [ mkField "A" "" int32Type "" false;
                           mkField "B" "" int32Type "" false ]).

Definition singleStruct : type :=
  TNamed "single" (TStruct [ mkField "A" "" int32Type "" false ]).

(** [Decode(buf, &dst)] for a struct [dst] of type [t]; the result is the
    struct after the call. *)
Definition decodeInto (fuel : nat) (buf : list Z) (t : type) (dst : value)
    : result value :=
  r <- Decode noM [] fuel (mkBytes buf (length buf)) (Some (TPtr t, VPtr (Some dst))) ;;
  match r with
  | Some (_, VPtr (Some x)) => Ok x
  | _ => IllTyped
  end.

(** ** Plain structs: the fragment of the round trip *)

(** The entries that positional numbering gives to the fields [fs], the
    first of which stands at position [i], when the counter holds [id]. *)
Fixpoint defaultEntries (fs : list StructField) (i : nat) (id : Z)
    : list ProtoField :=
  match fs with
  | [] => []
  | f :: fs' => mkProtoField (id + 1) "" [i] f :: defaultEntries fs' (S i) (id + 1)
  end.

(** A field without a tag that is not an embedded member. *)
Definition untagged (f : StructField) : bool :=
  negb (Anonymous f) && String.eqb (Tag f) "".

(** The types whose values are written as one scalar field. *)
Definition scalarTypes : list type :=
  [ boolType; intType; int32Type; int64Type; uintType; uint32Type; uint64Type;
    sfixed32type; sfixed64type; ufixed32type; ufixed64type;
    float32Type; float64Type; stringType; bytesType ].

Definition isScalar (t : type) : bool := existsb (type_eqb t) scalarTypes.

Definition inRange (lo hi z : Z) : bool := (lo <=? z) && (z <? hi).

(** The contents a variable of a scalar type can hold. *)
Definition fitsScalar (t : type) (x : value) : bool :=
  match kind t, x with
  | Bool, VBool _ => true
  | (Int | Int64), VInt i => inRange (- 2 ^ 63) (2 ^ 63) i
  | Int32, VInt i => inRange (- 2 ^ 31) (2 ^ 31) i
  | (Uint | Uint64), VUint u => inRange 0 (2 ^ 64) u
  | Uint32, VUint u => inRange 0 (2 ^ 32) u
  | Float32, VFloat b => inRange 0 (2 ^ 32) b
  | Float64, VFloat b => inRange 0 (2 ^ 64) b
  | String, VString s => Z.of_nat (length s) <? 2 ^ 63
  | Slice, VBytes b => Z.of_nat (blen b) <? 2 ^ 63
  | _, _ => false
  end.

(** An exported, untagged field of a scalar type. *)
Definition plainField (f : StructField) : bool :=
  IsExported f && untagged f && isScalar (Typ f).

(** The contents of a struct of plain fields. *)
Fixpoint fitsFields (fs : list StructField) (xs : list value) : bool :=
  match fs, xs with
  | [], [] => true
  | f :: fs', x :: xs' => fitsScalar (Typ f) x && fitsFields fs' xs'
  | _, _ => false
  end.

(** What a variable of type [t] holds once the decoder has stored [x] in
    it.  A decoded byte slice has no spare capacity (equality of Go values
    does not look at capacities); a [float32] has gone through [float64],
    which quiets a signalling NaN. *)
Definition landed (t : type) (x : value) : value :=
  match x with
  | VBytes b => VBytes (mkBytes (data b) (blen b))
  | VFloat b => if Kind_eqb (kind t) Float32 then VFloat (quiet32 b) else x
  | _ => x
  end.

Fixpoint landedFields (fs : list StructField) (xs : list value) : list value :=
  match fs, xs with
  | f :: fs', x :: xs' => landed (Typ f) x :: landedFields fs' xs'
  | _, _ => []
  end.

(** The wire type and the payload of a scalar field. *)
Definition scalarWire (t : type) : Z :=
  if type_eqb t sfixed32type || type_eqb t ufixed32type || type_eqb t float32Type
  then protowire.Fixed32Type
  else if type_eqb t sfixed64type || type_eqb t ufixed64type || type_eqb t float64Type
  then protowire.Fixed64Type
  else if type_eqb t stringType || type_eqb t bytesType
  then protowire.BytesType
  else protowire.VarintType.

Definition scalarPayload (t : type) (x : value) : list Z :=
  match x with
  | VBool b => en_uvarint (boolBit b)
  | VInt i =>
      if type_eqb t sfixed32type then en_u32 (wrap32 i)
      else if type_eqb t sfixed64type then en_u64 (wrap64 i)
      else en_svarint i
  | VUint u =>
      if type_eqb t ufixed32type then en_u32 (wrap32 u)
      else if type_eqb t ufixed64type then en_u64 u
      else en_uvarint u
  | VFloat b => if type_eqb t float32Type then en_u32 (quiet32 b) else en_u64 b
  | VString s => en_uvarint (lenZ s) ++ s
  | VBytes b => en_uvarint (lenZ (data b)) ++ data b
  | _ => []
  end.

(** The records of a struct of plain fields whose first field has the
    number [id + 1]. *)
Fixpoint plainRecords (fs : list StructField) (xs : list value) (id : Z)
    : list Z :=
  match fs, xs with
  | f :: fs', x :: xs' =>
      (en_keyTag (id + 1) (scalarWire (Typ f)) ++ scalarPayload (Typ f) x)
        ++ plainRecords fs' xs' (id + 1)
  | _, _ => []
  end.

(** A struct of plain fields for the examples. *)
Definition sampleFields : list StructField :=
  [ mkField "A" "" int32Type "" false;
    mkField "S" "" stringType "" false;
    mkField "B" "" bytesType "" false;
    mkField "F" "" sfixed64type "" false;
    mkField "T" "" boolType "" false;
    mkField "N" "" float32Type "" false ].

Definition sampleStruct : type := TNamed "sample" (TStruct sampleFields).

(** The last field holds the signalling NaN 0x7fa00000. *)
Definition sampleValue : list value :=
  [ VInt (-1); VString [104; 105]; VBytes (mkBytes [1; 2; 3] 8); VInt (-22);
    VBool true; VFloat 2141192192 ].

Definition sampleFilled : list value :=
  [ VInt 7; VString [120]; VBytes (mkBytes [9] 1); VInt 0; VBool false;
    VFloat 0 ].

(** A field that [en.message] and [de.message] treat as padding. *)
Definition paddingField (f : StructField) : bool :=
  negb (IsExported f) && untagged f.

(** A struct with a padding field between two exported ones, and a struct
    with none but padding. *)
Definition paddedStruct : type :=
  TNamed "padded" (TStruct [ mkField "Field1" "" int32Type "" false;
                             mkField "_" "protobuf_test" intType "" false;
                             mkField "Field3" "" int32Type "" false ]).

Definition privateStruct : type :=
  TNamed "Private" (TStruct [ mkField "a" "protobuf_test" intType "" false ]).

(** A struct whose tags give its second field the smaller number. *)
Definition swappedStruct : type :=
  TNamed "swapped" (TStruct [ mkField "A" "" int32Type "2" false;
                              mkField "B" "" int32Type "1" false ]).

(** The element types whose slices are written packed, in one
    length-delimited record. *)
Definition packedTypes : list type :=
  [ boolType; intType; int32Type; int64Type; uint32Type; uint64Type;
    sfixed32type; sfixed64type; ufixed32type; ufixed64type;
    float32Type; float64Type ].

Definition isPacked (t : type) : bool := existsb (type_eqb t) packedTypes.

(** The bytes of one element of a packed slice.  The loop of [slice] over
    a [[]float32] writes the bits of an element as they are. *)
Definition packedElem (t : type) (x : value) : list Z :=
  match x with
  | VFloat b => if type_eqb t float32Type then en_u32 b else en_u64 b
  | _ => scalarPayload t x
  end.

(** The payload of the packed record of a slice: the elements one after
    the other. *)
Definition packedPayload (t : type) (xs : list value) : list Z :=
  concat (map (packedElem t) xs).

(** The payload of the packed record of an array, which [sliceReflect]
    writes: a [float32] element goes through [float64]. *)
Definition arrayPayload (t : type) (xs : list value) : list Z :=
  concat (map (scalarPayload t) xs).

(** The four fixed-width integer types of the package. *)
Definition isFixed (t : type) : bool :=
  type_eqb t sfixed32type || type_eqb t sfixed64type
  || type_eqb t ufixed32type || type_eqb t ufixed64type.

(** The types a map key of scalar type can have: a slice is not
    comparable. *)
Definition isKey (t : type) : bool := isScalar t && negb (type_eqb t bytesType).

(** The entry message of a map with scalar keys and values: the key as
    field 1, the value as field 2. *)
Definition entryPayload (kt et : type) (k v : value) : list Z :=
  (en_keyTag 1 (scalarWire kt) ++ scalarPayload kt k)
  ++ (en_keyTag 2 (scalarWire et) ++ scalarPayload et v).

(** The number that a sequence of base-128 groups stands for, low group
    first: the low seven bits of each byte count. *)
Fixpoint base128 (bs : list Z) : Z :=
  match bs with
  | [] => 0
  | b :: r => b mod 128 + 128 * base128 r
  end.
(** * Properties *)

(** ** Literal encodings *)

(** C2.  An aggregate whose single field is an unsigned 32-bit integer of
    value 150 encodes to the three bytes 08 96 01: the tag of field 1 with
    the varint wire type, then the varint of 150.  This holds whatever the
    names of the type and of the field, and whatever generators are
    registered. *)
Theorem encode_uint32_150 :
  forall (generators : generatorRegistry) (tname fname : string),
    Encode noM generators
      (Some (TPtr (TNamed tname (TStruct [mkField fname "" uint32Type "" false])),
             VPtr (Some (VStruct [VUint 150]))))
    = Ok [0x08; 0x96; 0x01]
    /\ en_keyTag 1 protowire.VarintType = [0x08]
    /\ en_uvarint 150 = [0x96; 0x01].
Proof.
  intros generators tname fname.
  split; [reflexivity | split; reflexivity].
Qed.

(** ** Nil arguments *)

(** C10.  With a nil argument both entry points do nothing and succeed:
    [Encode(nil)] returns no bytes and no error, and [Decode(buf, nil)]
    and [DecodeWithConstructors(buf, nil, cons)] return no error for every
    buffer, well-formed or not, which is not read. *)
Theorem nil_argument_is_noop :
  forall (methods : type -> MethodSet) (generators : generatorRegistry),
    Encode methods generators None = Ok []
    /\ (forall fuel buf cons,
           DecodeWithConstructors methods generators fuel buf None cons = Ok None)
    /\ (forall fuel buf, Decode methods generators fuel buf None = Ok None).
Proof.
  intros methods generators.
  split; [reflexivity | split; intros; reflexivity].
Qed.

(** ** Type identity *)

Lemma Kind_eqb_eq (a b : Kind) : Kind_eqb a b = true -> a = b.
Proof. destruct a, b; simpl; congruence. Qed.

Lemma Kind_eqb_refl (a : Kind) : Kind_eqb a a = true.
Proof. destruct a; reflexivity. Qed.

Fixpoint type_eqb_eq (a b : type) {struct a} : type_eqb a b = true -> a = b
with field_eqb_eq (x y : StructField) {struct x} : field_eqb x y = true -> x = y.
Proof.
  - destruct a, b; simpl; try discriminate; intros H.
    + apply Kind_eqb_eq in H. congruence.
    + apply andb_prop in H as [Hn Hu].
      apply String.eqb_eq in Hn. apply type_eqb_eq in Hu. congruence.
    + f_equal. revert fields0 H.
      induction fields as [|f fs IH]; intros [|g gs] H; try discriminate.
      * reflexivity.
      * apply andb_prop in H as [Hf Hfs].
        apply field_eqb_eq in Hf. apply IH in Hfs. congruence.
    + apply type_eqb_eq in H. congruence.
    + apply type_eqb_eq in H. congruence.
    + apply andb_prop in H as [Hn He].
      apply Nat.eqb_eq in Hn. apply type_eqb_eq in He. congruence.
    + apply andb_prop in H as [Hk He].
      apply type_eqb_eq in Hk. apply type_eqb_eq in He. congruence.
    + apply String.eqb_eq in H. congruence.
    + reflexivity.
  - destruct x, y; simpl; intros H.
    repeat match goal with
           | H : _ && _ = true |- _ => apply andb_prop in H as [? ?]
           | H : String.eqb _ _ = true |- _ => apply String.eqb_eq in H
           | H : Bool.eqb _ _ = true |- _ => apply Bool.eqb_prop in H
           | H : type_eqb _ _ = true |- _ => apply type_eqb_eq in H
           end.
    congruence.
Qed.

(** ** The field resolver *)

Lemma fieldLoop_app rec (a b : list StructField) :
  forall i id,
    fieldLoop rec (a ++ b) i id =
    ('(ra, id1) <- fieldLoop rec a i id ;;
     '(rb, id2) <- fieldLoop rec b (i + length a)%nat id1 ;;
     Ok (ra ++ rb, id2)).
Proof.
  induction a as [|f a IH]; intros i id; simpl.
  - rewrite Nat.add_0_r. destruct (fieldLoop rec b i id) as [[rb id2]| | | |]; reflexivity.
  - destruct (ParseTag f) as [tid name].
    replace (i + S (length a))%nat with (S i + length a)%nat by lia.
    destruct (Anonymous f).
    + destruct (rec _ _) as [[inner id3]| | | |]; simpl; try reflexivity.
      rewrite IH.
      destruct (fieldLoop rec a (S i) id3) as [[ra id4]| | | |]; simpl; try reflexivity.
      destruct (fieldLoop rec b _ id4) as [[rb id5]| | | |]; simpl; try reflexivity.
      now rewrite app_assoc.
    + rewrite IH.
      destruct (fieldLoop rec a (S i) _) as [[ra id4]| | | |]; simpl; try reflexivity.
      destruct (fieldLoop rec b _ id4) as [[rb id5]| | | |]; simpl; reflexivity.
Qed.

(** Arithmetic modulo a power of two, by the equations of division. *)
Ltac pow2 :=
  change (2 ^ 64) with 18446744073709551616 in *;
  change (2 ^ 63) with 9223372036854775808 in *;
  change (2 ^ 32) with 4294967296 in *;
  change (2 ^ 31) with 2147483648 in *.

Ltac zmod :=
  unfold to_int64, to_int32, wrap64, wrap32 in *; pow2;
  repeat match goal with
         | |- context [?a <? ?b] => destruct (Z.ltb_spec a b)
         end;
  Z.div_mod_to_equations; lia.

Lemma to_int64_small (z : Z) : - 2 ^ 63 <= z < 2 ^ 63 -> to_int64 z = z.
Proof. intros H. zmod. Qed.

(** C4.  An anonymous member is flattened.  With [c] the counter after
    the member has been counted (one more than before, or the number of its
    tag), the embedded type is resolved from the counter [c - 1], so that
    an untagged member's inner numbering goes on from the parent's current
    position; and every inner entry gets the member's position put before
    its path.  For the outer struct [{A int32; *Inner}] with
    [Inner {A; B `protobuf:"10"`; C}] the entries are (1,[0]), (2,[1,0]),
    (10,[1,1]) and (11,[1,2]). *)
Theorem embedded_member_is_flattened :
  (forall fs_pre f fs_post id0 id1 id2 id3 e_pre e_in e_post,
      Anonymous f = true ->
      fieldLoop innerFieldIndexes fs_pre 0 id0 = Ok (e_pre, id1) ->
      let c := if fst (ParseTag f) =? 0 then id1 + 1 else fst (ParseTag f) in
      - 2 ^ 63 < c < 2 ^ 63 ->
      innerFieldIndexes (c - 1) (Typ f) = Ok (e_in, id2) ->
      fieldLoop innerFieldIndexes fs_post (S (length fs_pre)) id2 = Ok (e_post, id3) ->
      innerFieldIndexes id0 (TStruct (fs_pre ++ f :: fs_post))
      = Ok (e_pre ++ map (prependIndex (length fs_pre)) e_in ++ e_post, id3))
  /\ entries (protoFields TestNestedOuter)
     = [ (1, "", [0%nat]); (2, "", [1%nat; 0%nat]);
         (10, "", [1%nat; 1%nat]); (11, "renamed", [1%nat; 2%nat]) ].
Proof.
  split; [|reflexivity].
  intros fs_pre f fs_post id0 id1 id2 id3 e_pre e_in e_post Hanon Hpre c Hc Hin Hpost.
  simpl. rewrite fieldLoop_app, Hpre. simpl.
  destruct (ParseTag f) as [tid name] eqn:Htag. simpl in c.
  rewrite Hanon.
  assert (Hroll : to_int64 ((if tid =? 0 then to_int64 (id1 + 1) else tid) - 1) = c - 1).
  { subst c. destruct (tid =? 0).
    - rewrite (@to_int64_small (id1 + 1)) by lia. apply to_int64_small. lia.
    - apply to_int64_small. lia. }
  rewrite Hroll.
  replace (match f with mkField _ _ ft _ _ => ft end) with (Typ f) by (destruct f; reflexivity).
  rewrite Hin. simpl.
  replace (S (0 + length fs_pre)) with (S (length fs_pre)) by lia.
  rewrite Hpost. simpl. reflexivity.
Qed.

Lemma embedded_member_is_flattened_witness :
  innerFieldIndexes 0
    (TStruct ([mkField "A" "" int32Type "" false]
                ++ mkField "TestNestedInner" "" (TPtr TestNestedInner) "" true :: []))
  = Ok ([mkProtoField 1 "" [0%nat] (mkField "A" "" int32Type "" false)]
          ++ map (prependIndex 1)
               [ mkProtoField 2 "" [0%nat] (mkField "A" "" int32Type "" false);
                 mkProtoField 10 "" [1%nat] (mkField "B" "" int32Type "10" false);
                 mkProtoField 11 "renamed" [2%nat] (mkField "C" "" int32Type "renamed" false) ]
          ++ [], 11).
Proof.
  apply (proj1 embedded_member_is_flattened
           [mkField "A" "" int32Type "" false]
           (mkField "TestNestedInner" "" (TPtr TestNestedInner) "" true)
           [] 0 1 11 11).
  - reflexivity.
  - reflexivity.
  - simpl. lia.
  - reflexivity.
  - reflexivity.
Defined.

Lemma existsb_eqb_In (x : Z) (l : list Z) :
  existsb (Z.eqb x) l = true <-> In x l.
Proof.
  rewrite existsb_exists. split.
  - intros [y [Hy Heq]]. apply Z.eqb_eq in Heq. now subst.
  - intros H. exists x. split; [assumption | apply Z.eqb_refl].
Qed.

(** The scan for a reused number finds nothing exactly when the numbers
    are pairwise distinct and none was seen before. *)
Lemma firstReused_None (idx : list ProtoField) :
  forall seen,
    firstReused seen idx = None ->
    NoDup (map ID idx) /\ (forall a, In a idx -> ~ In (ID a) seen).
Proof.
  induction idx as [|p idx IH]; intros seen H; simpl in *.
  - split; [constructor | intros a []].
  - destruct (existsb (Z.eqb (ID p)) seen) eqn:Hseen; [discriminate|].
    apply IH in H as [Hnd Hfresh].
    assert (Hp : ~ In (ID p) seen).
    { intros Hin. apply existsb_eqb_In in Hin. congruence. }
    split.
    + constructor; [|assumption].
      intros Hin. apply in_map_iff in Hin as [a [Ha Hin]].
      apply (Hfresh a Hin). left. now symmetry.
    + intros a [<-|Hin]; [assumption|].
      intros Hs. apply (Hfresh a Hin). now right.
Qed.

Lemma reusesNumber_not_NoDup (idx : list ProtoField) :
  reusesNumber idx -> ~ NoDup (map ID idx).
Proof.
  intros (i & j & a & b & Hij & Ha & Hb & Hab) Hnd.
  apply Hij.
  apply (proj1 (NoDup_nth_error (map ID idx)) Hnd).
  - apply nth_error_Some. rewrite nth_error_map, Ha. discriminate.
  - rewrite !nth_error_map, Ha, Hb. simpl. congruence.
Qed.

Lemma protoFields_reused (t : type) idx n :
  innerFieldIndexes 0 t = Ok (idx, n) ->
  reusesNumber idx ->
  exists k, protoFields t
            = Panic ("protobuf ID " ++ itoa k ++ " reused in " ++ qualifiedName t).
Proof.
  intros Hidx Hdup. unfold protoFields. rewrite Hidx. simpl.
  destruct (firstReused [] idx) as [k|] eqn:Hscan.
  - now exists k.
  - apply firstReused_None in Hscan as [Hnd _].
    now apply reusesNumber_not_NoDup in Hdup.
Qed.

(** What the cache holds for a type is what resolving it gives. *)
Lemma reachable_sound (c : Cache) :
  reachable c ->
  forall t idx, cacheGet c t = Some idx -> protoFields t = Ok idx.
Proof.
  induction 1 as [|c t0 Hc IH]; intros t idx Hget.
  - discriminate.
  - unfold ProtoFields in Hget.
    destruct (cacheGet c t0) as [idx0|] eqn:Hhit; simpl in Hget.
    + now apply IH.
    + destruct (protoFields t0) as [idx0| | | |] eqn:Hres; simpl in Hget;
        try now apply IH.
      destruct (type_eqb t0 t) eqn:Heq.
      * apply type_eqb_eq in Heq. congruence.
      * now apply IH.
Qed.

(** C3.  A type with two entries of one field number, entries reached
    through embedded members included, cannot be resolved: whatever the
    cache holds when [ProtoFields] is called, on the first call as on every
    later one, the call panics (it does not return an error) and leaves the
    cache as it was, so that the next call meets the same defect. *)
Theorem duplicate_number_panics :
  forall (c : Cache) (t : type) (idx : list ProtoField) (n : Z),
    reachable c ->
    innerFieldIndexes 0 t = Ok (idx, n) ->
    reusesNumber idx ->
    exists k,
      ProtoFields c t
      = (Panic ("protobuf ID " ++ itoa k ++ " reused in " ++ qualifiedName t), c)
      /\ reachable (snd (ProtoFields c t))
      /\ cacheGet c t = None.
Proof.
  intros c t idx n Hc Hidx Hdup.
  destruct (protoFields_reused t Hidx Hdup) as [k Hk].
  exists k.
  assert (Hmiss : cacheGet c t = None).
  { destruct (cacheGet c t) as [idx'|] eqn:Hget; [|reflexivity].
    apply (reachable_sound Hc) in Hget. congruence. }
  unfold ProtoFields. rewrite Hmiss, Hk. simpl.
  repeat split; assumption.
Qed.

Lemma duplicate_number_panics_witness :
  exists k,
    ProtoFields [] (TPtr TestDuplicateID)
    = (Panic ("protobuf ID " ++ itoa k ++ " reused in " ++ qualifiedName (TPtr TestDuplicateID)), [])
    /\ reachable (snd (ProtoFields [] (TPtr TestDuplicateID)))
    /\ cacheGet [] (TPtr TestDuplicateID) = None.
Proof.
  apply (@duplicate_number_panics [] (TPtr TestDuplicateID)
           [ mkProtoField 1 "" [0%nat] (mkField "A" "" int32Type "1" false);
             mkProtoField 1 "" [1%nat] (mkField "B" "" int32Type "1" false) ] 1).
  - constructor.
  - reflexivity.
  - exists 0%nat, 1%nat.
    exists (mkProtoField 1 "" [0%nat] (mkField "A" "" int32Type "1" false)).
    exists (mkProtoField 1 "" [1%nat] (mkField "B" "" int32Type "1" false)).
    repeat split. discriminate.
Defined.

(** ** Signed integers *)

Lemma type_eqb_kind (a b : type) : kind a <> kind b -> type_eqb a b = false.
Proof.
  intros Hk. destruct (type_eqb a b) eqn:E; [|reflexivity].
  apply type_eqb_eq in E. now subst.
Qed.

Lemma wrap64_idem (z : Z) : wrap64 (wrap64 z) = wrap64 z.
Proof. unfold wrap64. apply Z.mod_mod. pow2. lia. Qed.

Lemma to_int32_to_int64 (z : Z) : to_int32 (to_int64 z) = to_int32 z.
Proof. zmod. Qed.

Lemma to_int64_to_int32 (z : Z) : to_int64 (to_int32 z) = to_int32 z.
Proof. zmod. Qed.

Lemma to_int64_idem (z : Z) : to_int64 (to_int64 z) = to_int64 z.
Proof. zmod. Qed.

Lemma to_int32_idem (z : Z) : to_int32 (to_int32 z) = to_int32 z.
Proof. zmod. Qed.

Lemma en_value_S methods generators fuel key v :
  en_value methods generators (S fuel) key v
  = en_value_body methods generators (en_value methods generators fuel) key v.
Proof. reflexivity. Qed.

Lemma de_putvalue_S methods generators fuel nm wiretype val v vb :
  de_putvalue methods generators (S fuel) nm wiretype val v vb
  = de_putvalue_body methods generators (de_putvalue methods generators fuel)
      nm wiretype val v vb.
Proof. reflexivity. Qed.

(** The signed kinds take the varint branch of [en.value]. *)
Lemma en_value_signed methods generators recv key (v : Value) i :
  signedKind (kind (Type_ v)) = true ->
  type_eqb (Type_ v) sfixed32type = false ->
  type_eqb (Type_ v) sfixed64type = false ->
  val v = VInt i ->
  en_value_body methods generators recv key v
  = Ok (en_keyTag key protowire.VarintType ++ en_svarint i).
Proof.
  intros Hk H32 H64 Hv.
  unfold en_value_body, getInt. rewrite Hv, H32, H64.
  rewrite (@type_eqb_kind (Type_ v) boolType)
    by (simpl; destruct (kind (Type_ v)); discriminate).
  destruct (type_eqb (Type_ v) intType || type_eqb (Type_ v) int32Type
            || type_eqb (Type_ v) int64Type); [reflexivity|].
  rewrite (@type_eqb_kind (Type_ v) timeType)
    by (simpl; destruct (kind (Type_ v)); discriminate).
  rewrite (@type_eqb_kind (Type_ v) uintType)
    by (simpl; destruct (kind (Type_ v)); discriminate).
  rewrite (@type_eqb_kind (Type_ v) uint32Type)
    by (simpl; destruct (kind (Type_ v)); discriminate).
  rewrite (@type_eqb_kind (Type_ v) uint64Type)
    by (simpl; destruct (kind (Type_ v)); discriminate).
  rewrite (@type_eqb_kind (Type_ v) ufixed32type)
    by (simpl; destruct (kind (Type_ v)); discriminate).
  rewrite (@type_eqb_kind (Type_ v) ufixed64type)
    by (simpl; destruct (kind (Type_ v)); discriminate).
  rewrite (@type_eqb_kind (Type_ v) float32Type)
    by (simpl; destruct (kind (Type_ v)); discriminate).
  rewrite (@type_eqb_kind (Type_ v) float64Type)
    by (simpl; destruct (kind (Type_ v)); discriminate).
  rewrite (@type_eqb_kind (Type_ v) stringType)
    by (simpl; destruct (kind (Type_ v)); discriminate).
  simpl. destruct (kind (Type_ v)); try discriminate; reflexivity.
Qed.

(** ** The loop of the decoder *)

Lemma de_value_body_None recp nm wiretype buf :
  de_value_body recp nm wiretype buf None
  = (rem <- skipPayload wiretype buf ;; Ok (rem, None)).
Proof.
  unfold skipPayload, de_value_body.
  destruct (wiretype =? protowire.VarintType).
  { destruct (protowire.ConsumeVarint (data buf)) as [v n].
    destruct (n <=? 0); reflexivity. }
  destruct (wiretype =? protowire.Fixed32Type).
  { destruct (protowire.ConsumeFixed32 (data buf)) as [v n].
    destruct (n <=? 0); reflexivity. }
  destruct (wiretype =? protowire.Fixed64Type).
  { destruct (protowire.ConsumeFixed64 (data buf)) as [v n].
    destruct (n <=? 0); reflexivity. }
  destruct (wiretype =? protowire.BytesType).
  { destruct (protowire.ConsumeBytes buf) as [v n].
    destruct (n <=? 0); reflexivity. }
  reflexivity.
Qed.

Lemma skipn_cons_nth {A} (l : list A) :
  forall i x rest,
    skipn i l = x :: rest -> nth_error l i = Some x /\ skipn (S i) l = rest.
Proof.
  induction l as [|y l IH]; intros i x rest H.
  - destruct i; discriminate.
  - destruct i as [|i].
    + simpl in H. injection H as -> ->. split; reflexivity.
    + simpl in H. apply IH in H. exact H.
Qed.

Lemma skipn_nil_nth {A} (l : list A) :
  forall i, skipn i l = [] -> nth_error l i = None.
Proof.
  induction l as [|y l IH]; intros i H.
  - destruct i; reflexivity.
  - destruct i as [|i]; [discriminate|]. simpl in *. now apply IH.
Qed.

(** Where the cursor stops: not before where it was, and at an entry, if
    any, whose number is not below the one looked for. *)
Lemma advance_spec (fields : list ProtoField) (fieldnum : Z) :
  forall i,
    (i <= advance fields i fieldnum)%nat
    /\ (forall pf, nth_error fields (advance fields i fieldnum) = Some pf ->
                   fieldnum <= ID pf).
Proof.
  unfold advance. intros i.
  remember (skipn i fields) as rest eqn:Hrest.
  revert i Hrest.
  induction rest as [|f rest IH]; intros i Hrest; simpl.
  - split; [lia|]. intros pf Hpf.
    symmetry in Hrest. apply skipn_nil_nth in Hrest. congruence.
  - symmetry in Hrest. apply skipn_cons_nth in Hrest as [Hnth Hskip].
    destruct (Z.ltb_spec (ID f) fieldnum) as [Hlt|Hge].
    + destruct (IH (S i) (eq_sym Hskip)) as [Hle Hstop].
      split; [lia | exact Hstop].
    + split; [lia|]. intros pf Hpf. congruence.
Qed.

(** A cursor that stands at an entry of a number not below the one looked
    for, or past the last entry, stays. *)
Lemma advance_stays (fields : list ProtoField) (fieldnum : Z) (i : nat) :
  (forall pf, nth_error fields i = Some pf -> fieldnum <= ID pf) ->
  advance fields i fieldnum = i.
Proof.
  intros Hstop. unfold advance.
  destruct (skipn i fields) as [|f rest] eqn:Hrest; [reflexivity|].
  apply skipn_cons_nth in Hrest as [Hnth _]. simpl.
  destruct (Z.ltb_spec (ID f) fieldnum) as [Hlt|Hge]; [|reflexivity].
  specialize (Hstop f Hnth). lia.
Qed.

Ltac destruct_bind H :=
  match type of H with
  | context [bind ?X _] =>
      let E := fresh "E" in
      destruct X eqn:E; simpl in H; try discriminate H
  end.

(** The cursor after a turn of the loop. *)
Lemma de_messageStep_cursor recp nm fields s s' num wt k :
  protowire.ConsumeTag (data (l_buf s)) = (num, wt, k) ->
  de_messageStep recp nm fields s = Ok s' ->
  l_fieldi s' = advance fields (l_fieldi s) num.
Proof.
  intros Htag H. unfold de_messageStep in H. rewrite Htag in H.
  destruct (k <=? 0); [discriminate|].
  destruct_bind H.
  destruct a as [sval field].
  destruct (de_value_body recp nm wt _ _) as [[rem x]| | | |]; try discriminate.
  destruct_bind H.
  injection H as <-. reflexivity.
Qed.

(** A turn of the loop on a record that the lookup does not match: the
    payload is consumed and the struct stays as it is. *)
Lemma de_messageStep_unmatched recp nm fields s num wt k rem :
  protowire.ConsumeTag (data (l_buf s)) = (num, wt, k) ->
  0 < k ->
  (forall pf, nth_error fields (advance fields (l_fieldi s) num) = Some pf ->
              ID pf <> num) ->
  skipPayload wt (slice_from (l_buf s) (Z.to_nat k)) = Ok rem ->
  de_messageStep recp nm fields s
  = Ok (mkLoop (advance fields (l_fieldi s) num) rem (l_sval s)).
Proof.
  intros Htag Hk Hmiss Hskip. unfold de_messageStep. rewrite Htag.
  destruct (Z.leb_spec k 0) as [Hle|_]; [lia|].
  destruct (nth_error fields (advance fields (l_fieldi s) num)) as [pf|] eqn:Hnth.
  - destruct (Z.eqb_spec (ID pf) num) as [Heq|Hne].
    + exfalso. exact (Hmiss pf eq_refl Heq).
    + simpl. rewrite de_value_body_None, Hskip. reflexivity.
  - simpl. rewrite de_value_body_None, Hskip. reflexivity.
Qed.

(** C7.  The lookup of the destination field moves a cursor forward over
    the entries and never back.  Once a record of number [n1] has been
    handled, a record of a smaller number [n2] that follows is handled as
    an unknown one: its payload is consumed, the cursor stays and the
    struct is left as it is, whether or not an entry of number [n2]
    exists.  So the bytes of field 2 followed by those of field 1 leave
    field 1 of a two-field struct at zero, while the same records in
    ascending order set both. *)
Theorem cursor_discards_smaller_number :
  (forall recp nm fields s0 s1 n1 wt1 k1 n2 wt2 k2 rem,
      protowire.ConsumeTag (data (l_buf s0)) = (n1, wt1, k1) ->
      de_messageStep recp nm fields s0 = Ok s1 ->
      protowire.ConsumeTag (data (l_buf s1)) = (n2, wt2, k2) ->
      0 < k2 ->
      n2 < n1 ->
      skipPayload wt2 (slice_from (l_buf s1) (Z.to_nat k2)) = Ok rem ->
      (l_fieldi s0 <= l_fieldi s1)%nat
      /\ de_messageStep recp nm fields s1
         = Ok (mkLoop (l_fieldi s1) rem (l_sval s1)))
  /\ decodeInto 2 [0x10; 5; 0x08; 7] pairStruct (Zero pairStruct)
     = Ok (VStruct [VInt 0; VInt 5])
  /\ decodeInto 2 [0x08; 7; 0x10; 5] pairStruct (Zero pairStruct)
     = Ok (VStruct [VInt 7; VInt 5]).
Proof.
  split; [|split; reflexivity].
  intros recp nm fields s0 s1 n1 wt1 k1 n2 wt2 k2 rem
         Htag1 Hstep Htag2 Hk2 Hlt Hskip.
  pose proof (@de_messageStep_cursor recp nm fields s0 s1 n1 wt1 k1 Htag1 Hstep) as Hcur.
  destruct (advance_spec fields n1 (l_fieldi s0)) as [Hmono Hstop].
  rewrite <- Hcur in Hmono, Hstop.
  assert (Hstay : advance fields (l_fieldi s1) n2 = l_fieldi s1).
  { apply advance_stays. intros pf Hpf. specialize (Hstop pf Hpf). lia. }
  split; [exact Hmono|].
  rewrite (@de_messageStep_unmatched recp nm fields s1 n2 wt2 k2 rem Htag2 Hk2).
  - now rewrite Hstay.
  - rewrite Hstay. intros pf Hpf. specialize (Hstop pf Hpf). lia.
  - exact Hskip.
Qed.

Lemma cursor_discards_smaller_number_witness :
  (0 <= 1)%nat
  /\ de_messageStep (de_putvalue noM [] 1) []
       [ mkProtoField 1 "" [0%nat] (mkField "A" "" int32Type "" false);
         mkProtoField 2 "" [1%nat] (mkField "B" "" int32Type "" false) ]
       (mkLoop 1 (mkBytes [0x08; 7] 2)
          (Deref pairStruct (VStruct [VInt 0; VInt 5])))
     = Ok (mkLoop 1 (mkBytes [] 0) (Deref pairStruct (VStruct [VInt 0; VInt 5]))).
Proof.
  apply (proj1 cursor_discards_smaller_number (de_putvalue noM [] 1) []
           [ mkProtoField 1 "" [0%nat] (mkField "A" "" int32Type "" false);
             mkProtoField 2 "" [1%nat] (mkField "B" "" int32Type "" false) ]
           (mkLoop 0 (mkBytes [0x10; 5; 0x08; 7] 4)
              (Deref pairStruct (VStruct [VInt 0; VInt 0])))
           (mkLoop 1 (mkBytes [0x08; 7] 2)
              (Deref pairStruct (VStruct [VInt 0; VInt 5])))
           2 0 1 1 0 1 (mkBytes [] 0));
    (reflexivity || lia).
Defined.

Lemma ConsumeTag_nonempty (b : list Z) num wt k :
  protowire.ConsumeTag b = (num, wt, k) -> 0 < k -> b <> [].
Proof.
  intros H Hk ->. vm_compute in H. injection H as _ _ <-. lia.
Qed.

(** The cursor that has moved for the number [n] moves on for a number
    [m] not below [n] to where it would have come from where it was. *)
Lemma advance_advance (fields : list ProtoField) (n m : Z) :
  n <= m ->
  forall i, advance fields (advance fields i n) m = advance fields i m.
Proof.
  intros Hnm i. unfold advance at 2 3.
  remember (skipn i fields) as rest eqn:Hrest.
  revert i Hrest.
  induction rest as [|f rest IH]; intros i Hrest; cbn [advanceFrom].
  - unfold advance. rewrite <- Hrest. reflexivity.
  - symmetry in Hrest. pose proof Hrest as Hrest'.
    apply skipn_cons_nth in Hrest as [Hnth Hskip].
    destruct (Z.ltb_spec (ID f) n) as [Hlt|Hge].
    + destruct (Z.ltb_spec (ID f) m) as [_|Hge]; [|lia].
      apply IH. now symmetry.
    + unfold advance. rewrite Hrest'. reflexivity.
Qed.

(** A turn of the loop looks at the cursor only through the place it
    moves to. *)
Lemma de_messageStep_same_place recp nm fields c c' buf sval :
  (forall num wt k, protowire.ConsumeTag (data buf) = (num, wt, k) ->
                    0 < k -> advance fields c' num = advance fields c num) ->
  de_messageStep recp nm fields (mkLoop c' buf sval)
  = de_messageStep recp nm fields (mkLoop c buf sval).
Proof.
  intros H. unfold de_messageStep. cbn [l_buf l_sval l_fieldi].
  destruct (protowire.ConsumeTag (data buf)) as [[num wt] k] eqn:Htag.
  destruct (Z.leb_spec k 0) as [Hle|Hlt]; [reflexivity|].
  rewrite (H num wt k eq_refl Hlt). reflexivity.
Qed.

(** C6, as the code has it.  A well-formed record whose number is the
    number of no entry is consumed by the per-wire-type logic without an
    error, and the struct is left as it is; the cursor of the lookup moves
    as for any record.  When the record that follows does not bear a
    smaller number (or when nothing well formed follows), the loop goes on
    exactly as if the unknown record had not been there.  A record that
    follows with a smaller number is consumed and discarded, whether or
    not the struct has a field of that number. *)
Theorem unknown_field_is_skipped :
  forall recp nm fields s num wt k rem,
    protowire.ConsumeTag (data (l_buf s)) = (num, wt, k) ->
    0 < k ->
    (forall pf, In pf fields -> ID pf <> num) ->
    skipPayload wt (slice_from (l_buf s) (Z.to_nat k)) = Ok rem ->
    de_messageStep recp nm fields s
    = Ok (mkLoop (advance fields (l_fieldi s) num) rem (l_sval s))
    /\ (forall m wt' k',
          protowire.ConsumeTag (data rem) = (m, wt', k') ->
          k' <= 0 \/ num <= m ->
          forall steps,
            de_messageLoop recp nm (S steps) fields s
            = de_messageLoop recp nm steps fields
                (mkLoop (l_fieldi s) rem (l_sval s)))
    /\ (forall m wt' k' rem',
          protowire.ConsumeTag (data rem) = (m, wt', k') ->
          0 < k' ->
          m < num ->
          skipPayload wt' (slice_from rem (Z.to_nat k')) = Ok rem' ->
          de_messageStep recp nm fields
            (mkLoop (advance fields (l_fieldi s) num) rem (l_sval s))
          = Ok (mkLoop (advance fields (l_fieldi s) num) rem' (l_sval s))).
Proof.
  intros recp nm fields s num wt k rem Htag Hk Hmiss Hskip.
  assert (Hstep : de_messageStep recp nm fields s
                  = Ok (mkLoop (advance fields (l_fieldi s) num) rem (l_sval s))).
  { apply de_messageStep_unmatched with (wt := wt) (k := k); try assumption.
    intros pf Hpf. apply Hmiss. eapply nth_error_In. exact Hpf. }
  split; [exact Hstep|]. split.
  - intros m wt' k' Htag' Hnext steps.
    pose proof (@ConsumeTag_nonempty _ _ _ _ Htag Hk) as Hne.
    cbn [de_messageLoop]. unfold blen at 1.
    destruct (data (l_buf s)) as [|x xs] eqn:Hd; [congruence|].
    cbn [length Nat.eqb]. rewrite Hstep. cbn [bind].
    assert (Hsame : de_messageStep recp nm fields
                      (mkLoop (advance fields (l_fieldi s) num) rem (l_sval s))
                    = de_messageStep recp nm fields
                        (mkLoop (l_fieldi s) rem (l_sval s))).
    { apply de_messageStep_same_place. intros num' wt'' k'' Htag'' Hk''.
      rewrite Htag' in Htag''. injection Htag'' as <- <- <-.
      apply advance_advance. lia. }
    destruct steps as [|steps]; cbn [de_messageLoop l_buf]; [reflexivity|].
    rewrite Hsame. reflexivity.
  - intros m wt' k' rem' Htag' Hk' Hlt Hskip'.
    destruct (advance_spec fields num (l_fieldi s)) as [_ Hstop].
    assert (Hstay : advance fields (advance fields (l_fieldi s) num) m
                    = advance fields (l_fieldi s) num).
    { apply advance_stays. intros pf Hpf. specialize (Hstop pf Hpf). lia. }
    rewrite (@de_messageStep_unmatched recp nm fields
               (mkLoop (advance fields (l_fieldi s) num) rem (l_sval s))
               m wt' k' rem' Htag' Hk').
    + cbn [l_fieldi l_sval]. now rewrite Hstay.
    + cbn [l_fieldi]. rewrite Hstay. intros pf Hpf. specialize (Hstop pf Hpf). lia.
    + exact Hskip'.
Qed.

Lemma unknown_field_is_skipped_witness :
  de_messageStep (de_putvalue noM [] 1) []
    [ mkProtoField 1 "" [0%nat] (mkField "A" "" int32Type "" false);
      mkProtoField 3 "" [1%nat] (mkField "B" "" int32Type "3" false) ]
    (mkLoop 0 (mkBytes [0x10; 1; 0x18; 7] 4)
       (Deref pairStruct (VStruct [VInt 0; VInt 0])))
  = Ok (mkLoop
          (advance
             [ mkProtoField 1 "" [0%nat] (mkField "A" "" int32Type "" false);
               mkProtoField 3 "" [1%nat] (mkField "B" "" int32Type "3" false) ]
             0 2)
          (mkBytes [0x18; 7] 2)
          (Deref pairStruct (VStruct [VInt 0; VInt 0])))
  /\ (forall m wt' k',
        protowire.ConsumeTag (data (mkBytes [0x18; 7] 2)) = (m, wt', k') ->
        k' <= 0 \/ 2 <= m ->
        forall steps,
          de_messageLoop (de_putvalue noM [] 1) [] (S steps)
            [ mkProtoField 1 "" [0%nat] (mkField "A" "" int32Type "" false);
              mkProtoField 3 "" [1%nat] (mkField "B" "" int32Type "3" false) ]
            (mkLoop 0 (mkBytes [0x10; 1; 0x18; 7] 4)
               (Deref pairStruct (VStruct [VInt 0; VInt 0])))
          = de_messageLoop (de_putvalue noM [] 1) [] steps
              [ mkProtoField 1 "" [0%nat] (mkField "A" "" int32Type "" false);
                mkProtoField 3 "" [1%nat] (mkField "B" "" int32Type "3" false) ]
              (mkLoop 0 (mkBytes [0x18; 7] 2)
                 (Deref pairStruct (VStruct [VInt 0; VInt 0]))))
  /\ (forall m wt' k' rem',
        protowire.ConsumeTag (data (mkBytes [0x18; 7] 2)) = (m, wt', k') ->
        0 < k' ->
        m < 2 ->
        skipPayload wt' (slice_from (mkBytes [0x18; 7] 2) (Z.to_nat k')) = Ok rem' ->
        de_messageStep (de_putvalue noM [] 1) []
          [ mkProtoField 1 "" [0%nat] (mkField "A" "" int32Type "" false);
            mkProtoField 3 "" [1%nat] (mkField "B" "" int32Type "3" false) ]
          (mkLoop
             (advance
                [ mkProtoField 1 "" [0%nat] (mkField "A" "" int32Type "" false);
                  mkProtoField 3 "" [1%nat] (mkField "B" "" int32Type "3" false) ]
                0 2)
             (mkBytes [0x18; 7] 2)
             (Deref pairStruct (VStruct [VInt 0; VInt 0])))
        = Ok (mkLoop
                (advance
                   [ mkProtoField 1 "" [0%nat] (mkField "A" "" int32Type "" false);
                     mkProtoField 3 "" [1%nat] (mkField "B" "" int32Type "3" false) ]
                   0 2)
                rem'
                (Deref pairStruct (VStruct [VInt 0; VInt 0])))).
Proof.
  apply (@unknown_field_is_skipped (de_putvalue noM [] 1) []
           [ mkProtoField 1 "" [0%nat] (mkField "A" "" int32Type "" false);
             mkProtoField 3 "" [1%nat] (mkField "B" "" int32Type "3" false) ]
           (mkLoop 0 (mkBytes [0x10; 1; 0x18; 7] 4)
              (Deref pairStruct (VStruct [VInt 0; VInt 0])))
           2 0 1 (mkBytes [0x18; 7] 2)).
  - reflexivity.
  - lia.
  - intros pf [<-|[<-|[]]]; simpl; lia.
  - reflexivity.
Defined.

(** The record of the unknown field 100 is well formed and 100 is the
    number of no entry of the struct; yet with it in front, the record of
    field 1 that follows is discarded. *)
Lemma unknown_field_changes_later_field :
  protowire.ConsumeTag [0xa0; 0x06; 1] = (100, protowire.VarintType, 2)
  /\ skipPayload protowire.VarintType (mkBytes [1; 0x08; 7] 3) = Ok (mkBytes [0x08; 7] 2)
  /\ entries (protoFields singleStruct) = [(1, "", [0%nat])]
  /\ decodeInto 2 [0x08; 7] singleStruct (Zero singleStruct) = Ok (VStruct [VInt 7])
  /\ decodeInto 2 ([0xa0; 0x06; 1] ++ [0x08; 7]) singleStruct (Zero singleStruct)
     = Ok (VStruct [VInt 0]).
Proof. repeat split; reflexivity. Qed.
(** ** Byte slices *)

(** C9.  A length-delimited payload put into a byte-slice destination
    gives a slice whose length and capacity both are the length of the
    payload, whatever capacity the input buffer has.  Appending to it
    therefore never writes into the array it shares with the input, where
    the bytes of the next field lie. *)
Theorem decoded_bytes_cap_eq_len :
  forall methods generators fuel nm (buf : Bytes) (val : Value) e vb n,
    CanSet val = true ->
    kind (Type_ val) = Slice ->
    Elem (Type_ val) = Some e ->
    kind e = Uint8 ->
    protowire.ConsumeBytes buf = (vb, n) ->
    0 < n ->
    exists b,
      de_value methods generators (S fuel) nm protowire.BytesType buf (Some val)
      = Ok (slice_from buf (Z.to_nat n), Some (VBytes b))
      /\ data b = data vb
      /\ blen b = blen vb
      /\ cap b = blen vb
      /\ (forall extra, extra <> [] -> snd (go_append b extra) = false).
Proof.
  intros methods generators fuel nm buf val e vb n Hset Hk He Hu8 Hcons Hn.
  exists (slice3 vb (blen vb) (blen vb)).
  assert (Hdata : data (slice3 vb (blen vb) (blen vb)) = data vb).
  { unfold slice3, blen. simpl. apply firstn_all. }
  assert (Hlen : blen (slice3 vb (blen vb) (blen vb)) = blen vb).
  { unfold blen at 1. now rewrite Hdata. }
  split; [|split; [exact Hdata|split; [exact Hlen|split; [reflexivity|]]]].
  - unfold de_value, de_value_body.
    change (protowire.BytesType =? protowire.VarintType) with false.
    change (protowire.BytesType =? protowire.Fixed32Type) with false.
    change (protowire.BytesType =? protowire.Fixed64Type) with false.
    change (protowire.BytesType =? protowire.BytesType) with true.
    cbv iota. rewrite Hcons.
    destruct (Z.leb_spec n 0) as [Hle|_]; [lia|].
    cbn [bind]. rewrite de_putvalue_S.
    unfold de_putvalue_body. rewrite Hset, Hk.
    change (protowire.BytesType =? protowire.BytesType) with true.
    cbn [negb].
    unfold de_slice_body. rewrite He, Hu8, Hk. reflexivity.
  - intros extra Hextra. unfold go_append. rewrite Hlen.
    cbn [cap slice3 snd].
    destruct extra as [|x extra]; [congruence|].
    destruct (Nat.leb_spec (blen vb + length (x :: extra)) (blen vb)) as [Hle|_];
      [simpl in Hle; lia | reflexivity].
Qed.

Lemma decoded_bytes_cap_eq_len_witness :
  exists b,
    de_value noM [] 1 [] protowire.BytesType
      (mkBytes [3; 97; 98; 99; 18; 3; 100; 101; 102] 64)
      (Some (mkValue bytesType (VBytes (mkBytes [] 0)) true false false))
    = Ok (slice_from (mkBytes [3; 97; 98; 99; 18; 3; 100; 101; 102] 64) (Z.to_nat 4),
          Some (VBytes b))
    /\ data b = data (mkBytes [97; 98; 99] 63)
    /\ blen b = blen (mkBytes [97; 98; 99] 63)
    /\ cap b = blen (mkBytes [97; 98; 99] 63)
    /\ (forall extra, extra <> [] -> snd (go_append b extra) = false).
Proof.
  apply (@decoded_bytes_cap_eq_len noM [] 0%nat []
           (mkBytes [3; 97; 98; 99; 18; 3; 100; 101; 102] 64)
           (mkValue bytesType (VBytes (mkBytes [] 0)) true false false)
           (TBasic Uint8) (mkBytes [97; 98; 99] 63) 4);
    (reflexivity || lia).
Defined.


(** ** Running the decoder step by step *)

Lemma DecodeWith_body_ptr methods recp buf t y cons :
  UnmarshalBinary (methods (TPtr t)) = None ->
  DecodeWith_body methods recp buf (Some (TPtr t, VPtr (Some y))) cons
  = recoverDecode (y' <- de_message_body recp cons buf (Deref t y) ;;
                   Ok (Some (TPtr t, VPtr (Some y')))).
Proof.
  intros Hm. unfold DecodeWith_body. rewrite Hm. reflexivity.
Qed.

Lemma de_message_body_struct recp nm buf t fs xs fields :
  kind t = Struct ->
  fieldsOf t = Some fs ->
  protoFields t = Ok fields ->
  de_message_body recp nm buf (Deref t (VStruct xs))
  = de_messageLoop recp nm (blen buf) fields
      (mkLoop 0 buf (Deref t (VStruct (resetFields (Deref t (VStruct xs)) fs xs)))).
Proof.
  intros Hk Hfs Hpf. unfold de_message_body.
  cbn [Type_ Deref val flagAddr flagStickyRO flagEmbedRO].
  rewrite Hk, Hfs, Hpf. reflexivity.
Qed.

Lemma de_messageLoop_done recp nm steps fields s :
  data (l_buf s) = [] ->
  de_messageLoop recp nm steps fields s = Ok (val (l_sval s)).
Proof.
  intros H. destruct steps; simpl; unfold blen; rewrite H; reflexivity.
Qed.

Lemma de_messageLoop_S recp nm steps fields s :
  data (l_buf s) <> [] ->
  de_messageLoop recp nm (S steps) fields s
  = (s' <- de_messageStep recp nm fields s ;; de_messageLoop recp nm steps fields s').
Proof.
  intros H. simpl. unfold blen.
  destruct (data (l_buf s)); [congruence | reflexivity].
Qed.

(** A turn of the loop on a record whose number is that of the entry the
    cursor reaches, for a field of the struct itself that is not a nil
    pointer: the payload goes to that field. *)
Lemma de_messageStep_matched recp nm fields fieldi buf sval num wt k pf i field :
  protowire.ConsumeTag (data buf) = (num, wt, k) ->
  0 < k ->
  nth_error fields (advance fields fieldi num) = Some pf ->
  ID pf = num ->
  Index pf = [i] ->
  reflect.Field sval i = Ok field ->
  Kind_eqb (kind (Type_ field)) Ptr && IsNilPtr field = false ->
  de_messageStep recp nm fields (mkLoop fieldi buf sval)
  = match de_value_body recp nm wt (slice_from buf (Z.to_nat k)) (Some field) with
    | Ok (rem, Some x) =>
        c <- SetByIndex (Type_ sval) (val sval) [i] x ;;
        Ok (mkLoop (advance fields fieldi num) rem
              (mkValue (Type_ sval) c (flagAddr sval) (flagStickyRO sval)
                 (flagEmbedRO sval)))
    | Ok (rem, None) => Ok (mkLoop (advance fields fieldi num) rem sval)
    | Err e => Err (wrapFieldError fields (advance fields fieldi num) e)
    | Panic m => Panic m
    | OutOfFuel => OutOfFuel
    | IllTyped => IllTyped
    end.
Proof.
  intros Htag Hk Hnth Hid Hidx Hfield Hptr. unfold de_messageStep.
  cbn [l_buf l_sval l_fieldi]. rewrite Htag.
  destruct (Z.leb_spec k 0) as [Hle|_]; [lia|].
  rewrite Hnth, Hid, Z.eqb_refl, Hidx.
  cbn [allocPath app FieldByIndex fieldByIndex_rest]. rewrite Hfield.
  cbn [bind]. rewrite Hptr. cbn [bind]. rewrite Hfield.
  cbn [bind option_map snd].
  destruct (de_value_body recp nm wt (slice_from buf (Z.to_nat k)) (Some field))
    as [[rem [x|]]|e|m| |]; try reflexivity.
  destruct (SetByIndex (Type_ sval) (val sval) [i] x); reflexivity.
Qed.

Lemma de_value_body_bytes recp nm buf val vb n :
  protowire.ConsumeBytes buf = (vb, n) ->
  0 < n ->
  de_value_body recp nm protowire.BytesType buf (Some val)
  = (x <- recp nm protowire.BytesType val 0 (slice3 vb (blen vb) (blen vb)) ;;
     Ok (slice_from buf (Z.to_nat n), Some x)).
Proof.
  intros Hc Hn. unfold de_value_body.
  change (protowire.BytesType =? protowire.VarintType) with false.
  change (protowire.BytesType =? protowire.Fixed32Type) with false.
  change (protowire.BytesType =? protowire.Fixed64Type) with false.
  change (protowire.BytesType =? protowire.BytesType) with true.
  cbv iota. rewrite Hc.
  destruct (Z.leb_spec n 0) as [Hle|_]; [lia|]. reflexivity.
Qed.

Lemma de_value_body_varint recp nm buf val v n :
  protowire.ConsumeVarint (data buf) = (v, n) ->
  0 < n ->
  de_value_body recp nm protowire.VarintType buf (Some val)
  = (x <- recp nm protowire.VarintType val v (mkBytes [] 0) ;;
     Ok (slice_from buf (Z.to_nat n), Some x)).
Proof.
  intros Hc Hn. unfold de_value_body.
  change (protowire.VarintType =? protowire.VarintType) with true.
  cbv iota. rewrite Hc.
  destruct (Z.leb_spec n 0) as [Hle|_]; [lia|]. reflexivity.
Qed.

Lemma de_value_body_fixed32 recp nm buf val v n :
  protowire.ConsumeFixed32 (data buf) = (v, n) ->
  0 < n ->
  de_value_body recp nm protowire.Fixed32Type buf (Some val)
  = (x <- recp nm protowire.Fixed32Type val v (mkBytes [] 0) ;;
     Ok (slice_from buf (Z.to_nat n), Some x)).
Proof.
  intros Hc Hn. unfold de_value_body.
  change (protowire.Fixed32Type =? protowire.VarintType) with false.
  change (protowire.Fixed32Type =? protowire.Fixed32Type) with true.
  cbv iota. rewrite Hc.
  destruct (Z.leb_spec n 0) as [Hle|_]; [lia|]. reflexivity.
Qed.

Lemma de_value_body_fixed64 recp nm buf val v n :
  protowire.ConsumeFixed64 (data buf) = (v, n) ->
  0 < n ->
  de_value_body recp nm protowire.Fixed64Type buf (Some val)
  = (x <- recp nm protowire.Fixed64Type val v (mkBytes [] 0) ;;
     Ok (slice_from buf (Z.to_nat n), Some x)).
Proof.
  intros Hc Hn. unfold de_value_body.
  change (protowire.Fixed64Type =? protowire.VarintType) with false.
  change (protowire.Fixed64Type =? protowire.Fixed32Type) with false.
  change (protowire.Fixed64Type =? protowire.Fixed64Type) with true.
  cbv iota. rewrite Hc.
  destruct (Z.leb_spec n 0) as [Hle|_]; [lia|]. reflexivity.
Qed.

(** With no generator registered and no constructor for its type, a nil
    interface cannot be given a value. *)
Lemma putvalue_nil_interface methods recp nm wiretype n v vb :
  consGet nm (TInterface n) = None ->
  de_putvalue_body methods [] recp nm wiretype
    (mkValue (TInterface n) (VInterface None) true false false) v vb
  = Panic ("no constructor for interface " ++ n).
Proof.
  intros Hcons. unfold de_putvalue_body.
  cbn [CanSet flagAddr flagRO flagStickyRO flagEmbedRO negb andb orb Type_ kind val].
  assert (Hg : (if (GeneratorIDLen <? blen vb)%nat
                then generators_get [] (firstn GeneratorIDLen (data vb))
                else None) = None)
    by (destruct (GeneratorIDLen <? blen vb)%nat; reflexivity).
  rewrite Hg. unfold de_instantiate. cbn [kind]. rewrite Hcons. reflexivity.
Qed.
(** ** Interface fields *)

(** C8.  An interface field whose value marshals itself to 01 02 03 and
    whose tag "aaaaaaaa" has a generator registered is written as a
    length-delimited field of length 11: the eight bytes of the tag, then
    the three of the payload.  Decoding these bytes into a fresh wrapper,
    with no generator registered and no constructor for the interface,
    fails with the "no constructor" error. *)
Theorem interface_tag_scenario :
  forall (g : InterfaceGeneratorFunc) (others : generatorRegistry)
         (cons : Constructors) (fuel : nat) (extra : nat),
    consGet cons dummyInterface = None ->
    Encode dummyMethods ((dummyID, g) :: others) dummyWrapped
    = Ok ([0x0a; 11] ++ dummyID ++ [1; 2; 3])
    /\ DecodeWithConstructors dummyMethods [] (S (S fuel))
         (mkBytes ([0x0a; 11] ++ dummyID ++ [1; 2; 3]) (13 + extra))
         dummyFresh cons
       = Err "no constructor for interface protobuf_test.dummyInterface".
Proof.
  intros g others cons fuel extra Hcons. split.
  - reflexivity.
  - unfold DecodeWithConstructors, dummyFresh.
    rewrite DecodeWith_body_ptr by reflexivity.
    erewrite de_message_body_struct by reflexivity.
    change (blen (mkBytes ([0x0a; 11] ++ dummyID ++ [1; 2; 3]) (13 + extra)))
      with 13%nat.
    rewrite de_messageLoop_S by discriminate.
    erewrite de_messageStep_matched
      with (i := 0%nat) (k := 1)
           (field := mkValue (TInterface "protobuf_test.dummyInterface")
                       (VInterface None) true false false);
      [|reflexivity|lia|reflexivity|reflexivity|reflexivity|reflexivity|reflexivity].
    erewrite de_value_body_bytes with (n := 12); [|reflexivity|lia].
    rewrite de_putvalue_S, putvalue_nil_interface by exact Hcons.
    reflexivity.
Qed.

Lemma interface_tag_scenario_witness :
  Encode dummyMethods ((dummyID, newDummy) :: []) dummyWrapped
  = Ok ([0x0a; 11] ++ dummyID ++ [1; 2; 3])
  /\ DecodeWithConstructors dummyMethods [] 2
       (mkBytes ([0x0a; 11] ++ dummyID ++ [1; 2; 3]) (13 + 0))
       dummyFresh []
     = Err "no constructor for interface protobuf_test.dummyInterface".
Proof.
  apply (@interface_tag_scenario newDummy [] [] 0%nat 0%nat).
  reflexivity.
Defined.


(** ** The wire primitives under the encoder and the decoder *)

Lemma lor_low_128 (x : Z) : 0 <= x < 128 -> Z.lor x 128 = x + 128.
Proof.
  intros Hx.
  assert (Hdisj : Z.land x 128 = 0); [|rewrite <- Z.lxor_lor, Z.add_nocarry_lxor by exact Hdisj; reflexivity].
  apply Z.bits_inj'. intros n Hn.
  rewrite Z.land_spec, Z.bits_0.
  change 128 with (2 ^ 7). rewrite Z.pow2_bits_eqb by lia.
  destruct (Z.eqb_spec 7 n) as [<-|Hne]; [|apply andb_false_r].
  rewrite andb_true_r. apply Z.testbit_false; [lia|].
  change (2 ^ 7) with 128. rewrite Z.div_small by lia. reflexivity.
Qed.

Lemma varint_group (w : Z) :
  0 <= w -> Z.lor (Z.land w 127) 128 = w mod 128 + 128.
Proof.
  intros Hw. change 127 with (Z.ones 7). rewrite Z.land_ones by lia.
  change (2 ^ 7) with 128. apply lor_low_128. apply Z.mod_pos_bound. lia.
Qed.

Lemma varint_bytes_length (n : nat) :
  forall w, (length (protowire.varint_bytes (S n) w) <= S n)%nat
            /\ (1 <= length (protowire.varint_bytes (S n) w))%nat.
Proof.
  induction n as [|n IH]; intros w; simpl; destruct (w <? 128); simpl; try lia.
  specialize (IH (Z.shiftr w 7)). simpl in IH. lia.
Qed.

(** Reading back what [varint_bytes] wrote, from byte [i] on. *)
Lemma consume_varint_bytes (n : nat) :
  forall i acc w rest,
    i = 10 - Z.of_nat n ->
    (1 <= n <= 10)%nat ->
    0 <= w < 2 ^ (64 - 7 * i) ->
    protowire.consume_varint n i acc (protowire.varint_bytes n w ++ rest)
    = (acc + w * 2 ^ (7 * i),
       i + Z.of_nat (length (protowire.varint_bytes n w))).
Proof.
  induction n as [|n IH]; intros i acc w rest Hi Hn Hw; [lia|].
  cbn [protowire.varint_bytes protowire.consume_varint].
  destruct (Z.ltb_spec w 128) as [Hsmall|Hbig].
  - cbn [app length]. rewrite Z.shiftl_mul_pow2 by lia.
    destruct (Z.eqb_spec i 9) as [->|Hi9].
    + assert (w < 2) by (change (2 ^ (64 - 7 * 9)) with 2 in Hw; lia).
      destruct (Z.ltb_spec w 2); [reflexivity | lia].
    + destruct (Z.ltb_spec w 128); [reflexivity | lia].
  - assert (Hi9 : i < 9).
    { destruct (Z.eq_dec i 9) as [->|Hne]; [|lia].
      change (2 ^ (64 - 7 * 9)) with 2 in Hw. lia. }
    cbn [app length].
    rewrite varint_group by lia.
    destruct (Z.eqb_spec i 9) as [->|_]; [lia|].
    destruct (Z.ltb_spec (w mod 128 + 128) 128) as [Hlt|_].
    { pose proof (Z.mod_pos_bound w 128). lia. }
    rewrite IH.
    + f_equal; [|lia].
      rewrite !Z.shiftl_mul_pow2, Z.shiftr_div_pow2 by lia.
      replace (7 * (i + 1)) with (7 + 7 * i) by lia.
      rewrite Z.pow_add_r by lia. change (2 ^ 7) with 128.
      pose proof (Z.div_mod w 128). nia.
    + lia.
    + lia.
    + rewrite Z.shiftr_div_pow2 by lia. change (2 ^ 7) with 128. split.
      * apply Z.div_pos; lia.
      * apply Z.div_lt_upper_bound; [lia|].
        replace (64 - 7 * i) with (7 + (64 - 7 * (i + 1))) in Hw by lia.
        rewrite Z.pow_add_r in Hw by lia. change (2 ^ 7) with 128 in Hw. lia.
Qed.

Lemma wrap64_small (v : Z) : 0 <= v < 2 ^ 64 -> wrap64 v = v.
Proof. intros H. unfold wrap64. apply Z.mod_small. exact H. Qed.

(** What [en.uvarint] writes, [protowire.ConsumeVarint] reads back,
    whatever follows. *)
Lemma ConsumeVarint_uvarint (v : Z) (rest : list Z) :
  0 <= v < 2 ^ 64 ->
  protowire.ConsumeVarint (en_uvarint v ++ rest)
  = (v, Z.of_nat (length (en_uvarint v)))
  /\ (1 <= length (en_uvarint v) <= 10)%nat.
Proof.
  intros Hv. unfold en_uvarint, protowire.AppendVarint, protowire.ConsumeVarint.
  rewrite wrap64_small by exact Hv. cbn [app]. split.
  - rewrite consume_varint_bytes; [|reflexivity|lia|exact Hv].
    f_equal. change (2 ^ (7 * 0)) with 1. lia.
  - pose proof (varint_bytes_length 9 v). lia.
Qed.

(** ** Signed integers *)

(** The bytes of a varint: every byte but the last has the continuation
    bit, and the groups of seven bits give the number. *)
Lemma varint_bytes_base128 (n : nat) :
  forall w, 0 <= w < 128 ^ Z.of_nat (S n) ->
    base128 (protowire.varint_bytes (S n) w) = w
    /\ forallb (fun b => (128 <=? b) && (b <? 256))
         (removelast (protowire.varint_bytes (S n) w)) = true
    /\ 0 <= last (protowire.varint_bytes (S n) w) 0 < 128.
Proof.
  induction n as [|n IH]; intros w Hw.
  - change (128 ^ Z.of_nat 1) with 128 in Hw.
    cbn [protowire.varint_bytes].
    destruct (Z.ltb_spec w 128) as [_|Hge]; [|lia].
    cbn [base128 removelast forallb last].
    rewrite Z.mod_small by lia. repeat split; lia.
  - remember (S n) as m eqn:Em.
    cbn [protowire.varint_bytes].
    destruct (Z.ltb_spec w 128) as [Hlt|Hge].
    + cbn [base128 removelast forallb last].
      rewrite Z.mod_small by lia. repeat split; lia.
    + assert (Hq : 0 <= Z.shiftr w 7 < 128 ^ Z.of_nat m).
      { rewrite Z.shiftr_div_pow2 by lia. change (2 ^ 7) with 128.
        replace (128 ^ Z.of_nat (S m)) with (128 * 128 ^ Z.of_nat m) in Hw
          by (rewrite Nat2Z.inj_succ, Z.pow_succ_r by lia; reflexivity).
        split; [apply Z.div_pos; lia|].
        apply Z.div_lt_upper_bound; lia. }
      subst m. destruct (IH (Z.shiftr w 7) Hq) as (Hv & Hc & Hl).
      rewrite varint_group by lia.
      assert (Hne : protowire.varint_bytes (S n) (Z.shiftr w 7) <> []).
      { cbn [protowire.varint_bytes]. destruct (Z.shiftr w 7 <? 128); discriminate. }
      destruct (protowire.varint_bytes (S n) (Z.shiftr w 7)) as [|b l] eqn:El;
        [congruence|].
      cbn [base128] in Hv |- *.
      change (removelast ((w mod 128 + 128) :: b :: l))
        with ((w mod 128 + 128) :: removelast (b :: l)).
      change (last ((w mod 128 + 128) :: b :: l) 0) with (last (b :: l) 0).
      cbn [forallb]. rewrite Hc, Hv.
      pose proof (Z.mod_pos_bound w 128 ltac:(lia)) as Hm.
      split; [|split; [|lia]].
      * replace ((w mod 128 + 128) mod 128) with (w mod 128)
          by (rewrite <- Z.add_mod_idemp_r, Z.mod_same, Z.add_0_r, Z.mod_mod by lia;
              reflexivity).
        rewrite Z.shiftr_div_pow2 by lia. change (2 ^ 7) with 128.
        pose proof (Z.div_mod w 128 ltac:(lia)). lia.
      * rewrite andb_true_r.
        destruct (Z.leb_spec 128 (w mod 128 + 128)); [|lia].
        destruct (Z.ltb_spec (w mod 128 + 128) 256); [reflexivity|lia].
Qed.

(** C5.  A signed integer field ([int], [int32], [int64] or a type defined
    over one of them, the fixed-width types apart) holding [i] is written
    as the varint of its two's-complement bit pattern read as an unsigned
    64-bit number: [i] itself when it is not negative, [i + 2^64] when it
    is; no zigzag.  The payload has one to ten bytes, every byte but the
    last with the continuation bit, and its groups of seven bits give that
    number, which [protowire.ConsumeVarint] reads back.  A signed
    destination accepts the varint, the fixed32 and the fixed64 wire
    types: a 64-bit pattern [v] at or above [2^63] is read as [v - 2^64],
    a fixed32 payload is sign-extended from 32 bits, and a 32-bit
    destination keeps the low 32 bits, read as signed.  A length-delimited
    payload is refused. *)
Theorem signed_integers_plain_varint :
  forall methods generators fuel (val : Value) key i nm v vb rest,
    signedKind (kind (Type_ val)) = true ->
    type_eqb (Type_ val) sfixed32type = false ->
    type_eqb (Type_ val) sfixed64type = false ->
    reflect.val val = VInt i ->
    CanSet val = true ->
    - 2 ^ 63 <= i < 2 ^ 63 ->
    0 <= v < 2 ^ 64 ->
    let pattern := if i <? 0 then i + 2 ^ 64 else i in
    let signed64 := if v <? 2 ^ 63 then v else v - 2 ^ 64 in
    let signed32 x := (x + 2 ^ 31) mod 2 ^ 32 - 2 ^ 31 in
    let narrow x :=
      match kind (Type_ val) with Int32 => signed32 x | _ => x end in
    exists payload,
      en_value methods generators (S fuel) key val
      = Ok (en_keyTag key protowire.VarintType ++ payload)
      /\ (1 <= length payload <= 10)%nat
      /\ base128 payload = pattern
      /\ forallb (fun b => (128 <=? b) && (b <? 256)) (removelast payload) = true
      /\ 0 <= last payload 0 < 128
      /\ protowire.ConsumeVarint (payload ++ rest)
         = (pattern, Z.of_nat (length payload))
      /\ de_putvalue methods generators (S fuel) nm protowire.VarintType val v vb
         = Ok (VInt (narrow signed64))
      /\ de_putvalue methods generators (S fuel) nm protowire.Fixed32Type val v vb
         = Ok (VInt (signed32 v))
      /\ de_putvalue methods generators (S fuel) nm protowire.Fixed64Type val v vb
         = Ok (VInt (narrow signed64))
      /\ de_putvalue methods generators (S fuel) nm protowire.BytesType val v vb
         = Err "bad wiretype for sint".
Proof.
  intros methods generators fuel val key i nm v vb rest Hk H32 H64 Hv Hset Hi Hvr
         pattern signed64 signed32 narrow.
  assert (Hp : wrap64 i = pattern) by (subst pattern; zmod).
  assert (Hpr : 0 <= pattern < 2 ^ 64) by (subst pattern; zmod).
  exists (en_uvarint pattern).
  destruct (ConsumeVarint_uvarint rest Hpr) as [Hread Hlen].
  split; [|split; [exact Hlen|]].
  { rewrite en_value_S.
    rewrite (@en_value_signed methods generators _ key val i) by assumption.
    unfold en_svarint. now rewrite Hp. }
  assert (Hbytes : en_uvarint pattern = protowire.varint_bytes 10 pattern).
  { unfold en_uvarint, protowire.AppendVarint. now rewrite wrap64_small. }
  assert (Hp70 : 0 <= pattern < 128 ^ Z.of_nat 10).
  { split; [lia|]. apply Z.lt_trans with (2 ^ 64); [lia|reflexivity]. }
  destruct (@varint_bytes_base128 9 pattern Hp70) as (Hb & Hc & Hl).
  rewrite Hbytes in *.
  split; [exact Hb|]. split; [exact Hc|]. split; [exact Hl|].
  split; [exact Hread|].
  assert (H64s : to_int64 v = signed64) by (subst signed64; zmod).
  assert (H32s : forall x, to_int32 x = signed32 x) by (intros x; subst signed32; zmod).
  subst narrow. rewrite !de_putvalue_S.
  unfold de_putvalue_body. rewrite Hset.
  cbn [negb].
  destruct (kind (Type_ val)); try discriminate;
    cbn [de_decodeSignedInt setInt bind Z.eqb protowire.VarintType
           protowire.Fixed32Type protowire.Fixed64Type protowire.BytesType
           Pos.eqb];
    unfold de_decodeSignedInt; cbn [bind setInt Z.eqb Pos.eqb
           protowire.VarintType protowire.Fixed32Type protowire.Fixed64Type
           protowire.BytesType];
    rewrite ?to_int64_idem, ?to_int32_to_int64, ?to_int64_to_int32, ?to_int32_idem;
    rewrite ?H64s, ?H32s;
    repeat split; try reflexivity.
  all: subst signed32 signed64; cbv beta; do 2 f_equal; pow2;
    destruct (Z.ltb_spec v 9223372036854775808); [reflexivity|];
    Z.div_mod_to_equations; lia.
Qed.

Lemma signed_integers_plain_varint_witness :
  exists payload,
    en_value noM [] 1 1 (mkValue int32Type (VInt (-1)) true false false)
    = Ok (en_keyTag 1 protowire.VarintType ++ payload)
    /\ (1 <= length payload <= 10)%nat
    /\ base128 payload = (if -1 <? 0 then -1 + 2 ^ 64 else -1)
    /\ forallb (fun b => (128 <=? b) && (b <? 256)) (removelast payload) = true
    /\ 0 <= last payload 0 < 128
    /\ protowire.ConsumeVarint (payload ++ [8; 1])
       = ((if -1 <? 0 then -1 + 2 ^ 64 else -1), Z.of_nat (length payload))
    /\ de_putvalue noM [] 1 [] protowire.VarintType
         (mkValue int32Type (VInt (-1)) true false false) 4294967295 (mkBytes [] 0)
       = Ok (VInt (((if 4294967295 <? 2 ^ 63 then 4294967295
                     else 4294967295 - 2 ^ 64) + 2 ^ 31) mod 2 ^ 32 - 2 ^ 31))
    /\ de_putvalue noM [] 1 [] protowire.Fixed32Type
         (mkValue int32Type (VInt (-1)) true false false) 4294967295 (mkBytes [] 0)
       = Ok (VInt ((4294967295 + 2 ^ 31) mod 2 ^ 32 - 2 ^ 31))
    /\ de_putvalue noM [] 1 [] protowire.Fixed64Type
         (mkValue int32Type (VInt (-1)) true false false) 4294967295 (mkBytes [] 0)
       = Ok (VInt (((if 4294967295 <? 2 ^ 63 then 4294967295
                     else 4294967295 - 2 ^ 64) + 2 ^ 31) mod 2 ^ 32 - 2 ^ 31))
    /\ de_putvalue noM [] 1 [] protowire.BytesType
         (mkValue int32Type (VInt (-1)) true false false) 4294967295 (mkBytes [] 0)
       = Err "bad wiretype for sint".
Proof.
  apply (@signed_integers_plain_varint noM [] 0%nat
           (mkValue int32Type (VInt (-1)) true false false)
           1 (-1) [] 4294967295 (mkBytes [] 0) [8; 1]);
    (reflexivity || lia).
Defined.

(** ** Positional numbering *)

Lemma to_int32_small (z : Z) : - 2 ^ 31 <= z < 2 ^ 31 -> to_int32 z = z.
Proof. intros H. zmod. Qed.

Lemma ParseTag_untagged (f : StructField) :
  String.eqb (Tag f) "" = true -> ParseTag f = (0, "").
Proof. intros H. unfold ParseTag. now rewrite H. Qed.

Lemma fieldLoop_untagged rec (fs : list StructField) :
  forall i id,
    forallb untagged fs = true ->
    - 2 ^ 31 <= id ->
    id + Z.of_nat (length fs) < 2 ^ 31 ->
    fieldLoop rec fs i id
    = Ok (defaultEntries fs i id, id + Z.of_nat (length fs)).
Proof.
  induction fs as [|f fs IH]; intros i id Hfs Hlo Hhi.
  - simpl. now rewrite Z.add_0_r.
  - cbn [forallb] in Hfs. apply andb_prop in Hfs as [Hf Hfs].
    unfold untagged in Hf. apply andb_prop in Hf as [Hanon Htag].
    cbn [fieldLoop defaultEntries length] in *.
    rewrite (ParseTag_untagged f Htag).
    change (0 =? 0) with true. cbv iota.
    destruct (Anonymous f); [discriminate|].
    rewrite to_int64_small by (pow2; lia).
    rewrite IH by (try assumption; lia).
    cbn [bind]. rewrite to_int32_small by (pow2; lia).
    do 2 f_equal. lia.
Qed.

Lemma defaultEntries_ID_bounds (fs : list StructField) :
  forall i id pf, In pf (defaultEntries fs i id) ->
                  id < ID pf <= id + Z.of_nat (length fs).
Proof.
  induction fs as [|f fs IH]; intros i id pf Hin; [destruct Hin|].
  cbn [defaultEntries length] in *. destruct Hin as [<-|Hin].
  - simpl. lia.
  - apply IH in Hin. lia.
Qed.

Lemma firstReused_defaultEntries (fs : list StructField) :
  forall i id seen,
    (forall n, In n seen -> n <= id) ->
    firstReused seen (defaultEntries fs i id) = None.
Proof.
  induction fs as [|f fs IH]; intros i id seen Hseen; [reflexivity|].
  cbn [defaultEntries firstReused ID].
  destruct (existsb (Z.eqb (id + 1)) seen) eqn:Hex.
  - apply existsb_eqb_In in Hex. apply Hseen in Hex. lia.
  - apply IH. intros n [<-|Hn]; [lia|]. apply Hseen in Hn. lia.
Qed.

Lemma defaultEntries_nth (fs : list StructField) :
  forall i id j f,
    nth_error fs j = Some f ->
    nth_error (defaultEntries fs i id) j
    = Some (mkProtoField (id + 1 + Z.of_nat j) "" [(i + j)%nat] f).
Proof.
  induction fs as [|g fs IH]; intros i id j f Hj; [destruct j; discriminate|].
  destruct j as [|j]; cbn [defaultEntries nth_error] in *.
  - injection Hj as ->. rewrite Z.add_0_r, Nat.add_0_r. reflexivity.
  - rewrite (IH (S i) (id + 1) j f Hj) || rewrite (@IH (S i) (id + 1) j f Hj).
    replace (id + 1 + 1 + Z.of_nat j) with (id + 1 + Z.of_nat (S j)) by lia.
    replace (S i + j)%nat with (i + S j)%nat by lia. reflexivity.
Qed.

Lemma defaultEntries_length (fs : list StructField) :
  forall i id, length (defaultEntries fs i id) = length fs.
Proof. induction fs; intros; simpl; auto. Qed.

(** Positional numbering, for the fields of any struct type. *)
Lemma protoFields_untagged :
  forall (t : type) (fs : list StructField),
    fieldsOf t = Some fs ->
    kind t = Struct ->
    forallb untagged fs = true ->
    Z.of_nat (length fs) < 2 ^ 31 ->
    protoFields t = Ok (defaultEntries fs 0 0)
    /\ (forall j f, nth_error fs j = Some f ->
                    nth_error (defaultEntries fs 0 0) j
                    = Some (mkProtoField (Z.of_nat j + 1) "" [j] f)).
Proof.
  intros t fs Hfs Hk Hun Hlen. split.
  - assert (Hinner : innerFieldIndexes 0 t
                     = Ok (defaultEntries fs 0 0, 0 + Z.of_nat (length fs))).
    { induction t; simpl in Hfs, Hk |- *; try discriminate.
      - now apply IHt.
      - injection Hfs as ->. apply fieldLoop_untagged; try assumption; pow2; lia.
      - injection Hfs as <-. reflexivity. }
    unfold protoFields. rewrite Hinner. cbn [bind].
    rewrite firstReused_defaultEntries; [reflexivity|]. intros n [].
  - intros j f Hj. rewrite (@defaultEntries_nth fs 0 0 j f Hj).
    replace (0 + 1 + Z.of_nat j) with (Z.of_nat j + 1) by lia. reflexivity.
Qed.



Lemma EncodeTag_value (key wt : Z) :
  0 <= key < 2 ^ 60 -> 0 <= wt < 8 ->
  protowire.EncodeTag key wt = key * 8 + wt.
Proof.
  intros Hk Hw. unfold protowire.EncodeTag.
  rewrite (wrap64_small (v := key)) by (split; [lia|]; apply Z.lt_trans with (2 ^ 60); [lia|reflexivity]).
  rewrite Z.shiftl_mul_pow2 by lia. change (2 ^ 3) with 8.
  rewrite wrap64_small
    by (change (2 ^ 64) with (2 ^ 60 * 16); change (2 ^ 60) with 1152921504606846976 in *; lia).
  change 7 with (Z.ones 3). rewrite Z.land_ones by lia.
  change (2 ^ 3) with 8. rewrite (Z.mod_small wt 8) by lia.
  assert (Hdisj : Z.land (key * 8) wt = 0).
  { apply Z.bits_inj'. intros n Hn. rewrite Z.land_spec, Z.bits_0.
    destruct (Z.ltb_spec n 3) as [Hlow|Hhigh].
    - change 8 with (2 ^ 3). rewrite Z.mul_pow2_bits_low by lia. reflexivity.
    - assert (Hbit : Z.testbit wt n = false).
      { apply Z.testbit_false; [lia|]. rewrite Z.div_small; [reflexivity|].
        split; [lia|]. apply Z.lt_le_trans with (2 ^ 3); [lia|].
        apply Z.pow_le_mono_r; lia. }
      rewrite Hbit. apply andb_false_r. }
  rewrite <- Z.lxor_lor, Z.add_nocarry_lxor by exact Hdisj. reflexivity.
Qed.

(** What [en.keyTag] writes, [protowire.ConsumeTag] reads back. *)
Lemma ConsumeTag_keyTag (key wt : Z) (rest : list Z) :
  1 <= key < 2 ^ 31 -> 0 <= wt < 8 ->
  protowire.ConsumeTag (en_keyTag key wt ++ rest)
  = (key, wt, Z.of_nat (length (en_keyTag key wt)))
  /\ (1 <= length (en_keyTag key wt))%nat.
Proof.
  intros Hk Hw. unfold en_keyTag, protowire.ConsumeTag.
  assert (Hk60 : 0 <= key < 2 ^ 60).
  { split; [lia|]. apply Z.lt_trans with (2 ^ 31); [lia|reflexivity]. }
  rewrite (EncodeTag_value Hk60 Hw).
  assert (Hrange : 0 <= key * 8 + wt < 2 ^ 64).
  { change (2 ^ 64) with 18446744073709551616.
    change (2 ^ 31) with 2147483648 in Hk. lia. }
  destruct (ConsumeVarint_uvarint rest Hrange) as [Hcv Hlen].
  rewrite Hcv. split; [|lia].
  destruct (Z.ltb_spec (Z.of_nat (length (en_uvarint (key * 8 + wt)))) 0); [lia|].
  unfold protowire.DecodeTag.
  rewrite Z.shiftr_div_pow2 by lia. change (2 ^ 3) with 8.
  replace ((key * 8 + wt) / 8) with key
    by (apply Z.div_unique with (r := wt); lia).
  unfold protowire.MaxInt32.
  destruct (Z.gtb_spec key (2 ^ 31 - 1)); [lia|].
  unfold protowire.MinValidNumber.
  destruct (Z.ltb_spec key 1); [lia|].
  change 7 with (Z.ones 3). rewrite Z.land_ones by lia. change (2 ^ 3) with 8.
  replace ((key * 8 + wt) mod 8) with wt
    by (apply Z.mod_unique with (q := key); lia).
  reflexivity.
Qed.

Lemma le_bytes_length (n : nat) : forall v, length (protowire.le_bytes n v) = n.
Proof. induction n as [|n IH]; intros v; simpl; [reflexivity | now rewrite IH]. Qed.

Lemma le_value_le_bytes (n : nat) :
  forall v, protowire.le_value (protowire.le_bytes n v) = v mod 2 ^ (8 * Z.of_nat n).
Proof.
  induction n as [|n IH]; intros v.
  - simpl. now rewrite Z.mod_1_r.
  - cbn [protowire.le_bytes protowire.le_value]. rewrite IH.
    change 255 with (Z.ones 8). rewrite Z.land_ones by lia.
    rewrite Z.shiftr_div_pow2 by lia.
    replace (8 * Z.of_nat (S n)) with (8 + 8 * Z.of_nat n) by lia.
    rewrite Z.pow_add_r by lia. change (2 ^ 8) with 256.
    rewrite Z.rem_mul_r; [reflexivity | lia | apply Z.pow_pos_nonneg; lia].
Qed.

Lemma firstn_app_exact {A} (l rest : list A) : firstn (length l) (l ++ rest) = l.
Proof.
  rewrite firstn_app, Nat.sub_diag, firstn_all. simpl. apply app_nil_r.
Qed.

Lemma skipn_app_exact {A} (l rest : list A) : skipn (length l) (l ++ rest) = rest.
Proof.
  rewrite skipn_app, Nat.sub_diag, skipn_all. reflexivity.
Qed.

(** What [en.u32] and [en.u64] write is read back, modulo the width. *)
Lemma ConsumeFixed32_u32 (v : Z) (rest : list Z) :
  protowire.ConsumeFixed32 (en_u32 v ++ rest) = (v mod 2 ^ 32, 4).
Proof.
  unfold protowire.ConsumeFixed32, en_u32, protowire.AppendFixed32. cbn [app].
  rewrite length_app, le_bytes_length.
  destruct (Nat.ltb_spec (4 + length rest) 4); [lia|].
  change 4%nat with (length (protowire.le_bytes 4 v)) at 1.
  rewrite firstn_app_exact, le_value_le_bytes. reflexivity.
Qed.

Lemma ConsumeFixed64_u64 (v : Z) (rest : list Z) :
  protowire.ConsumeFixed64 (en_u64 v ++ rest) = (v mod 2 ^ 64, 8).
Proof.
  unfold protowire.ConsumeFixed64, en_u64, protowire.AppendFixed64. cbn [app].
  rewrite length_app, le_bytes_length.
  destruct (Nat.ltb_spec (8 + length rest) 8); [lia|].
  change 8%nat with (length (protowire.le_bytes 8 v)) at 1.
  rewrite firstn_app_exact, le_value_le_bytes. reflexivity.
Qed.

(** A length and the bytes, as [ConsumeBytes] reads them back: the slice
    returned keeps the capacity of the input after the prefix. *)
Lemma ConsumeBytes_prefixed (s rest : list Z) (c : nat) :
  Z.of_nat (length s) < 2 ^ 64 ->
  protowire.ConsumeBytes (mkBytes (en_uvarint (lenZ s) ++ s ++ rest) c)
  = (mkBytes s (c - length (en_uvarint (lenZ s))),
     Z.of_nat (length (en_uvarint (lenZ s))) + lenZ s).
Proof.
  intros Hlen. unfold protowire.ConsumeBytes. cbn [data].
  assert (Hr : 0 <= lenZ s < 2 ^ 64) by (unfold lenZ; lia).
  destruct (ConsumeVarint_uvarint (s ++ rest) Hr) as [Hcv Hn].
  rewrite Hcv.
  destruct (Z.ltb_spec (Z.of_nat (length (en_uvarint (lenZ s)))) 0); [lia|].
  unfold blen. cbn [data]. rewrite !length_app.
  destruct (Z.gtb_spec (lenZ s)
              (Z.of_nat (length (en_uvarint (lenZ s)) + (length s + length rest))
               - Z.of_nat (length (en_uvarint (lenZ s))))) as [Hgt|_].
  { unfold lenZ in Hgt. lia. }
  f_equal. unfold slice_to, slice_from. cbn [data cap].
  rewrite Nat2Z.id, skipn_app_exact. unfold lenZ. rewrite Nat2Z.id.
  now rewrite firstn_app_exact.
Qed.

(** ** Scalar fields *)

Lemma slice_from_app (p rest : list Z) (c : nat) :
  slice_from (mkBytes (p ++ rest) c) (Z.to_nat (Z.of_nat (length p)))
  = mkBytes rest (c - length p).
Proof. unfold slice_from. cbn [data cap]. now rewrite Nat2Z.id, skipn_app_exact. Qed.

Lemma de_value_body_uvarint recp nm u rest c val :
  0 <= u < 2 ^ 64 ->
  de_value_body recp nm protowire.VarintType (mkBytes (en_uvarint u ++ rest) c) (Some val)
  = (x <- recp nm protowire.VarintType val u (mkBytes [] 0) ;;
     Ok (mkBytes rest (c - length (en_uvarint u)), Some x)).
Proof.
  intros Hu. destruct (ConsumeVarint_uvarint rest Hu) as [Hcv Hn].
  rewrite (@de_value_body_varint recp nm (mkBytes (en_uvarint u ++ rest) c) val u _ Hcv) by lia.
  now rewrite slice_from_app.
Qed.

Lemma de_value_body_u32 recp nm v rest c val :
  de_value_body recp nm protowire.Fixed32Type (mkBytes (en_u32 v ++ rest) c) (Some val)
  = (x <- recp nm protowire.Fixed32Type val (v mod 2 ^ 32) (mkBytes [] 0) ;;
     Ok (mkBytes rest (c - length (en_u32 v)), Some x)).
Proof.
  rewrite (@de_value_body_fixed32 recp nm (mkBytes (en_u32 v ++ rest) c) val (v mod 2 ^ 32) 4)
    by (try lia; apply ConsumeFixed32_u32).
  change 4 with (Z.of_nat (length (en_u32 v))).
  now rewrite slice_from_app.
Qed.

Lemma de_value_body_u64 recp nm v rest c val :
  de_value_body recp nm protowire.Fixed64Type (mkBytes (en_u64 v ++ rest) c) (Some val)
  = (x <- recp nm protowire.Fixed64Type val (v mod 2 ^ 64) (mkBytes [] 0) ;;
     Ok (mkBytes rest (c - length (en_u64 v)), Some x)).
Proof.
  rewrite (@de_value_body_fixed64 recp nm (mkBytes (en_u64 v ++ rest) c) val (v mod 2 ^ 64) 8)
    by (try lia; apply ConsumeFixed64_u64).
  change 8 with (Z.of_nat (length (en_u64 v))).
  now rewrite slice_from_app.
Qed.

Lemma de_value_body_prefixed recp nm s rest c val :
  Z.of_nat (length s) < 2 ^ 64 ->
  de_value_body recp nm protowire.BytesType
    (mkBytes ((en_uvarint (lenZ s) ++ s) ++ rest) c) (Some val)
  = (x <- recp nm protowire.BytesType val 0 (mkBytes s (length s)) ;;
     Ok (mkBytes rest (c - length (en_uvarint (lenZ s) ++ s)), Some x)).
Proof.
  intros Hlen.
  assert (Hr : 0 <= lenZ s < 2 ^ 64) by (unfold lenZ; lia).
  destruct (ConsumeVarint_uvarint (s ++ rest) Hr) as [_ Hn].
  rewrite <- app_assoc.
  rewrite (@de_value_body_bytes recp nm _ val _ _ (ConsumeBytes_prefixed s rest c Hlen))
    by (unfold lenZ in *; lia).
  unfold slice3, blen. cbn [data]. rewrite firstn_all.
  replace (Z.of_nat (length (en_uvarint (lenZ s))) + lenZ s)
    with (Z.of_nat (length (en_uvarint (lenZ s) ++ s)))
    by (rewrite length_app; unfold lenZ; lia).
  rewrite app_assoc. now rewrite slice_from_app.
Qed.

Lemma isScalar_In (t : type) : isScalar t = true -> In t scalarTypes.
Proof.
  unfold isScalar. intros H. apply existsb_exists in H as [u [Hin Heq]].
  apply type_eqb_eq in Heq. now subst.
Qed.

Ltac scalar_cases H :=
  apply isScalar_In in H; unfold scalarTypes in H;
  repeat (destruct H as [<-|H]); [..|destruct H].

(** What [en.value] writes for a scalar field. *)
Lemma en_value_scalar methods generators recv key t x a s e :
  isScalar t = true ->
  fitsScalar t x = true ->
  en_value_body methods generators recv key (mkValue t x a s e)
  = Ok (en_keyTag key (scalarWire t) ++ scalarPayload t x).
Proof.
  intros Ht Hx. scalar_cases Ht;
    destruct x; try discriminate Hx; try reflexivity.
Qed.

Lemma scalarWire_range (t : type) : 0 <= scalarWire t < 8.
Proof.
  unfold scalarWire.
  repeat match goal with |- context [if ?b then _ else _] => destruct b end;
    cbv; split; congruence.
Qed.

Lemma inRange_spec lo hi z : inRange lo hi z = true -> lo <= z < hi.
Proof. unfold inRange. intros H. apply andb_prop in H as [H1 H2]. lia. Qed.

Ltac putvalue_now :=
  rewrite de_putvalue_S; unfold de_putvalue_body;
  cbn [CanSet flagAddr flagRO flagStickyRO flagEmbedRO negb andb orb Type_ kind
       val bind de_decodeSignedInt setInt setUint type_eqb Kind_eqb
       protowire.VarintType protowire.Fixed32Type protowire.Fixed64Type
       protowire.BytesType Z.eqb Pos.eqb String.eqb Ascii.eqb Bool.eqb
       timeType sfixed32type sfixed64type ufixed32type ufixed64type
       boolType intType int32Type int64Type uintType uint32Type uint64Type
       float32Type float64Type stringType bytesType Elem].

(** ** Floats *)

Lemma quiet32_range (b : Z) : 0 <= b < 2 ^ 32 -> 0 <= quiet32 b < 2 ^ 32.
Proof.
  intros Hb. unfold quiet32. destruct (isNaN32 b); [|exact Hb].
  split; [apply Z.lor_nonneg; lia|].
  assert (Hpos : 0 < Z.lor b 4194304).
  { assert (Z.lor b 4194304 <> 0) by (rewrite Z.lor_eq_0_iff; lia).
    assert (0 <= Z.lor b 4194304) by (apply Z.lor_nonneg; lia). lia. }
  apply Z.log2_lt_pow2; [exact Hpos|].
  rewrite Z.log2_lor by lia.
  change (Z.log2 4194304) with 22.
  destruct (Z.eq_dec b 0) as [->|Hnz]; [reflexivity|].
  assert (Z.log2 b < 32) by (apply Z.log2_lt_pow2; lia).
  lia.
Qed.

Lemma quiet32_idem (b : Z) : quiet32 (quiet32 b) = quiet32 b.
Proof.
  unfold quiet32. destruct (isNaN32 b) eqn:Hn; [|now rewrite Hn].
  assert (Hq : isNaN32 (Z.lor b 4194304) = true).
  { unfold isNaN32 in *. apply andb_prop in Hn as [He _].
    apply Z.eqb_eq in He.
    rewrite !Z.land_lor_distr_l, He.
    change (Z.land 4194304 2139095040) with 0.
    change (Z.land 4194304 8388607) with 4194304.
    rewrite Z.lor_0_r, Z.eqb_refl. cbn [andb].
    destruct (Z.eqb_spec (Z.lor (Z.land b 8388607) 4194304) 0) as [H0|_];
      [|reflexivity].
    apply Z.lor_eq_0_iff in H0 as [_ H0]. discriminate H0. }
  rewrite Hq. rewrite <- Z.lor_assoc. reflexivity.
Qed.

(** A [float32] that has gone through [float64] once is not changed by
    going through it again. *)
Lemma quiet32_settles (b : Z) :
  0 <= b < 2 ^ 32 -> quiet32 (wrap32 (quiet32 b mod 2 ^ 32)) = quiet32 b.
Proof.
  intros Hb. pose proof (quiet32_range Hb) as Hr.
  unfold wrap32. rewrite (Z.mod_small (quiet32 b)) by exact Hr.
  rewrite Z.mod_small by exact Hr. apply quiet32_idem.
Qed.

Lemma quiet32_raw (b : Z) :
  0 <= b < 2 ^ 32 -> quiet32 (wrap32 (b mod 2 ^ 32)) = quiet32 b.
Proof.
  intros Hb. unfold wrap32. rewrite (Z.mod_small b) by exact Hb.
  now rewrite Z.mod_small.
Qed.

(** What [de.value] reads back from the payload of a scalar field,
    whatever the destination held and whatever follows the payload. *)
Lemma de_value_scalar methods generators fuel nm t x z rest c :
  isScalar t = true ->
  fitsScalar t x = true ->
  de_value methods generators (S fuel) nm (scalarWire t)
    (mkBytes (scalarPayload t x ++ rest) c) (Some (mkValue t z true false false))
  = Ok (mkBytes rest (c - length (scalarPayload t x)), Some (landed t x)).
Proof.
  intros Ht Hx. unfold de_value.
  scalar_cases Ht; destruct x; try discriminate Hx;
    cbn [fitsScalar kind boolType intType int32Type int64Type uintType uint32Type
         uint64Type sfixed32type sfixed64type ufixed32type ufixed64type
         float32Type float64Type stringType bytesType] in Hx;
    try apply inRange_spec in Hx;
    try apply Z.ltb_lt in Hx.
  - (* bool *)
    change (scalarWire boolType) with protowire.VarintType.
    cbn [scalarPayload].
    rewrite de_value_body_uvarint by (destruct b; cbv; split; congruence).
    putvalue_now. destruct b; reflexivity.
  - (* int *)
    change (scalarWire intType) with protowire.VarintType.
    change (scalarPayload intType (VInt i)) with (en_uvarint (wrap64 i)).
    rewrite de_value_body_uvarint by (unfold wrap64; apply Z.mod_pos_bound; reflexivity).
    putvalue_now. cbn [landed]. do 4 f_equal. zmod.
  - (* int32 *)
    change (scalarWire int32Type) with protowire.VarintType.
    change (scalarPayload int32Type (VInt i)) with (en_uvarint (wrap64 i)).
    rewrite de_value_body_uvarint by (unfold wrap64; apply Z.mod_pos_bound; reflexivity).
    putvalue_now. cbn [landed]. do 4 f_equal. zmod.
  - (* int64 *)
    change (scalarWire int64Type) with protowire.VarintType.
    change (scalarPayload int64Type (VInt i)) with (en_uvarint (wrap64 i)).
    rewrite de_value_body_uvarint by (unfold wrap64; apply Z.mod_pos_bound; reflexivity).
    putvalue_now. cbn [landed]. do 4 f_equal. zmod.
  - (* uint *)
    change (scalarWire uintType) with protowire.VarintType.
    change (scalarPayload uintType (VUint u)) with (en_uvarint u).
    rewrite de_value_body_uvarint by exact Hx.
    putvalue_now. cbn [landed]. do 4 f_equal. zmod.
  - (* uint32 *)
    change (scalarWire uint32Type) with protowire.VarintType.
    change (scalarPayload uint32Type (VUint u)) with (en_uvarint u).
    rewrite de_value_body_uvarint by (pow2; lia).
    putvalue_now. cbn [landed]. do 4 f_equal. zmod.
  - (* uint64 *)
    change (scalarWire uint64Type) with protowire.VarintType.
    change (scalarPayload uint64Type (VUint u)) with (en_uvarint u).
    rewrite de_value_body_uvarint by exact Hx.
    putvalue_now. cbn [landed]. do 4 f_equal. zmod.
  - (* Sfixed32 *)
    change (scalarWire sfixed32type) with protowire.Fixed32Type.
    change (scalarPayload sfixed32type (VInt i)) with (en_u32 (wrap32 i)).
    rewrite de_value_body_u32. putvalue_now. cbn [landed]. do 4 f_equal. zmod.
  - (* Sfixed64 *)
    change (scalarWire sfixed64type) with protowire.Fixed64Type.
    change (scalarPayload sfixed64type (VInt i)) with (en_u64 (wrap64 i)).
    rewrite de_value_body_u64. putvalue_now. cbn [landed]. do 4 f_equal. zmod.
  - (* Ufixed32 *)
    change (scalarWire ufixed32type) with protowire.Fixed32Type.
    change (scalarPayload ufixed32type (VUint u)) with (en_u32 (wrap32 u)).
    rewrite de_value_body_u32. putvalue_now. cbn [landed]. do 4 f_equal. zmod.
  - (* Ufixed64 *)
    change (scalarWire ufixed64type) with protowire.Fixed64Type.
    change (scalarPayload ufixed64type (VUint u)) with (en_u64 u).
    rewrite de_value_body_u64. putvalue_now. cbn [landed]. do 4 f_equal. zmod.
  - (* float32 *)
    change (scalarWire float32Type) with protowire.Fixed32Type.
    change (scalarPayload float32Type (VFloat bits)) with (en_u32 (quiet32 bits)).
    rewrite de_value_body_u32. putvalue_now.
    change (landed float32Type (VFloat bits)) with (VFloat (quiet32 bits)).
    do 4 f_equal. apply quiet32_settles. exact Hx.
  - (* float64 *)
    change (scalarWire float64Type) with protowire.Fixed64Type.
    change (scalarPayload float64Type (VFloat bits)) with (en_u64 bits).
    rewrite de_value_body_u64. putvalue_now.
    change (landed float64Type (VFloat bits)) with (VFloat bits).
    do 4 f_equal. zmod.
  - (* string *)
    change (scalarWire stringType) with protowire.BytesType.
    cbn [scalarPayload].
    rewrite de_value_body_prefixed by (pow2; lia).
    putvalue_now. reflexivity.
  - (* []byte *)
    change (scalarWire bytesType) with protowire.BytesType.
    cbn [scalarPayload].
    rewrite de_value_body_prefixed by (unfold blen in Hx; pow2; lia).
    putvalue_now. unfold de_slice_body. reflexivity.
Qed.

(** ** Structs of plain fields *)

Unset Implicit Arguments.

Lemma nth_error_skipn_cons {A} (l : list A) :
  forall i x, nth_error l i = Some x -> skipn i l = x :: skipn (S i) l.
Proof.
  induction l as [|y l IH]; intros i x H; [destruct i; discriminate|].
  destruct i as [|i]; simpl in *.
  - now injection H as ->.
  - now apply IH.
Qed.

Lemma Field_exported (t : type) fs xs i f x :
  fieldsOf t = Some fs ->
  nth_error fs i = Some f ->
  nth_error xs i = Some x ->
  IsExported f = true ->
  reflect.Field (Deref t (VStruct xs)) i = Ok (mkValue (Typ f) x true false false).
Proof.
  intros Hfs Hf Hx Hex. unfold reflect.Field, Deref.
  cbn [Type_ val flagAddr flagStickyRO]. rewrite Hfs, Hf, Hx, Hex. reflexivity.
Qed.

Lemma plainField_parts (f : StructField) :
  plainField f = true ->
  IsExported f = true /\ untagged f = true /\ isScalar (Typ f) = true.
Proof.
  unfold plainField. intros H.
  apply andb_prop in H as [H H3]. apply andb_prop in H as [H1 H2]. auto.
Qed.

Lemma forallb_plain_untagged (fs : list StructField) :
  forallb plainField fs = true -> forallb untagged fs = true.
Proof.
  induction fs as [|f fs IH]; [reflexivity|]. cbn [forallb]. intros H.
  apply andb_prop in H as [Hf Hfs]. apply plainField_parts in Hf as (_ & Hu & _).
  rewrite Hu. now apply IH.
Qed.

(** The loop of [en.message] over the entries of the plain fields from
    position [i] on. *)
Lemma en_fields_plain methods generators k (t : type) fs xs :
  fieldsOf t = Some fs ->
  forall fs' xs' i id,
    skipn i fs = fs' ->
    skipn i xs = xs' ->
    forallb plainField fs' = true ->
    fitsFields fs' xs' = true ->
    en_fields (en_value methods generators (S k)) (Deref t (VStruct xs))
      (defaultEntries fs' i id)
    = Ok (plainRecords fs' xs' id, (length fs' =? 0)%nat).
Proof.
  intros Hfs. induction fs' as [|f fs' IH]; intros xs' i id Hsf Hsx Hplain Hfit.
  - destruct xs'; [reflexivity | discriminate].
  - destruct xs' as [|x xs']; [discriminate|].
    cbn [forallb fitsFields] in Hplain, Hfit.
    apply andb_prop in Hplain as [Hf Hplain]. apply andb_prop in Hfit as [Hx Hfit].
    apply plainField_parts in Hf as (Hex & _ & Hsc).
    apply skipn_cons_nth in Hsf as [Hnf Hsf']. apply skipn_cons_nth in Hsx as [Hnx Hsx'].
    cbn [defaultEntries en_fields plainRecords Index ID Field FieldByIndex
         fieldByIndex_rest].
    rewrite (Field_exported t fs xs i f x Hfs Hnf Hnx Hex). cbn [bind CanSet flagAddr flagRO
      flagStickyRO flagEmbedRO negb andb orb].
    rewrite en_value_S, (@en_value_scalar _ _ _ _ _ _ _ _ _ Hsc Hx).
    cbn [bind repanic].
    rewrite (IH xs' (S i) (id + 1) Hsf' Hsx' Hplain Hfit).
    cbn [bind andb length Nat.eqb]. reflexivity.
Qed.

Lemma fieldsOf_kind (t : type) fs : fieldsOf t = Some fs -> kind t = Struct.
Proof. induction t; simpl; intros H; try discriminate; auto. Qed.

Lemma fitsFields_length (fs : list StructField) :
  forall xs, fitsFields fs xs = true -> length xs = length fs.
Proof.
  induction fs as [|f fs IH]; intros [|x xs] H; try discriminate; [reflexivity|].
  cbn [fitsFields] in H. apply andb_prop in H as [_ H]. simpl. f_equal. auto.
Qed.

(** What [Encode] writes for a struct of plain fields. *)
Lemma Encode_plain methods generators (t : type) fs xs :
  fieldsOf t = Some fs ->
  forallb plainField fs = true ->
  fitsFields fs xs = true ->
  Z.of_nat (length fs) < 2 ^ 31 ->
  MarshalBinary (methods (TPtr t)) = None ->
  Encode methods generators (Some (TPtr t, VPtr (Some (VStruct xs))))
  = Ok (plainRecords fs xs 0).
Proof.
  intros Hfs Hplain Hfit Hlen Hm. unfold Encode. rewrite Hm.
  cbn [kind Kind_eqb negb Elem].
  destruct (@protoFields_untagged t fs Hfs (fieldsOf_kind t fs Hfs)
              (forallb_plain_untagged fs Hplain) Hlen) as [Hpf _].
  unfold en_message, en_message_body. cbn [Deref Type_]. rewrite Hpf. cbn [bind].
  destruct fs as [|f fs].
  - destruct xs; [reflexivity | discriminate].
  - change (depth (VStruct xs)) with
      (S (fold_right (fun y d => Nat.max (depth y) d) O xs)).
    change (mkValue t (VStruct xs) true false false) with (Deref t (VStruct xs)).
    cbn [defaultEntries].
    change (mkProtoField (0 + 1) "" [0%nat] f :: defaultEntries fs 1 (0 + 1))
      with (defaultEntries (f :: fs) 0 0).
    rewrite (en_fields_plain methods generators _ t (f :: fs) xs Hfs (f :: fs) xs 0%nat 0
               eq_refl eq_refl Hplain Hfit).
    reflexivity.
Qed.

Lemma advance_step (fields : list ProtoField) c num pf :
  nth_error fields c = Some pf ->
  advance fields c num
  = if ID pf <? num then advance fields (S c) num else c.
Proof.
  intros Hnth. unfold advance.
  rewrite (nth_error_skipn_cons fields c pf Hnth). reflexivity.
Qed.

(** In the entries of positional numbering the cursor, from any earlier
    position, stops at the entry of the number looked for. *)
Lemma advance_default (fs : list StructField) (i : nat) :
  (i < length fs)%nat ->
  forall d c, (c + d = i)%nat ->
              advance (defaultEntries fs 0 0) c (Z.of_nat i + 1) = i.
Proof.
  intros Hi. induction d as [|d IH]; intros c Hc.
  - assert (c = i) by lia. subst c.
    destruct (nth_error fs i) as [f|] eqn:Hf;
      [|apply nth_error_None in Hf; lia].
    rewrite (advance_step _ _ _ _ (@defaultEntries_nth fs 0 0 i f Hf)).
    cbn [ID]. destruct (Z.ltb_spec (0 + 1 + Z.of_nat i) (Z.of_nat i + 1)); [lia|reflexivity].
  - destruct (nth_error fs c) as [f|] eqn:Hf;
      [|apply nth_error_None in Hf; lia].
    rewrite (advance_step _ _ _ _ (@defaultEntries_nth fs 0 0 c f Hf)).
    cbn [ID]. destruct (Z.ltb_spec (0 + 1 + Z.of_nat c) (Z.of_nat i + 1)); [|lia].
    apply IH. lia.
Qed.

Lemma replaceNth_app {A} (done : list A) z rest y :
  replaceNth (done ++ z :: rest) (length done) y = done ++ y :: rest.
Proof. induction done as [|d done IH]; simpl; [reflexivity | now rewrite IH]. Qed.

Lemma nth_error_app_here {A} (done : list A) z rest :
  nth_error (done ++ z :: rest) (length done) = Some z.
Proof. induction done as [|d done IH]; simpl; [reflexivity | exact IH]. Qed.

Lemma scalar_kind_not_ptr (t : type) :
  isScalar t = true -> Kind_eqb (kind t) Ptr = false /\ kind t <> Interface.
Proof. intros H. scalar_cases H; split; (reflexivity || discriminate). Qed.

Lemma SetByIndex_top (t : type) fs xs i f x new :
  fieldsOf t = Some fs ->
  nth_error fs i = Some f ->
  nth_error xs i = Some x ->
  SetByIndex t (VStruct xs) [i] new = Ok (VStruct (replaceNth xs i new)).
Proof. intros Hfs Hf Hx. cbn [SetByIndex]. rewrite Hfs, Hf, Hx. reflexivity. Qed.

Lemma plainRecords_nonempty f fs x xs id :
  plainRecords (f :: fs) (x :: xs) id <> [].
Proof.
  cbn [plainRecords]. unfold en_keyTag, en_uvarint, protowire.AppendVarint.
  cbn [app protowire.varint_bytes].
  destruct (wrap64 (protowire.EncodeTag (id + 1) (scalarWire (Typ f))) <? 128);
    discriminate.
Qed.

(** The loop of [de.message] over the records of the plain fields from
    position [length done] on: the fields before hold what was read, those
    after are zero. *)
Lemma de_messageLoop_plain methods generators fuel nm (t : type) fs :
  fieldsOf t = Some fs ->
  Z.of_nat (length fs) < 2 ^ 31 ->
  forall fs' xs' done c steps cap,
    skipn (length done) fs = fs' ->
    (length done + length fs' = length fs)%nat ->
    forallb plainField fs' = true ->
    fitsFields fs' xs' = true ->
    (c <= length done)%nat ->
    (length (plainRecords fs' xs' (Z.of_nat (length done))) <= steps)%nat ->
    de_messageLoop (de_putvalue methods generators (S fuel)) nm steps
      (defaultEntries fs 0 0)
      (mkLoop c (mkBytes (plainRecords fs' xs' (Z.of_nat (length done))) cap)
         (Deref t (VStruct (done ++ map (fun f => Zero (Typ f)) fs'))))
    = Ok (VStruct (done ++ landedFields fs' xs')).
Proof.
  intros Hfs Hlen.
  induction fs' as [|f fs' IH]; intros xs' done c steps cap Hskip Hcount Hplain Hfit Hc Hsteps.
  - destruct xs'; [|discriminate]. apply de_messageLoop_done. reflexivity.
  - destruct xs' as [|x xs']; [discriminate|].
    cbn [forallb fitsFields] in Hplain, Hfit.
    apply andb_prop in Hplain as [Hf Hplain]. apply andb_prop in Hfit as [Hx Hfit].
    apply plainField_parts in Hf as (Hex & _ & Hsc).
    apply skipn_cons_nth in Hskip as [Hnf Hskip'].
    destruct (scalar_kind_not_ptr (Typ f) Hsc) as [Hnp _].
    pose proof (plainRecords_nonempty f fs' x xs' (Z.of_nat (length done))) as Hne.
    destruct steps as [|steps].
    { destruct (plainRecords (f :: fs') (x :: xs') (Z.of_nat (length done)));
        [congruence | simpl in Hsteps; lia]. }
    rewrite de_messageLoop_S by exact Hne.
    cbn [plainRecords map] in *.
    set (key := Z.of_nat (length done) + 1) in *.
    assert (Hkey : 1 <= key < 2 ^ 31) by (subst key; simpl in Hcount; lia).
    destruct (@ConsumeTag_keyTag key (scalarWire (Typ f))
                (scalarPayload (Typ f) x ++ plainRecords fs' xs' key)
                Hkey (scalarWire_range (Typ f))) as [Htag Htaglen].
    assert (Hadv : advance (defaultEntries fs 0 0) c key = length done).
    { subst key. apply (advance_default fs (length done)) with (d := (length done - c)%nat).
      - simpl in Hcount. lia.
      - lia. }
    assert (Hpf : nth_error (defaultEntries fs 0 0) (advance (defaultEntries fs 0 0) c key)
                  = Some (mkProtoField key "" [length done] f)).
    { rewrite Hadv, (@defaultEntries_nth fs 0 0 (length done) f Hnf).
      subst key. do 2 f_equal. lia. }
    rewrite (@de_messageStep_matched
               (de_putvalue methods generators (S fuel)) nm (defaultEntries fs 0 0) c
               (mkBytes ((en_keyTag key (scalarWire (Typ f)) ++ scalarPayload (Typ f) x)
                           ++ plainRecords fs' xs' key) cap)
               (Deref t (VStruct (done ++ Zero (Typ f) :: map (fun f => Zero (Typ f)) fs')))
               key (scalarWire (Typ f)) (Z.of_nat (length (en_keyTag key (scalarWire (Typ f)))))
               (mkProtoField key "" [length done] f) (length done)
               (mkValue (Typ f) (Zero (Typ f)) true false false)).
    + rewrite <- app_assoc, slice_from_app.
      change (de_value_body (de_putvalue methods generators (S fuel)) nm)
        with (de_value methods generators (S fuel) nm).
      rewrite (@de_value_scalar methods generators fuel nm (Typ f) x (Zero (Typ f))
                 (plainRecords fs' xs' key) _ Hsc Hx).
      cbn [Deref Type_ val flagAddr flagStickyRO flagEmbedRO].
      rewrite (SetByIndex_top t fs _ (length done) f (Zero (Typ f)) (landed (Typ f) x) Hfs Hnf
                 (nth_error_app_here done _ _)).
      cbn [bind]. rewrite replaceNth_app, Hadv.
      change (mkValue t (VStruct (done ++ landed (Typ f) x :: map (fun f0 => Zero (Typ f0)) fs'))
                true false false)
        with (Deref t (VStruct (done ++ landed (Typ f) x :: map (fun f0 => Zero (Typ f0)) fs'))).
      replace (done ++ landed (Typ f) x :: map (fun f0 => Zero (Typ f0)) fs')
        with ((done ++ [landed (Typ f) x]) ++ map (fun f0 => Zero (Typ f0)) fs')
        by (now rewrite <- app_assoc).
      replace key with (Z.of_nat (length (done ++ [landed (Typ f) x])))
        by (subst key; rewrite length_app; simpl; lia).
      rewrite IH.
      * cbn [landedFields]. now rewrite <- app_assoc.
      * rewrite length_app. simpl. rewrite Nat.add_1_r. exact Hskip'.
      * rewrite length_app. simpl in *. lia.
      * exact Hplain.
      * exact Hfit.
      * rewrite length_app. simpl. lia.
      * replace (Z.of_nat (length (done ++ [landed (Typ f) x]))) with key
          by (subst key; rewrite length_app; simpl; lia).
        rewrite !length_app in Hsteps. simpl in Hsteps. lia.
    + cbn [data]. rewrite <- app_assoc. exact Htag.
    + lia.
    + exact Hpf.
    + reflexivity.
    + reflexivity.
    + apply (Field_exported t fs _ (length done) f (Zero (Typ f)) Hfs Hnf
               (nth_error_app_here done _ _) Hex).
    + cbn [Type_]. rewrite Hnp. reflexivity.
Qed.

Lemma resetFields_plain (sval : Value) (fs : list StructField) :
  flagAddr sval = true ->
  flagStickyRO sval = false ->
  forallb plainField fs = true ->
  forall ys, length ys = length fs ->
             resetFields sval fs ys = map (fun f => Zero (Typ f)) fs.
Proof.
  intros Ha Hs. induction fs as [|f fs IH]; intros Hplain ys Hlen.
  - destruct ys; [reflexivity | discriminate].
  - destruct ys as [|y ys]; [discriminate|].
    cbn [forallb] in Hplain. apply andb_prop in Hplain as [Hf Hplain].
    apply plainField_parts in Hf as (Hex & _ & Hsc).
    destruct (scalar_kind_not_ptr (Typ f) Hsc) as [_ Hni].
    cbn [resetFields map]. rewrite Ha, Hs, Hex. cbn [negb andb].
    rewrite (IH Hplain ys) by (simpl in Hlen; lia).
    destruct (kind (Typ f)); try reflexivity. congruence.
Qed.

(** X1.  Round trip of a struct of plain fields.  For a struct type all of
    whose fields are exported, untagged, not embedded and of a scalar type
    (bool, the signed and unsigned integers, the fixed-width types, the
    floats, string, []byte), and for contents that fit these types,
    [Encode] succeeds, and decoding its bytes into any struct of the type,
    whatever it holds and whatever spare capacity the buffer has, succeeds
    and leaves the contents encoded, with two differences that the code
    makes: a byte slice has its capacity cut to its length, and a
    [float32] that is a signalling NaN comes back quieted, since the code
    takes a [float32] through [float64] on both ways. *)
Theorem plain_struct_round_trip :
  forall methods generators (t : type) fs xs ys slack fuel,
    fieldsOf t = Some fs ->
    forallb plainField fs = true ->
    fitsFields fs xs = true ->
    length ys = length fs ->
    Z.of_nat (length fs) < 2 ^ 31 ->
    MarshalBinary (methods (TPtr t)) = None ->
    UnmarshalBinary (methods (TPtr t)) = None ->
    exists bytes,
      Encode methods generators (Some (TPtr t, VPtr (Some (VStruct xs)))) = Ok bytes
      /\ Decode methods generators (S fuel) (mkBytes bytes (length bytes + slack))
           (Some (TPtr t, VPtr (Some (VStruct ys))))
         = Ok (Some (TPtr t, VPtr (Some (VStruct (landedFields fs xs))))).
Proof.
  intros methods generators t fs xs ys slack fuel Hfs Hplain Hfit Hys Hlen Hm Hu.
  exists (plainRecords fs xs 0). split.
  - apply Encode_plain; assumption.
  - unfold Decode, DecodeWithConstructors.
    rewrite DecodeWith_body_ptr by exact Hu.
    destruct (@protoFields_untagged t fs Hfs (fieldsOf_kind t fs Hfs)
                (forallb_plain_untagged fs Hplain) Hlen) as [Hpf _].
    rewrite (@de_message_body_struct _ _ _ t fs ys (defaultEntries fs 0 0)
               (fieldsOf_kind t fs Hfs) Hfs Hpf).
    rewrite (resetFields_plain (Deref t (VStruct ys)) fs eq_refl eq_refl Hplain ys Hys).
    unfold blen. cbn [data].
    rewrite (de_messageLoop_plain methods generators fuel [] t fs Hfs Hlen
               fs xs [] 0%nat (length (plainRecords fs xs 0)) _
               eq_refl eq_refl Hplain Hfit (Nat.le_refl _) (Nat.le_refl _)).
    reflexivity.
Qed.

Lemma plain_struct_round_trip_witness :
  exists bytes,
    Encode noM [] (Some (TPtr sampleStruct, VPtr (Some (VStruct sampleValue)))) = Ok bytes
    /\ Decode noM [] 1 (mkBytes bytes (length bytes + 16))
         (Some (TPtr sampleStruct, VPtr (Some (VStruct sampleFilled))))
       = Ok (Some (TPtr sampleStruct, VPtr (Some (VStruct (landedFields sampleFields sampleValue))))).
Proof.
  apply (plain_struct_round_trip noM [] sampleStruct sampleFields sampleValue
           sampleFilled 16%nat 0%nat);
    (reflexivity || (simpl; lia)).
Defined.

(** * Further properties of the resolver, the encoder and the decoder *)

Lemma defaultEntries_maps (fs : list StructField) :
  forall i id,
    map ID (defaultEntries fs i id)
    = map (fun k => id + 1 + Z.of_nat k) (seq 0 (length fs))
    /\ map Index (defaultEntries fs i id)
       = map (fun k => [(i + k)%nat]) (seq 0 (length fs))
    /\ map Field (defaultEntries fs i id) = fs.
Proof.
  induction fs as [|f fs IH]; intros i id; [repeat split|].
  destruct (IH (S i) (id + 1)) as (H1 & H2 & H3).
  cbn [defaultEntries length seq map ID Index Field].
  rewrite <- seq_shift, !map_map, H1, H2, H3.
  repeat split.
  - rewrite Z.add_0_r. f_equal. apply map_ext. intros k. lia.
  - rewrite Nat.add_0_r. f_equal. apply map_ext. intros k.
    f_equal. lia.
Qed.

(** X2.  Positional numbering: a struct type, named or not, none of whose
    fields has a tag or is an embedded member resolves to one entry per
    field, in the order of declaration; the field at position [j] gets the
    number [j + 1] and the path [[j]]; no number is reused, so the
    resolution succeeds. *)
Theorem untagged_fields_numbered_by_position :
  forall (t : type) (fs : list StructField),
    fieldsOf t = Some fs ->
    forallb untagged fs = true ->
    Z.of_nat (length fs) < 2 ^ 31 ->
    exists idx,
      protoFields t = Ok idx
      /\ map Field idx = fs
      /\ map ID idx = map (fun j => Z.of_nat j + 1) (seq 0 (length fs))
      /\ map Index idx = map (fun j => [j]) (seq 0 (length fs)).
Proof.
  intros t fs Hfs Hun Hlen.
  destruct (@protoFields_untagged t fs Hfs (fieldsOf_kind t fs Hfs) Hun Hlen)
    as [Hpf _].
  destruct (defaultEntries_maps fs 0 0) as (H1 & H2 & H3).
  exists (defaultEntries fs 0 0). split; [exact Hpf|]. split; [exact H3|]. split.
  - rewrite H1. apply map_ext. intros j. lia.
  - exact H2.
Qed.

Lemma untagged_fields_numbered_by_position_witness :
  exists idx,
    protoFields sampleStruct = Ok idx
    /\ map Field idx = sampleFields
    /\ map ID idx = map (fun j => Z.of_nat j + 1) (seq 0 (length sampleFields))
    /\ map Index idx = map (fun j => [j]) (seq 0 (length sampleFields)).
Proof.
  apply (untagged_fields_numbered_by_position sampleStruct sampleFields).
  - reflexivity.
  - reflexivity.
  - simpl. lia.
Defined.

(** X3.  Varints.  Every unsigned 64-bit number is written by
    [en.uvarint] in one to ten bytes, and [de.value] with the varint wire
    type reads exactly these bytes back, hands the number to [putvalue]
    and returns what follows them; a signed number written by
    [en.svarint] comes back as itself after the conversion to [int64]. *)
Theorem varint_read_back :
  forall recp nm (u i : Z) (rest : list Z) (c : nat) (val : Value),
    0 <= u < 2 ^ 64 ->
    - 2 ^ 63 <= i < 2 ^ 63 ->
    (1 <= length (en_uvarint u) <= 10)%nat
    /\ de_value_body recp nm protowire.VarintType
         (mkBytes (en_uvarint u ++ rest) c) (Some val)
       = (x <- recp nm protowire.VarintType val u (mkBytes [] 0) ;;
          Ok (mkBytes rest (c - length (en_uvarint u)), Some x))
    /\ en_svarint i = en_uvarint (wrap64 i)
    /\ de_decodeSignedInt protowire.VarintType (wrap64 i) = Ok i.
Proof.
  intros recp nm u i rest c val Hu Hi.
  destruct (@ConsumeVarint_uvarint u rest Hu) as [_ Hlen].
  split; [exact Hlen|]. split; [|split].
  - apply de_value_body_uvarint. exact Hu.
  - reflexivity.
  - unfold de_decodeSignedInt.
    change (protowire.VarintType =? protowire.VarintType) with true.
    cbv iota. f_equal. zmod.
Qed.

Lemma varint_read_back_witness :
  (1 <= length (en_uvarint 300) <= 10)%nat
  /\ de_value_body (de_putvalue noM [] 1) [] protowire.VarintType
       (mkBytes (en_uvarint 300 ++ [8; 1]) 9)
       (Some (mkValue uint32Type (VUint 0) true false false))
     = (x <- de_putvalue noM [] 1 [] protowire.VarintType
               (mkValue uint32Type (VUint 0) true false false) 300 (mkBytes [] 0) ;;
        Ok (mkBytes [8; 1] (9 - length (en_uvarint 300)), Some x))
  /\ en_svarint (-2) = en_uvarint (wrap64 (-2))
  /\ de_decodeSignedInt protowire.VarintType (wrap64 (-2)) = Ok (-2).
Proof.
  apply (varint_read_back (de_putvalue noM [] 1) [] 300 (-2) [8; 1] 9%nat
           (mkValue uint32Type (VUint 0) true false false));
    simpl; lia.
Defined.

(** X4.  Fixed-width numbers.  [en.u32] writes four bytes and [en.u64]
    eight, low byte first; [de.value] with the fixed32 (fixed64) wire type
    reads them back as the number modulo 2^32 (2^64), consuming exactly
    these bytes; with fewer bytes left than the width it fails. *)
Theorem fixed_read_back :
  forall recp nm (v : Z) (rest short : list Z) (c : nat) (val : Value),
    (length short < 4)%nat ->
    length (en_u32 v) = 4%nat
    /\ length (en_u64 v) = 8%nat
    /\ de_value_body recp nm protowire.Fixed32Type
         (mkBytes (en_u32 v ++ rest) c) (Some val)
       = (x <- recp nm protowire.Fixed32Type val (v mod 2 ^ 32) (mkBytes [] 0) ;;
          Ok (mkBytes rest (c - 4), Some x))
    /\ de_value_body recp nm protowire.Fixed64Type
         (mkBytes (en_u64 v ++ rest) c) (Some val)
       = (x <- recp nm protowire.Fixed64Type val (v mod 2 ^ 64) (mkBytes [] 0) ;;
          Ok (mkBytes rest (c - 8), Some x))
    /\ de_value_body recp nm protowire.Fixed32Type (mkBytes short c) (Some val)
       = Err "bad protobuf 32-bit value"
    /\ de_value_body recp nm protowire.Fixed64Type (mkBytes short c) (Some val)
       = Err "bad protobuf 64-bit value".
Proof.
  intros recp nm v rest short c val Hshort.
  split; [reflexivity|]. split; [reflexivity|]. split; [|split; [|split]].
  - apply de_value_body_u32.
  - apply de_value_body_u64.
  - unfold de_value_body.
    change (protowire.Fixed32Type =? protowire.VarintType) with false.
    change (protowire.Fixed32Type =? protowire.Fixed32Type) with true.
    cbv iota. unfold protowire.ConsumeFixed32. cbn [data].
    destruct (Nat.ltb_spec (length short) 4); [reflexivity | lia].
  - unfold de_value_body.
    change (protowire.Fixed64Type =? protowire.VarintType) with false.
    change (protowire.Fixed64Type =? protowire.Fixed32Type) with false.
    change (protowire.Fixed64Type =? protowire.Fixed64Type) with true.
    cbv iota. unfold protowire.ConsumeFixed64. cbn [data].
    destruct (Nat.ltb_spec (length short) 8); [reflexivity | lia].
Qed.

Lemma fixed_read_back_witness :
  length (en_u32 (-1)) = 4%nat
  /\ length (en_u64 (-1)) = 8%nat
  /\ de_value_body (de_putvalue noM [] 1) [] protowire.Fixed32Type
       (mkBytes (en_u32 (-1) ++ [7]) 5)
       (Some (mkValue sfixed32type (VInt 0) true false false))
     = (x <- de_putvalue noM [] 1 [] protowire.Fixed32Type
               (mkValue sfixed32type (VInt 0) true false false) ((-1) mod 2 ^ 32)
               (mkBytes [] 0) ;;
        Ok (mkBytes [7] (5 - 4), Some x))
  /\ de_value_body (de_putvalue noM [] 1) [] protowire.Fixed64Type
       (mkBytes (en_u64 (-1) ++ [7]) 5)
       (Some (mkValue sfixed32type (VInt 0) true false false))
     = (x <- de_putvalue noM [] 1 [] protowire.Fixed64Type
               (mkValue sfixed32type (VInt 0) true false false) ((-1) mod 2 ^ 64)
               (mkBytes [] 0) ;;
        Ok (mkBytes [7] (5 - 8), Some x))
  /\ de_value_body (de_putvalue noM [] 1) [] protowire.Fixed32Type
       (mkBytes [1; 2; 3] 5) (Some (mkValue sfixed32type (VInt 0) true false false))
     = Err "bad protobuf 32-bit value"
  /\ de_value_body (de_putvalue noM [] 1) [] protowire.Fixed64Type
       (mkBytes [1; 2; 3] 5) (Some (mkValue sfixed32type (VInt 0) true false false))
     = Err "bad protobuf 64-bit value".
Proof.
  apply (fixed_read_back (de_putvalue noM [] 1) [] (-1) [7] [1; 2; 3] 5%nat
           (mkValue sfixed32type (VInt 0) true false false)).
  simpl. lia.
Defined.

(** X5.  Keys.  For a field number from 1 to 2^31 - 1 and any of the
    wire types 0 to 7, what [en.keyTag] writes is read back by
    [protowire.ConsumeTag], as the loop of [de.message] calls it, as the
    same number and wire type, consuming exactly the bytes written. *)
Theorem keyTag_read_back :
  forall (key wt : Z) (rest : list Z),
    1 <= key < 2 ^ 31 ->
    0 <= wt < 8 ->
    protowire.ConsumeTag (en_keyTag key wt ++ rest)
    = (key, wt, Z.of_nat (length (en_keyTag key wt)))
    /\ (1 <= length (en_keyTag key wt) <= 10)%nat.
Proof.
  intros key wt rest Hk Hw.
  destruct (@ConsumeTag_keyTag key wt rest Hk Hw) as [Htag Hlen].
  split; [exact Htag|]. split; [exact Hlen|].
  unfold en_keyTag, en_uvarint, protowire.AppendVarint. cbn [app].
  pose proof (varint_bytes_length 9 (wrap64 (protowire.EncodeTag key wt))). lia.
Qed.

Lemma keyTag_read_back_witness :
  protowire.ConsumeTag (en_keyTag 3 2 ++ [3; 8; 150; 1])
  = (3, 2, Z.of_nat (length (en_keyTag 3 2)))
  /\ (1 <= length (en_keyTag 3 2) <= 10)%nat.
Proof.
  apply (keyTag_read_back 3 2 [3; 8; 150; 1]); simpl; lia.
Defined.

Fixpoint type_eqb_refl (a : type) {struct a} : type_eqb a a = true
with field_eqb_refl (x : StructField) {struct x} : field_eqb x x = true.
Proof.
  - destruct a; simpl.
    + apply Kind_eqb_refl.
    + rewrite String.eqb_refl. apply type_eqb_refl.
    + induction fields as [|f fs IH]; [reflexivity|].
      rewrite field_eqb_refl. exact IH.
    + apply type_eqb_refl.
    + apply type_eqb_refl.
    + rewrite Nat.eqb_refl. apply type_eqb_refl.
    + rewrite !type_eqb_refl. reflexivity.
    + apply String.eqb_refl.
    + reflexivity.
  - destruct x; simpl.
    rewrite !String.eqb_refl, type_eqb_refl, Bool.eqb_reflx. reflexivity.
Qed.

(** X6.  The cache of [ProtoFields] only saves work.  In every state of
    the cache that calls of [ProtoFields] can produce, the call for a type
    returns what resolving the type afresh returns; a list that is
    returned has pairwise distinct field numbers; and a second call for
    the same type returns the same result and leaves the cache as the
    first call left it. *)
Theorem ProtoFields_memoized :
  forall (c : Cache) (t : type),
    reachable c ->
    fst (ProtoFields c t) = protoFields t
    /\ match fst (ProtoFields c t) with
       | Ok idx => NoDup (map ID idx)
       | _ => True
       end
    /\ ProtoFields (snd (ProtoFields c t)) t
       = (protoFields t, snd (ProtoFields c t)).
Proof.
  intros c t Hc.
  assert (Hfst : fst (ProtoFields c t) = protoFields t).
  { unfold ProtoFields. destruct (cacheGet c t) as [idx|] eqn:Hget.
    - simpl. symmetry. exact (@reachable_sound c Hc t idx Hget).
    - destruct (protoFields t); reflexivity. }
  split; [exact Hfst|]. split.
  - rewrite Hfst. unfold protoFields.
    destruct (innerFieldIndexes 0 t) as [[idx' n]| | | |]; simpl; try exact I.
    destruct (firstReused [] idx') eqn:Hscan; [exact I|].
    exact (proj1 (@firstReused_None idx' [] Hscan)).
  - unfold ProtoFields at 2 3.
    destruct (cacheGet c t) as [idx|] eqn:Hget.
    + simpl. unfold ProtoFields. rewrite Hget.
      now rewrite (@reachable_sound c Hc t idx Hget).
    + destruct (protoFields t) as [idx| | | |] eqn:Hres; simpl;
        unfold ProtoFields; simpl; rewrite ?type_eqb_refl, ?Hget, ?Hres; reflexivity.
Qed.

Lemma ProtoFields_memoized_witness :
  fst (ProtoFields [] TestNestedOuter) = protoFields TestNestedOuter
  /\ match fst (ProtoFields [] TestNestedOuter) with
     | Ok idx => NoDup (map ID idx)
     | _ => True
     end
  /\ ProtoFields (snd (ProtoFields [] TestNestedOuter)) TestNestedOuter
     = (protoFields TestNestedOuter, snd (ProtoFields [] TestNestedOuter)).
Proof.
  apply (ProtoFields_memoized [] TestNestedOuter). constructor.
Defined.

(** ** Progress of the decoder *)

Lemma slice_from_shorter (buf : Bytes) (n : Z) :
  0 < n -> data buf <> [] ->
  (blen (slice_from buf (Z.to_nat n)) < blen buf)%nat.
Proof.
  intros Hn Hne. unfold blen, slice_from. cbn [data].
  rewrite length_skipn. assert (Hpos : (1 <= Z.to_nat n)%nat) by lia.
  destruct (data buf) as [|y l]; [congruence|]. cbn [length]. lia.
Qed.

Lemma slice_from_le (buf : Bytes) (n : nat) :
  (blen (slice_from buf n) <= blen buf)%nat.
Proof. unfold blen, slice_from. cbn [data]. rewrite length_skipn. lia. Qed.

(** Whatever [de.value] returns, it has consumed at least one byte. *)
Lemma de_value_body_shorter recp nm wt buf val rem x :
  de_value_body recp nm wt buf val = Ok (rem, x) ->
  (blen rem < blen buf)%nat.
Proof.
  unfold de_value_body. intros H.
  assert (Hcase :
    forall (p : result (Z * Bytes * Bytes)),
      (forall v vb buf', p = Ok (v, vb, buf') -> (blen buf' < blen buf)%nat) ->
      (a <- p ;; (let '(v, vb, buf') := a in
                  match val with
                  | None => Ok (buf', None)
                  | Some val0 => x0 <- recp nm wt val0 v vb ;; Ok (buf', Some x0)
                  end)) = Ok (rem, x) ->
      (blen rem < blen buf)%nat).
  { intros p Hp Hb. destruct p as [[[v vb] buf']| | | |]; try discriminate.
    simpl in Hb. specialize (Hp v vb buf' eq_refl).
    destruct val as [val0|].
    - destruct (recp nm wt val0 v vb); try discriminate.
      simpl in Hb. injection Hb as <- _. exact Hp.
    - injection Hb as <- _. exact Hp. }
  refine (Hcase _ _ H). clear Hcase H.
  intros v vb buf' Hp.
  assert (Hne : forall n, (n <=? 0) = false -> 0 < n) by (intros n Hn; lia).
  destruct (wt =? protowire.VarintType).
  { destruct (protowire.ConsumeVarint (data buf)) as [v0 n] eqn:Hc.
    destruct (n <=? 0) eqn:Hn; [discriminate|]. injection Hp as _ _ <-.
    apply slice_from_shorter; [auto|]. intros He. rewrite He in Hc.
    vm_compute in Hc. injection Hc as _ <-. discriminate. }
  destruct (wt =? protowire.Fixed32Type).
  { destruct (protowire.ConsumeFixed32 (data buf)) as [v0 n] eqn:Hc.
    destruct (n <=? 0) eqn:Hn; [discriminate|]. injection Hp as _ _ <-.
    apply slice_from_shorter; [auto|]. intros He. rewrite He in Hc.
    vm_compute in Hc. injection Hc as _ <-. discriminate. }
  destruct (wt =? protowire.Fixed64Type).
  { destruct (protowire.ConsumeFixed64 (data buf)) as [v0 n] eqn:Hc.
    destruct (n <=? 0) eqn:Hn; [discriminate|]. injection Hp as _ _ <-.
    apply slice_from_shorter; [auto|]. intros He. rewrite He in Hc.
    vm_compute in Hc. injection Hc as _ <-. discriminate. }
  destruct (wt =? protowire.BytesType).
  { destruct (protowire.ConsumeBytes buf) as [v0 n] eqn:Hc.
    destruct (n <=? 0) eqn:Hn; [discriminate|]. injection Hp as _ _ <-.
    apply slice_from_shorter; [auto|]. intros He.
    unfold protowire.ConsumeBytes in Hc. rewrite He in Hc.
    vm_compute in Hc. injection Hc as _ <-. discriminate. }
  discriminate.
Qed.

Lemma de_messageStep_shorter recp nm fields s s' :
  de_messageStep recp nm fields s = Ok s' ->
  (blen (l_buf s') < blen (l_buf s))%nat.
Proof.
  unfold de_messageStep. intros H.
  destruct (protowire.ConsumeTag (data (l_buf s))) as [[num wt] n].
  destruct (n <=? 0); [discriminate|].
  destruct_bind H. destruct a as [sval field].
  destruct (de_value_body recp nm wt _ _) as [[rem x]| | | |] eqn:Hv;
    try discriminate.
  destruct_bind H. injection H as <-. cbn [l_buf].
  apply de_value_body_shorter in Hv.
  pose proof (slice_from_le (l_buf s) (Z.to_nat n)). lia.
Qed.

(** Once the loop may take as many turns as the buffer has bytes, the
    number of turns it may take does not matter. *)
Lemma de_messageLoop_enough recp nm fields :
  forall steps steps' s,
    (blen (l_buf s) <= steps)%nat ->
    (blen (l_buf s) <= steps')%nat ->
    de_messageLoop recp nm steps fields s = de_messageLoop recp nm steps' fields s.
Proof.
  induction steps as [|steps IH]; intros steps' s Hs Hs'.
  - assert (Hb : blen (l_buf s) = 0%nat) by lia.
    destruct steps'; cbn [de_messageLoop]; rewrite Hb; reflexivity.
  - destruct steps' as [|steps'].
    + assert (Hb : blen (l_buf s) = 0%nat) by lia.
      cbn [de_messageLoop]. rewrite Hb. reflexivity.
    + cbn [de_messageLoop].
      destruct (blen (l_buf s) =? 0)%nat; [reflexivity|].
      destruct (de_messageStep recp nm fields s) as [s1| | | |] eqn:Hstep;
        try reflexivity.
      cbn [bind]. apply de_messageStep_shorter in Hstep.
      apply IH; lia.
Qed.

(** X7.  The loop of [de.message] makes progress.  Every turn that
    succeeds leaves a strictly shorter buffer, so that the loop takes at
    most as many turns as the buffer has bytes: whatever the recursive
    call for a field does, the loop gives the same result for every bound
    on its turns that is not below the length of the buffer, and that
    result is the result of the loop on what the first turn leaves.  The
    bound of the model is therefore never what ends the loop, and on
    malformed or hostile input the loop cannot spin. *)
Theorem decode_loop_makes_progress :
  forall recp nm fields (s s' : loopState) (steps steps' : nat),
    (blen (l_buf s) <= steps)%nat ->
    (blen (l_buf s) <= steps')%nat ->
    de_messageStep recp nm fields s = Ok s' ->
    (blen (l_buf s') < blen (l_buf s))%nat
    /\ de_messageLoop recp nm steps fields s
       = de_messageLoop recp nm steps' fields s
    /\ de_messageLoop recp nm steps fields s
       = de_messageLoop recp nm (blen (l_buf s')) fields s'.
Proof.
  intros recp nm fields s s' steps steps' Hsteps Hsteps' Hstep.
  pose proof (@de_messageStep_shorter recp nm fields s s' Hstep) as Hshort.
  split; [exact Hshort|]. split.
  - now apply de_messageLoop_enough.
  - destruct steps as [|k]; [lia|].
    cbn [de_messageLoop].
    destruct (Nat.eqb_spec (blen (l_buf s)) 0) as [Hz|_]; [lia|].
    rewrite Hstep. cbn [bind].
    apply de_messageLoop_enough; lia.
Qed.

Lemma decode_loop_makes_progress_witness :
  (blen (l_buf (mkLoop 0 (mkBytes [255]%Z 1)
                  (Deref pairStruct (VStruct [VInt 1; VInt 0]))))
   < blen (l_buf (mkLoop 0 (mkBytes [8; 1; 255]%Z 3)
                    (Deref pairStruct (Zero pairStruct)))))%nat
  /\ de_messageLoop (de_putvalue noM [] 1) [] 3
       [ mkProtoField 1 "" [0%nat] (mkField "A" "" int32Type "" false);
         mkProtoField 2 "" [1%nat] (mkField "B" "" int32Type "" false) ]
       (mkLoop 0 (mkBytes [8; 1; 255] 3) (Deref pairStruct (Zero pairStruct)))
     = de_messageLoop (de_putvalue noM [] 1) [] 7
         [ mkProtoField 1 "" [0%nat] (mkField "A" "" int32Type "" false);
           mkProtoField 2 "" [1%nat] (mkField "B" "" int32Type "" false) ]
         (mkLoop 0 (mkBytes [8; 1; 255] 3) (Deref pairStruct (Zero pairStruct)))
  /\ de_messageLoop (de_putvalue noM [] 1) [] 3
       [ mkProtoField 1 "" [0%nat] (mkField "A" "" int32Type "" false);
         mkProtoField 2 "" [1%nat] (mkField "B" "" int32Type "" false) ]
       (mkLoop 0 (mkBytes [8; 1; 255] 3) (Deref pairStruct (Zero pairStruct)))
     = de_messageLoop (de_putvalue noM [] 1) []
         (blen (l_buf (mkLoop 0 (mkBytes [255]%Z 1)
                         (Deref pairStruct (VStruct [VInt 1; VInt 0])))))
         [ mkProtoField 1 "" [0%nat] (mkField "A" "" int32Type "" false);
           mkProtoField 2 "" [1%nat] (mkField "B" "" int32Type "" false) ]
         (mkLoop 0 (mkBytes [255] 1) (Deref pairStruct (VStruct [VInt 1; VInt 0]))).
Proof.
  apply (decode_loop_makes_progress (de_putvalue noM [] 1) []
           [ mkProtoField 1 "" [0%nat] (mkField "A" "" int32Type "" false);
             mkProtoField 2 "" [1%nat] (mkField "B" "" int32Type "" false) ]
           (mkLoop 0 (mkBytes [8; 1; 255] 3) (Deref pairStruct (Zero pairStruct)))
           (mkLoop 0 (mkBytes [255] 1) (Deref pairStruct (VStruct [VInt 1; VInt 0])))
           3%nat 7%nat).
  - unfold blen. simpl. lia.
  - unfold blen. simpl. lia.
  - reflexivity.
Defined.

(** ** Padding fields *)

Lemma Field_unexported (t : type) fs xs i f x :
  fieldsOf t = Some fs ->
  nth_error fs i = Some f ->
  nth_error xs i = Some x ->
  IsExported f = false ->
  exists fv,
    reflect.Field (Deref t (VStruct xs)) i = Ok fv
    /\ CanSet fv = false /\ Type_ fv = Typ f /\ val fv = x.
Proof.
  intros Hfs Hf Hx Hex. unfold reflect.Field, Deref.
  cbn [Type_ val flagAddr flagStickyRO]. rewrite Hfs, Hf, Hx, Hex.
  eexists. split; [reflexivity|]. unfold CanSet, flagRO.
  cbn [flagAddr flagStickyRO flagEmbedRO negb andb orb Type_ val].
  destruct (Anonymous f); repeat split; reflexivity.
Qed.

Lemma en_fields_padding recv (t : type) fs xs :
  fieldsOf t = Some fs ->
  length xs = length fs ->
  forall fs' i id,
    skipn i fs = fs' ->
    forallb paddingField fs' = true ->
    en_fields recv (Deref t (VStruct xs)) (defaultEntries fs' i id) = Ok ([], true).
Proof.
  intros Hfs Hlen. induction fs' as [|f fs' IH]; intros i id Hskip Hpad; [reflexivity|].
  cbn [forallb] in Hpad. apply andb_prop in Hpad as [Hf Hpad].
  unfold paddingField in Hf. apply andb_prop in Hf as [Hex _].
  apply negb_true_iff in Hex.
  apply skipn_cons_nth in Hskip as [Hnf Hskip'].
  destruct (nth_error xs i) as [x|] eqn:Hx.
  2:{ apply nth_error_None in Hx.
      assert (i < length fs)%nat by (apply nth_error_Some; congruence). lia. }
  destruct (Field_unexported t fs xs i f x Hfs Hnf Hx Hex) as (fv & Hfv & Hset & _).
  cbn [defaultEntries en_fields Index ID Field FieldByIndex fieldByIndex_rest].
  rewrite Hfv. cbn [bind]. rewrite Hset. cbn [repanic bind].
  rewrite (IH (S i) (id + 1) Hskip' Hpad). reflexivity.
Qed.

Lemma forallb_padding_untagged (fs : list StructField) :
  forallb paddingField fs = true -> forallb untagged fs = true.
Proof.
  induction fs as [|f fs IH]; [reflexivity|]. cbn [forallb]. intros H.
  apply andb_prop in H as [Hf Hfs]. unfold paddingField in Hf.
  apply andb_prop in Hf as [_ Hu]. rewrite Hu. now apply IH.
Qed.

Lemma last_defaultEntries (fs : list StructField) :
  forall i id fl d,
    Field (last (defaultEntries (fs ++ [fl]) i id) d) = fl.
Proof.
  induction fs as [|f fs IH]; intros i id fl d; [reflexivity|].
  cbn [app defaultEntries].
  destruct (defaultEntries (fs ++ [fl]) (S i) (id + 1)) eqn:Hd.
  - destruct fs; discriminate.
  - rewrite <- Hd. cbn [last]. rewrite Hd. rewrite <- Hd. apply IH.
Qed.

(** X8.  A struct without a field to write.  [Encode] of a pointer to a
    struct all of whose fields are unexported (and untagged) fails with the
    error "struct has no serializable fields", which names the last field;
    whereas a struct without any field is encoded, as no bytes. *)
Theorem no_exported_field_is_error :
  forall methods generators (t t0 : type) init fl xs,
    fieldsOf t = Some (init ++ [fl]) ->
    forallb paddingField (init ++ [fl]) = true ->
    length xs = length (init ++ [fl]) ->
    Z.of_nat (length (init ++ [fl])) < 2 ^ 31 ->
    MarshalBinary (methods (TPtr t)) = None ->
    fieldsOf t0 = Some [] ->
    MarshalBinary (methods (TPtr t0)) = None ->
    Encode methods generators (Some (TPtr t, VPtr (Some (VStruct xs))))
    = Err ("struct has no serializable fields (field " ++ reflect.Name fl ++ ")")
    /\ Encode methods generators (Some (TPtr t0, VPtr (Some (VStruct [])))) = Ok [].
Proof.
  intros methods generators t t0 init fl xs Hfs Hpad Hlen Hn Hm Hfs0 Hm0. split.
  - unfold Encode. rewrite Hm. cbn [kind Kind_eqb negb Elem].
    destruct (@protoFields_untagged t (init ++ [fl]) Hfs (fieldsOf_kind t _ Hfs)
                (forallb_padding_untagged _ Hpad) Hn) as [Hpf _].
    unfold en_message, en_message_body. cbn [Deref Type_]. rewrite Hpf. cbn [bind].
    change (mkValue t (VStruct xs) true false false) with (Deref t (VStruct xs)).
    rewrite (en_fields_padding _ t (init ++ [fl]) xs Hfs Hlen (init ++ [fl]) 0%nat 0
               eq_refl Hpad).
    destruct (defaultEntries (init ++ [fl]) 0 0) eqn:Hd.
    { destruct init; discriminate. }
    rewrite <- Hd. cbn [bind]. rewrite last_defaultEntries. reflexivity.
  - unfold Encode. rewrite Hm0. cbn [kind Kind_eqb negb Elem].
    assert (H0 : Z.of_nat (@length StructField []) < 2 ^ 31) by (simpl; lia).
    destruct (@protoFields_untagged t0 [] Hfs0 (fieldsOf_kind t0 _ Hfs0) eq_refl H0)
      as [Hpf _].
    unfold en_message, en_message_body. cbn [Deref Type_]. rewrite Hpf.
    reflexivity.
Qed.

Lemma no_exported_field_is_error_witness :
  Encode noM [] (Some (TPtr privateStruct, VPtr (Some (VStruct [VInt 37]))))
  = Err ("struct has no serializable fields (field "
           ++ reflect.Name (mkField "a" "protobuf_test" intType "" false) ++ ")")
  /\ Encode noM [] (Some (TPtr (TStruct []), VPtr (Some (VStruct [])))) = Ok [].
Proof.
  apply (no_exported_field_is_error noM [] privateStruct (TStruct []) []
           (mkField "a" "protobuf_test" intType "" false) [VInt 37]);
    (reflexivity || (simpl; lia)).
Defined.

(** Parsing a payload does not depend on the destination: with one, the
    same value and rest of the buffer go to [putvalue]. *)
Lemma de_value_body_parsed wt buf rem :
  skipPayload wt buf = Ok rem ->
  exists v vb,
    forall recp nm val,
      de_value_body recp nm wt buf (Some val)
      = (x <- recp nm wt val v vb ;; Ok (rem, Some x)).
Proof.
  unfold skipPayload, de_value_body. intros H.
  destruct (wt =? protowire.VarintType).
  { destruct (protowire.ConsumeVarint (data buf)) as [v n].
    destruct (n <=? 0); [discriminate|]. injection H as <-.
    exists v, (mkBytes [] 0). reflexivity. }
  destruct (wt =? protowire.Fixed32Type).
  { destruct (protowire.ConsumeFixed32 (data buf)) as [v n].
    destruct (n <=? 0); [discriminate|]. injection H as <-.
    exists v, (mkBytes [] 0). reflexivity. }
  destruct (wt =? protowire.Fixed64Type).
  { destruct (protowire.ConsumeFixed64 (data buf)) as [v n].
    destruct (n <=? 0); [discriminate|]. injection H as <-.
    exists v, (mkBytes [] 0). reflexivity. }
  destruct (wt =? protowire.BytesType).
  { destruct (protowire.ConsumeBytes buf) as [vb n].
    destruct (n <=? 0); [discriminate|]. injection H as <-.
    exists 0, (slice3 vb (blen vb) (blen vb)). reflexivity. }
  discriminate.
Qed.

Lemma skipPayload_of_value recp nm wt buf val rem x :
  de_value_body recp nm wt buf (Some val) = Ok (rem, x) ->
  skipPayload wt buf = Ok rem.
Proof.
  unfold skipPayload, de_value_body. intros H.
  destruct (wt =? protowire.VarintType).
  { destruct (protowire.ConsumeVarint (data buf)) as [v n].
    destruct (n <=? 0); [discriminate|]. cbn [bind] in *.
    destruct (recp nm wt val v _); try discriminate. now injection H as <- _. }
  destruct (wt =? protowire.Fixed32Type).
  { destruct (protowire.ConsumeFixed32 (data buf)) as [v n].
    destruct (n <=? 0); [discriminate|]. cbn [bind] in *.
    destruct (recp nm wt val v _); try discriminate. now injection H as <- _. }
  destruct (wt =? protowire.Fixed64Type).
  { destruct (protowire.ConsumeFixed64 (data buf)) as [v n].
    destruct (n <=? 0); [discriminate|]. cbn [bind] in *.
    destruct (recp nm wt val v _); try discriminate. now injection H as <- _. }
  destruct (wt =? protowire.BytesType).
  { destruct (protowire.ConsumeBytes buf) as [vb n].
    destruct (n <=? 0); [discriminate|]. cbn [bind] in *.
    destruct (recp nm wt val 0 _); try discriminate. now injection H as <- _. }
  discriminate.
Qed.

Lemma replaceNth_same {A} (l : list A) :
  forall i x, nth_error l i = Some x -> replaceNth l i x = l.
Proof.
  induction l as [|y l IH]; intros i x H; [reflexivity|].
  destruct i as [|i]; simpl in *.
  - now injection H as ->.
  - f_equal. now apply IH.
Qed.

Lemma putvalue_not_settable methods generators fuel nm wt (fv : Value) v vb :
  CanSet fv = false ->
  de_putvalue methods generators (S fuel) nm wt fv v vb = Ok (val fv).
Proof.
  intros H. rewrite de_putvalue_S. unfold de_putvalue_body. rewrite H. reflexivity.
Qed.

(** X9.  Padding fields on decoding.  A record whose number is that of
    an unexported field (not a nil pointer) is parsed like any other, but
    nothing is written: the struct is after the turn of the loop what it
    was before, whatever the payload, well-formed for its wire type, holds. *)
Theorem padding_field_is_not_written :
  forall methods generators fuel nm (t : type) fs xs fields fieldi buf
         num wt k pf i f x rem,
    fieldsOf t = Some fs ->
    nth_error fs i = Some f ->
    nth_error xs i = Some x ->
    IsExported f = false ->
    Kind_eqb (kind (Typ f)) Ptr = false ->
    protowire.ConsumeTag (data buf) = (num, wt, k) ->
    0 < k ->
    nth_error fields (advance fields fieldi num) = Some pf ->
    ID pf = num ->
    Index pf = [i] ->
    skipPayload wt (slice_from buf (Z.to_nat k)) = Ok rem ->
    de_messageStep (de_putvalue methods generators (S fuel)) nm fields
      (mkLoop fieldi buf (Deref t (VStruct xs)))
    = Ok (mkLoop (advance fields fieldi num) rem (Deref t (VStruct xs))).
Proof.
  intros methods generators fuel nm t fs xs fields fieldi buf num wt k pf i f x rem
         Hfs Hf Hx Hex Hnp Htag Hk Hnth Hid Hidx Hskip.
  destruct (Field_unexported t fs xs i f x Hfs Hf Hx Hex) as (fv & Hfv & Hset & Hty & Hval).
  rewrite (@de_messageStep_matched _ nm fields fieldi buf (Deref t (VStruct xs))
             num wt k pf i fv Htag Hk Hnth Hid Hidx Hfv)
    by (rewrite Hty, Hnp; reflexivity).
  destruct (de_value_body_parsed wt _ rem Hskip) as (v & vb & Hparse).
  rewrite Hparse, putvalue_not_settable by exact Hset.
  cbn [bind Deref Type_ val flagAddr flagStickyRO flagEmbedRO].
  rewrite (SetByIndex_top t fs xs i f x (val fv) Hfs Hf Hx). cbn [bind].
  rewrite Hval, (replaceNth_same xs i x Hx). reflexivity.
Qed.

Lemma padding_field_is_not_written_witness :
  de_messageStep (de_putvalue noM [] 1) []
    (defaultEntries [ mkField "Field1" "" int32Type "" false;
                      mkField "_" "protobuf_test" intType "" false;
                      mkField "Field3" "" int32Type "" false ] 0 0)
    (mkLoop 0 (mkBytes [16; 9; 24; 7] 4)
       (Deref paddedStruct (VStruct [VInt 1; VInt 2; VInt 3])))
  = Ok (mkLoop
          (advance (defaultEntries [ mkField "Field1" "" int32Type "" false;
                                     mkField "_" "protobuf_test" intType "" false;
                                     mkField "Field3" "" int32Type "" false ] 0 0) 0 2)
          (mkBytes [24; 7] 2)
          (Deref paddedStruct (VStruct [VInt 1; VInt 2; VInt 3]))).
Proof.
  apply (padding_field_is_not_written noM [] 0%nat [] paddedStruct
           [ mkField "Field1" "" int32Type "" false;
             mkField "_" "protobuf_test" intType "" false;
             mkField "Field3" "" int32Type "" false ]
           [VInt 1; VInt 2; VInt 3] _ 0%nat (mkBytes [16; 9; 24; 7] 4) 2 0 1
           (mkProtoField 2 "" [1%nat] (mkField "_" "protobuf_test" intType "" false))
           1%nat (mkField "_" "protobuf_test" intType "" false) (VInt 2)
           (mkBytes [24; 7] 2));
    (reflexivity || lia).
Defined.

(** ** Field numbers out of order *)

Lemma scalar_record_nonempty key (t : type) x rest :
  (en_keyTag key (scalarWire t) ++ scalarPayload t x) ++ rest <> [].
Proof.
  unfold en_keyTag, en_uvarint, protowire.AppendVarint.
  cbn [app protowire.varint_bytes].
  destruct (wrap64 (protowire.EncodeTag key (scalarWire t)) <? 128); discriminate.
Qed.

(** X10.  Entries are kept in the order of declaration, and the decoder
    expects ascending numbers.  When the tags of a struct of two scalar
    fields give the second field a smaller number than the first,
    [Encode] writes the first field's record first, and decoding these
    very bytes sets the first field only (to what a round trip gives: a
    byte slice without spare capacity, a [float32] after its passage
    through [float64]): the record of the second field is skipped as
    unknown and the field is left at zero. *)
Theorem descending_numbers_lose_second_field :
  forall methods generators (t : type) f1 f2 n1 n2 a b x1 x2 y1 y2 slack fuel,
    fieldsOf t = Some [f1; f2] ->
    protoFields t = Ok [mkProtoField a n1 [0%nat] f1; mkProtoField b n2 [1%nat] f2] ->
    1 <= b < a ->
    a < 2 ^ 31 ->
    IsExported f1 = true ->
    IsExported f2 = true ->
    isScalar (Typ f1) = true ->
    isScalar (Typ f2) = true ->
    fitsScalar (Typ f1) x1 = true ->
    fitsScalar (Typ f2) x2 = true ->
    MarshalBinary (methods (TPtr t)) = None ->
    UnmarshalBinary (methods (TPtr t)) = None ->
    exists bytes,
      Encode methods generators (Some (TPtr t, VPtr (Some (VStruct [x1; x2])))) = Ok bytes
      /\ Decode methods generators (S fuel) (mkBytes bytes (length bytes + slack))
           (Some (TPtr t, VPtr (Some (VStruct [y1; y2]))))
         = Ok (Some (TPtr t, VPtr (Some (VStruct [landed (Typ f1) x1; Zero (Typ f2)])))).
Proof.
  intros methods generators t f1 f2 n1 n2 a b x1 x2 y1 y2 slack fuel
         Hfs Hpf Hab Ha Hex1 Hex2 Hsc1 Hsc2 Hx1 Hx2 Hm Hu.
  set (r1 := en_keyTag a (scalarWire (Typ f1)) ++ scalarPayload (Typ f1) x1).
  set (r2 := en_keyTag b (scalarWire (Typ f2)) ++ scalarPayload (Typ f2) x2).
  set (fields := [mkProtoField a n1 [0%nat] f1; mkProtoField b n2 [1%nat] f2]) in *.
  exists (r1 ++ r2 ++ []). split.
  - unfold Encode. rewrite Hm. cbn [kind Kind_eqb negb Elem].
    unfold en_message, en_message_body. cbn [Deref Type_]. rewrite Hpf.
    subst fields. cbn [bind en_fields Index ID Field FieldByIndex fieldByIndex_rest].
    change (mkValue t (VStruct [x1; x2]) true false false)
      with (Deref t (VStruct [x1; x2])).
    rewrite (Field_exported t [f1; f2] [x1; x2] 0 f1 x1 Hfs eq_refl eq_refl Hex1).
    rewrite (Field_exported t [f1; f2] [x1; x2] 1 f2 x2 Hfs eq_refl eq_refl Hex2).
    cbn [bind CanSet flagAddr flagRO flagStickyRO flagEmbedRO negb andb orb].
    change (depth (VStruct [x1; x2])) with
      (S (fold_right (fun y d => Nat.max (depth y) d) O [x1; x2])).
    rewrite !en_value_S.
    rewrite (@en_value_scalar methods generators _ a (Typ f1) x1 true false false Hsc1 Hx1).
    rewrite (@en_value_scalar methods generators _ b (Typ f2) x2 true false false Hsc2 Hx2).
    reflexivity.
  - unfold Decode, DecodeWithConstructors.
    rewrite DecodeWith_body_ptr by exact Hu.
    rewrite (@de_message_body_struct _ _ _ t [f1; f2] [y1; y2] fields
               (fieldsOf_kind t _ Hfs) Hfs Hpf).
    destruct (scalar_kind_not_ptr (Typ f1) Hsc1) as [Hnp1 Hni1].
    destruct (scalar_kind_not_ptr (Typ f2) Hsc2) as [Hnp2 Hni2].
    assert (Hreset : resetFields (Deref t (VStruct [y1; y2])) [f1; f2] [y1; y2]
                     = [Zero (Typ f1); Zero (Typ f2)]).
    { cbn [resetFields Deref flagAddr flagStickyRO negb andb].
      rewrite Hex1, Hex2.
      destruct (kind (Typ f1)); try congruence;
        destruct (kind (Typ f2)); try congruence; reflexivity. }
    rewrite Hreset. clear Hreset.
    assert (Ha' : 1 <= a < 2 ^ 31) by lia.
    assert (Hb' : 1 <= b < 2 ^ 31) by lia.
    destruct (@ConsumeTag_keyTag a (scalarWire (Typ f1))
                (scalarPayload (Typ f1) x1 ++ r2 ++ [])
                Ha' (scalarWire_range (Typ f1))) as [Htag1 Hlen1].
    destruct (@ConsumeTag_keyTag b (scalarWire (Typ f2))
                (scalarPayload (Typ f2) x2 ++ [])
                Hb' (scalarWire_range (Typ f2))) as [Htag2 Hlen2].
    assert (Hadv1 : advance fields 0 a = 0%nat).
    { apply advance_stays. intros pf Hpf0. injection Hpf0 as <-. simpl. lia. }
    assert (Hadv2 : advance fields 0 b = 0%nat).
    { apply advance_stays. intros pf Hpf0. injection Hpf0 as <-. simpl. lia. }
    unfold blen. cbn [data].
    remember (length (r1 ++ r2 ++ [])) as steps eqn:Hsteps.
    assert (Hl1 : (1 <= length r1)%nat)
      by (subst r1; rewrite length_app; lia).
    assert (Hl2 : (1 <= length r2)%nat)
      by (subst r2; rewrite length_app; lia).
    rewrite !length_app in Hsteps.
    destruct steps as [|[|steps]]; [lia|lia|].
    (* the record of the first field *)
    rewrite de_messageLoop_S by (subst r1; apply scalar_record_nonempty).
    rewrite (@de_messageStep_matched
               (de_putvalue methods generators (S fuel)) [] fields 0
               (mkBytes (r1 ++ r2 ++ []) _)
               (Deref t (VStruct [Zero (Typ f1); Zero (Typ f2)]))
               a (scalarWire (Typ f1)) (Z.of_nat (length (en_keyTag a (scalarWire (Typ f1)))))
               (mkProtoField a n1 [0%nat] f1) 0%nat
               (mkValue (Typ f1) (Zero (Typ f1)) true false false));
      [ | subst r1; cbn [data]; rewrite <- app_assoc; exact Htag1 | lia
        | rewrite Hadv1; reflexivity | reflexivity | reflexivity
        | apply (Field_exported t [f1; f2] [Zero (Typ f1); Zero (Typ f2)] 0 f1 (Zero (Typ f1)) Hfs eq_refl eq_refl Hex1)
        | cbn [Type_]; rewrite Hnp1; reflexivity ].
    subst r1. rewrite <- app_assoc, slice_from_app.
    change (de_value_body (de_putvalue methods generators (S fuel)) [])
      with (de_value methods generators (S fuel) []).
    rewrite (@de_value_scalar methods generators fuel [] (Typ f1) x1 (Zero (Typ f1))
               (r2 ++ []) _ Hsc1 Hx1).
    cbn [Deref Type_ val flagAddr flagStickyRO flagEmbedRO].
    rewrite (SetByIndex_top t [f1; f2] [Zero (Typ f1); Zero (Typ f2)] 0 f1 (Zero (Typ f1)) (landed (Typ f1) x1) Hfs eq_refl eq_refl).
    cbn [bind replaceNth]. rewrite Hadv1.
    (* the record of the second field *)
    rewrite de_messageLoop_S by (subst r2; cbn [l_buf data]; apply scalar_record_nonempty).
    assert (Hskip : forall c', skipPayload (scalarWire (Typ f2))
                      (mkBytes (scalarPayload (Typ f2) x2 ++ []) c')
                    = Ok (mkBytes [] (c' - length (scalarPayload (Typ f2) x2)))).
    { intros c'.
      apply (@skipPayload_of_value (de_putvalue methods generators (S fuel)) []
               _ _ (mkValue (Typ f2) (Zero (Typ f2)) true false false) _ (Some (landed (Typ f2) x2))).
      exact (@de_value_scalar methods generators fuel [] (Typ f2) x2 (Zero (Typ f2))
               [] c' Hsc2 Hx2). }
    erewrite de_messageStep_unmatched
      with (num := b) (wt := scalarWire (Typ f2))
           (k := Z.of_nat (length (en_keyTag b (scalarWire (Typ f2)))));
      [ | subst r2; cbn [l_buf data]; rewrite <- app_assoc; exact Htag2 | lia
        | cbn [l_fieldi]; rewrite Hadv2; intros pf Hpf0; injection Hpf0 as <-; simpl; lia
        | subst r2; cbn [l_buf]; rewrite <- app_assoc, slice_from_app; apply Hskip ].
    cbn [bind]. rewrite de_messageLoop_done by reflexivity.
    reflexivity.
Qed.

Lemma descending_numbers_lose_second_field_witness :
  exists bytes,
    Encode noM [] (Some (TPtr swappedStruct, VPtr (Some (VStruct [VInt 7; VInt 5])))) = Ok bytes
    /\ Decode noM [] 1 (mkBytes bytes (length bytes + 0))
         (Some (TPtr swappedStruct, VPtr (Some (VStruct [VInt 0; VInt 0]))))
       = Ok (Some (TPtr swappedStruct,
                   VPtr (Some (VStruct [landed (Typ (mkField "A" "" int32Type "2" false)) (VInt 7);
                                        Zero (Typ (mkField "B" "" int32Type "1" false))])))).
Proof.
  apply (descending_numbers_lose_second_field noM [] swappedStruct
           (mkField "A" "" int32Type "2" false) (mkField "B" "" int32Type "1" false)
           "" "" 2 1 (VInt 7) (VInt 5) (VInt 0) (VInt 0) 0%nat 0%nat);
    (reflexivity || lia).
Defined.

(** ** Interface fields on decoding *)

(** X11.  The type tag is looked up, and stripped, only for a nil
    destination.  When the payload is longer than a tag and its first
    eight bytes are the tag of a registered generator, a nil interface gets
    the generator's value, whatever constructors the caller has passed,
    provided the value's type implements the interface (storing it panics
    otherwise), and that value's [UnmarshalBinary] gets the payload after
    the tag.  An interface that already holds a value keeps it, and its
    [UnmarshalBinary] gets the whole payload, the tag included. *)
Theorem tag_is_stripped_for_nil_destination_only :
  forall methods generators fuel nm (t : type) v vb dt dv um et ev um',
    kind t = Interface ->
    (GeneratorIDLen < blen vb)%nat ->
    generators_get generators (firstn GeneratorIDLen (data vb)) = Some (dt, dv) ->
    UnmarshalBinary (methods dt) = Some um ->
    UnmarshalBinary (methods et) = Some um' ->
    de_putvalue methods generators (S fuel) nm protowire.BytesType
      (mkValue t (VInterface None) true false false) v vb
    = (if assignable methods dt t
       then dv' <- um (skipn GeneratorIDLen (data vb)) dv ;;
            Ok (VInterface (Some (dt, dv')))
       else Panic ("reflect.Set: value of type " ++ typeString dt
                     ++ " is not assignable to type " ++ typeString t))
    /\ de_putvalue methods generators (S fuel) nm protowire.BytesType
         (mkValue t (VInterface (Some (et, ev))) true false false) v vb
       = (ev' <- um' (data vb) ev ;; Ok (VInterface (Some (et, ev')))).
Proof.
  intros methods generators fuel nm t v vb dt dv um et ev um' Hk Hlen Hg Hum Hum'.
  rewrite !de_putvalue_S. unfold de_putvalue_body.
  cbn [CanSet flagAddr flagRO flagStickyRO flagEmbedRO negb andb orb Type_ val].
  rewrite Hk. split.
  - destruct (Nat.ltb_spec GeneratorIDLen (blen vb)) as [_|Hge]; [|lia].
    rewrite Hg. cbn [bind fst].
    destruct (assignable methods dt t); [|reflexivity].
    cbn [bind]. rewrite Hum.
    change (protowire.BytesType =? protowire.BytesType) with true. cbn [negb].
    reflexivity.
  - cbn [bind]. rewrite Hum'.
    change (protowire.BytesType =? protowire.BytesType) with true. cbn [negb].
    reflexivity.
Qed.

Lemma tag_is_stripped_for_nil_destination_only_witness :
  de_putvalue dummyMethods [(dummyID, newDummy)] 1 [] protowire.BytesType
    (mkValue dummyInterface (VInterface None) true false false) 0
    (mkBytes (dummyID ++ [1; 2; 3]) 11)
  = (dv' <- (fun _ _ => Err "fail to unmarshal")
              (skipn GeneratorIDLen (data (mkBytes (dummyID ++ [1; 2; 3]) 11)))
              (VPtr (Some (VStruct []))) ;;
     Ok (VInterface (Some (TPtr dummyStruct, dv'))))
  /\ de_putvalue dummyMethods [(dummyID, newDummy)] 1 [] protowire.BytesType
       (mkValue dummyInterface (VInterface (Some newDummy)) true false false) 0
       (mkBytes (dummyID ++ [1; 2; 3]) 11)
     = (ev' <- (fun _ _ => Err "fail to unmarshal")
                 (data (mkBytes (dummyID ++ [1; 2; 3]) 11)) (VPtr (Some (VStruct []))) ;;
        Ok (VInterface (Some (TPtr dummyStruct, ev')))).
Proof.
  apply (tag_is_stripped_for_nil_destination_only dummyMethods [(dummyID, newDummy)]
           0%nat [] dummyInterface 0 (mkBytes (dummyID ++ [1; 2; 3]) 11)
           (TPtr dummyStruct) (VPtr (Some (VStruct [])))
           (fun _ _ => Err "fail to unmarshal")
           (TPtr dummyStruct) (VPtr (Some (VStruct [])))
           (fun _ _ => Err "fail to unmarshal"));
    (reflexivity || (unfold blen, GeneratorIDLen; simpl; lia)).
Defined.

(** X12.  A tagged value with an empty payload does not come back.  For a
    value whose [MarshalBinary] returns no bytes and whose tag has a
    generator registered, the interface field is written as the eight
    bytes of the tag alone; but a payload of at most eight bytes is never
    compared with the registry, so that decoding it into a nil interface
    for which the caller passed no constructor panics with "no
    constructor", the registered generator notwithstanding. *)
Theorem tagged_empty_payload_is_not_decodable :
  forall methods generators fuel nm key n fl dt dv mb mid g wt v vb,
    MarshalBinary (methods dt) = Some mb ->
    mb dv = Ok [] ->
    MarshalID (methods dt) = Some mid ->
    length (mid dv) = GeneratorIDLen ->
    generators_get generators (mid dv) = Some g ->
    consGet nm (TInterface n) = None ->
    (blen vb <= GeneratorIDLen)%nat ->
    en_value methods generators (S fuel) key
      (mkValue (TInterface n) (VInterface (Some (dt, dv))) true fl false)
    = (if fl
       then Panic "reflect.Value.Interface: cannot return value obtained from unexported field or method"
       else Ok (en_keyTag key protowire.BytesType ++ [8] ++ mid dv))
    /\ de_putvalue methods generators (S fuel) nm wt
         (mkValue (TInterface n) (VInterface None) true false false) v vb
       = Panic ("no constructor for interface " ++ n).
Proof.
  intros methods generators fuel nm key n fl dt dv mb mid g wt v vb
         Hmb Hout Hmid Hidlen Hg Hcons Hshort.
  rewrite en_value_S, de_putvalue_S. split.
  - unfold en_value_body. cbn [Type_ type_eqb boolType intType int32Type int64Type
      timeType uintType uint32Type uint64Type sfixed32type sfixed64type ufixed32type
      ufixed64type float32Type float64Type stringType orb kind].
    unfold en_interface, checkInterface, flagRO.
    cbn [val flagStickyRO flagEmbedRO orb].
    destruct fl; [reflexivity|]. cbn [bind].
    rewrite Hmb, Hout, Hmid, Hg. cbn [mustMarshal bind lenZ length app].
    rewrite app_nil_r. reflexivity.
  - unfold de_putvalue_body.
    cbn [CanSet flagAddr flagRO flagStickyRO flagEmbedRO negb andb orb Type_ kind val].
    destruct (Nat.ltb_spec GeneratorIDLen (blen vb)) as [Hlt|_]; [lia|].
    unfold de_instantiate. cbn [kind]. rewrite Hcons. reflexivity.
Qed.

Lemma tagged_empty_payload_is_not_decodable_witness :
  en_value
    (fun t => if type_eqb t (TPtr dummyStruct)
              then mkMethodSet (Some (fun _ => Ok [])) None (Some (fun _ => dummyID))
                                (fun _ => true)
              else noMethods)
    [(dummyID, newDummy)] 1 1
    (mkValue (TInterface "protobuf_test.dummyInterface")
       (VInterface (Some newDummy)) true false false)
  = Ok (en_keyTag 1 protowire.BytesType ++ [8] ++ dummyID)
  /\ de_putvalue
       (fun t => if type_eqb t (TPtr dummyStruct)
                 then mkMethodSet (Some (fun _ => Ok [])) None (Some (fun _ => dummyID))
                                (fun _ => true)
                 else noMethods)
       [(dummyID, newDummy)] 1 [] protowire.BytesType
       (mkValue (TInterface "protobuf_test.dummyInterface") (VInterface None)
          true false false) 0 (mkBytes dummyID 8)
     = Panic "no constructor for interface protobuf_test.dummyInterface".
Proof.
  apply (tagged_empty_payload_is_not_decodable
           (fun t => if type_eqb t (TPtr dummyStruct)
                     then mkMethodSet (Some (fun _ => Ok [])) None (Some (fun _ => dummyID))
                                (fun _ => true)
                     else noMethods)
           [(dummyID, newDummy)] 0%nat [] 1
           "protobuf_test.dummyInterface" false (TPtr dummyStruct)
           (VPtr (Some (VStruct []))) (fun _ => Ok []) (fun _ => dummyID) newDummy
           protowire.BytesType 0 (mkBytes dummyID 8));
    (reflexivity || (unfold blen, GeneratorIDLen; simpl; lia)).
Defined.

(** ** Times *)

(** X13.  A [time.Time] field comes back to the nanosecond.  For a time
    whose count of nanoseconds since the Unix epoch fits a signed 64-bit
    integer, the encoder writes the count as a fixed 64-bit record, and
    the decoder, reading that record into a time, whatever it held, gives
    the same second and nanosecond and consumes exactly the eight bytes. *)
Theorem time_round_trip :
  forall methods generators fuel fuel' nm key sec nsec old rest c,
    0 <= nsec < 1000000000 ->
    - 2 ^ 63 <= sec * 1000000000 + nsec < 2 ^ 63 ->
    exists payload,
      length payload = 8%nat
      /\ en_value methods generators (S fuel) key
           (mkValue timeType (VTime sec nsec) true false false)
         = Ok (en_keyTag key protowire.Fixed64Type ++ payload)
      /\ de_value methods generators (S fuel') nm protowire.Fixed64Type
           (mkBytes (payload ++ rest) c)
           (Some (mkValue timeType old true false false))
         = Ok (mkBytes rest (c - 8), Some (VTime sec nsec)).
Proof.
  intros methods generators fuel fuel' nm key sec nsec old rest c Hns Hrange.
  exists (en_u64 (wrap64 (to_int64 (sec * 1000000000 + nsec)))).
  split; [apply le_bytes_length|]. split.
  - rewrite en_value_S. reflexivity.
  - unfold de_value. rewrite de_value_body_u64.
    putvalue_now.
    replace (to_int64 (wrap64 (to_int64 (sec * 1000000000 + nsec)) mod 2 ^ 64))
      with (sec * 1000000000 + nsec) by zmod.
    unfold timeUnix.
    destruct (Z.ltb_spec (Z.rem (sec * 1000000000 + nsec) 1000000000) 0) as [Hneg|Hpos].
    + replace (Z.quot (sec * 1000000000 + nsec) 1000000000 - 1) with sec
        by (Z.to_euclidean_division_equations; lia).
      replace (Z.rem (sec * 1000000000 + nsec) 1000000000 + 1000000000) with nsec
        by (Z.to_euclidean_division_equations; lia).
      reflexivity.
    + replace (Z.quot (sec * 1000000000 + nsec) 1000000000) with sec
        by (Z.to_euclidean_division_equations; lia).
      replace (Z.rem (sec * 1000000000 + nsec) 1000000000) with nsec
        by (Z.to_euclidean_division_equations; lia).
      reflexivity.
Qed.

Lemma time_round_trip_witness :
  exists payload,
    length payload = 8%nat
    /\ en_value noM [] 1 1 (mkValue timeType (VTime (-1) 500000000) true false false)
       = Ok (en_keyTag 1 protowire.Fixed64Type ++ payload)
    /\ de_value noM [] 1 [] protowire.Fixed64Type (mkBytes (payload ++ [8; 1]) 10)
         (Some (mkValue timeType zeroTime true false false))
       = Ok (mkBytes [8; 1] (10 - 8), Some (VTime (-1) 500000000)).
Proof.
  apply (time_round_trip noM [] 0%nat 0%nat [] 1 (-1) 500000000 zeroTime [8; 1] 10%nat);
    lia.
Defined.

(** X14.  A time outside that range does not come back, and no error is
    reported.  The count of nanoseconds wraps around to 64 bits when the
    time is written, so that the decoder, which succeeds, stores a
    different time.  The zero [time.Time], midnight of 1 January of the
    year 1, is such a time. *)
Theorem time_out_of_range_is_changed :
  forall methods generators fuel fuel' nm key sec nsec old rest c,
    0 <= nsec < 1000000000 ->
    ~ (- 2 ^ 63 <= sec * 1000000000 + nsec < 2 ^ 63) ->
    exists payload t',
      en_value methods generators (S fuel) key
        (mkValue timeType (VTime sec nsec) true false false)
      = Ok (en_keyTag key protowire.Fixed64Type ++ payload)
      /\ de_value methods generators (S fuel') nm protowire.Fixed64Type
           (mkBytes (payload ++ rest) c)
           (Some (mkValue timeType old true false false))
         = Ok (mkBytes rest (c - 8), Some t')
      /\ t' <> VTime sec nsec.
Proof.
  intros methods generators fuel fuel' nm key sec nsec old rest c Hns Hout.
  exists (en_u64 (wrap64 (to_int64 (sec * 1000000000 + nsec)))).
  eexists. split; [rewrite en_value_S; reflexivity|]. split.
  - unfold de_value. rewrite de_value_body_u64. putvalue_now. reflexivity.
  - replace (to_int64 (wrap64 (to_int64 (sec * 1000000000 + nsec)) mod 2 ^ 64))
      with (to_int64 (sec * 1000000000 + nsec)) by zmod.
    assert (Hm : - 2 ^ 63 <= to_int64 (sec * 1000000000 + nsec) < 2 ^ 63) by zmod.
    remember (to_int64 (sec * 1000000000 + nsec)) as m eqn:Em. clear Em.
    unfold timeUnix.
    destruct (Z.ltb_spec (Z.rem m 1000000000) 0) as [Hneg|Hpos];
      intros Heq; injection Heq as Hs Hn; apply Hout;
      Z.to_euclidean_division_equations; lia.
Qed.

Lemma time_out_of_range_is_changed_witness :
  exists payload t',
    en_value noM [] 1 1 (mkValue timeType (VTime (-62135596800) 0) true false false)
    = Ok (en_keyTag 1 protowire.Fixed64Type ++ payload)
    /\ de_value noM [] 1 [] protowire.Fixed64Type (mkBytes (payload ++ []) 8)
         (Some (mkValue timeType (VTime 0 0) true false false))
       = Ok (mkBytes [] (8 - 8), Some t')
    /\ t' <> VTime (-62135596800) 0.
Proof.
  apply (time_out_of_range_is_changed noM [] 0%nat 0%nat [] 1 (-62135596800) 0
           (VTime 0 0) [] 8%nat); lia.
Defined.

(** ** Unsigned integers of type [uint] *)

(** X15.  A defined type over [uint] can be decoded into, but never
    encoded.  The encoder knows [uint] itself by its type, and by kind
    only [uint32] and [uint64]: it panics on any other type of kind
    [uint].  The decoder goes by kind, and stores a varint in such a
    value. *)
Theorem defined_uint_decodes_but_does_not_encode :
  forall methods generators fuel nm key (t : type) x a s e v vb,
    kind t = Uint ->
    type_eqb t uintType = false ->
    0 <= v < 2 ^ 64 ->
    en_value methods generators (S fuel) key (mkValue t x a s e)
    = Panic "unsupported field Kind 7"
    /\ de_putvalue methods generators (S fuel) nm protowire.VarintType
         (mkValue t x true false false) v vb
       = Ok (VUint v).
Proof.
  intros methods generators fuel nm key t x a s e v vb Hk Hne Hv.
  split.
  - rewrite en_value_S. unfold en_value_body. cbn [Type_].
    rewrite Hne.
    rewrite !(@type_eqb_kind t) by (rewrite Hk; discriminate).
    cbn [orb]. rewrite Hk. reflexivity.
  - rewrite de_putvalue_S. unfold de_putvalue_body.
    cbn [CanSet flagAddr flagRO flagStickyRO flagEmbedRO negb andb orb Type_ val].
    rewrite Hk.
    change (protowire.VarintType =? protowire.VarintType) with true.
    cbn [setUint]. f_equal. f_equal. zmod.
Qed.

Lemma defined_uint_decodes_but_does_not_encode_witness :
  en_value noM [] 1 1 (mkValue (TNamed "main.Count" (TBasic Uint)) (VUint 3) true false false)
  = Panic "unsupported field Kind 7"
  /\ de_putvalue noM [] 1 [] protowire.VarintType
       (mkValue (TNamed "main.Count" (TBasic Uint)) (VUint 3) true false false) 150
       (mkBytes [] 0)
     = Ok (VUint 150).
Proof.
  apply (defined_uint_decodes_but_does_not_encode noM [] 0%nat [] 1
           (TNamed "main.Count" (TBasic Uint)) (VUint 3) true false false 150
           (mkBytes [] 0)); (reflexivity || lia).
Defined.

(** X16.  A [[]uint] field is written in a form the decoder refuses.
    Neither [slice] nor [sliceReflect] packs elements of kind [uint]: each
    element is written as a record of its own with wire type varint.  The
    decoder accepts only length-delimited records for a slice, and answers
    such a record with "bad wiretype for repeated field". *)
Theorem uint_slice_is_written_unpacked_and_refused :
  forall methods generators fuel nm key us a old v vb,
    Forall (fun u => 0 <= u < 2 ^ 64) us ->
    en_value methods generators (S (S fuel)) key
      (mkValue (TSlice uintType) (VSlice (map VUint us)) a false false)
    = Ok (concat (map (fun u => en_keyTag key protowire.VarintType ++ en_uvarint u) us))
    /\ de_putvalue methods generators (S fuel) nm protowire.VarintType
         (mkValue (TSlice uintType) old true false false) v vb
       = Err "bad wiretype for repeated field".
Proof.
  intros methods generators fuel nm key us a old v vb Hus.
  split; [|reflexivity].
  rewrite en_value_S. unfold en_value_body.
  cbn [Type_ type_eqb Kind_eqb boolType intType int32Type int64Type
       timeType uintType uint32Type uint64Type sfixed32type sfixed64type ufixed32type
       ufixed64type float32Type float64Type stringType orb kind].
  unfold en_slice.
  cbn [Type_ type_eqb Kind_eqb boolType intType int32Type int64Type
       timeType uintType uint32Type uint64Type sfixed32type sfixed64type ufixed32type
       ufixed64type float32Type float64Type stringType bytesType orb kind].
  unfold en_sliceReflect.
  cbn [Type_ Elem kind uintType Kind_eqb orb andb].
  unfold elements. cbn [Type_ Elem val bind flagRO flagStickyRO flagEmbedRO orb].
  clear Hus. induction us as [|u us IH]; [reflexivity|].
  cbn [map forEach concat]. rewrite IH.
  rewrite en_value_S. reflexivity.
Qed.

Lemma uint_slice_is_written_unpacked_and_refused_witness :
  en_value noM [] 2 4
    (mkValue (TSlice uintType) (VSlice (map VUint [1; 300])) true false false)
  = Ok (concat (map (fun u => en_keyTag 4 protowire.VarintType ++ en_uvarint u) [1; 300]))
  /\ de_putvalue noM [] 1 [] protowire.VarintType
       (mkValue (TSlice uintType) (VSlice []) true false false) 1 (mkBytes [] 0)
     = Err "bad wiretype for repeated field".
Proof.
  apply (uint_slice_is_written_unpacked_and_refused noM [] 0%nat [] 4 [1; 300]
           true (VSlice []) 1 (mkBytes [] 0)).
  repeat constructor; lia.
Defined.

(** ** Packed slices *)

Lemma isPacked_In (t : type) : isPacked t = true -> In t packedTypes.
Proof.
  unfold isPacked. intros H. apply existsb_exists in H as [u [Hin Heq]].
  apply type_eqb_eq in Heq. now subst.
Qed.

Ltac packed_cases H :=
  apply isPacked_In in H; unfold packedTypes in H;
  repeat (destruct H as [<-|H]); [..|destruct H].

Lemma isPacked_isScalar (t : type) : isPacked t = true -> isScalar t = true.
Proof. intros H. packed_cases H; reflexivity. Qed.

Lemma en_uvarint_nonempty v rest : en_uvarint v ++ rest <> [].
Proof.
  unfold en_uvarint, protowire.AppendVarint. cbn [app protowire.varint_bytes].
  destruct (wrap64 v <? 128); discriminate.
Qed.

Lemma packed_payload_nonempty (t : type) (x : value) rest :
  isPacked t = true -> fitsScalar t x = true -> scalarPayload t x ++ rest <> [].
Proof.
  intros Ht Hx.
  packed_cases Ht; destruct x; try discriminate Hx;
    cbn [scalarPayload type_eqb Kind_eqb boolType intType int32Type int64Type
         uintType uint32Type uint64Type sfixed32type sfixed64type ufixed32type
         ufixed64type float32Type float64Type String.eqb Ascii.eqb Bool.eqb
         andb orb];
    try apply en_uvarint_nonempty; discriminate.
Qed.

Lemma packedElem_nonempty (t : type) (x : value) rest :
  isPacked t = true -> fitsScalar t x = true -> packedElem t x ++ rest <> [].
Proof.
  intros Ht Hx.
  packed_cases Ht; destruct x; try discriminate Hx;
    cbn [packedElem scalarPayload type_eqb Kind_eqb boolType intType int32Type
         int64Type uintType uint32Type uint64Type sfixed32type sfixed64type
         ufixed32type ufixed64type float32Type float64Type String.eqb Ascii.eqb
         Bool.eqb andb orb];
    try apply en_uvarint_nonempty; discriminate.
Qed.

(** What [de.value] reads back from the bytes of one element of a packed
    slice. *)
Lemma de_value_packedElem methods generators fuel nm (t : type) x z rest c :
  isPacked t = true ->
  fitsScalar t x = true ->
  de_value methods generators (S fuel) nm (scalarWire t)
    (mkBytes (packedElem t x ++ rest) c) (Some (mkValue t z true false false))
  = Ok (mkBytes rest (c - length (packedElem t x)), Some (landed t x)).
Proof.
  intros Ht Hx.
  destruct (type_eqb t float32Type) eqn:Ef.
  - apply type_eqb_eq in Ef. subst t.
    destruct x; try discriminate Hx.
    cbn [fitsScalar kind float32Type] in Hx. apply inRange_spec in Hx.
    change (scalarWire float32Type) with protowire.Fixed32Type.
    change (packedElem float32Type (VFloat bits)) with (en_u32 bits).
    unfold de_value. rewrite de_value_body_u32. putvalue_now.
    change (landed float32Type (VFloat bits)) with (VFloat (quiet32 bits)).
    do 4 f_equal. apply quiet32_raw. exact Hx.
  - assert (Hp : packedElem t x = scalarPayload t x).
    { destruct x; try reflexivity. cbn [packedElem scalarPayload].
      now rewrite Ef. }
    rewrite Hp. apply de_value_scalar; [now apply isPacked_isScalar | exact Hx].
Qed.

(** The packed loop reads the elements back one by one. *)
Lemma de_packed_scalar methods generators fuel nm (t : type) :
  isPacked t = true ->
  forall xs steps z acc c,
    forallb (fitsScalar t) xs = true ->
    (length xs <= steps)%nat ->
    de_packed (de_putvalue methods generators (S fuel)) nm steps (scalarWire t)
      (mkBytes (packedPayload t xs) c) (mkValue t z true false false) true acc
    = Ok (acc ++ map (landed t) xs).
Proof.
  intros Ht. induction xs as [|x xs IH]; intros steps z acc c Hxs Hsteps.
  - destruct steps; cbn [de_packed packedPayload map concat blen data length Nat.eqb];
      now rewrite app_nil_r.
  - cbn [forallb] in Hxs. apply andb_prop in Hxs as [Hx Hxs].
    destruct steps as [|steps]; [cbn [length] in Hsteps; lia|].
    unfold packedPayload. cbn [map concat]. fold (packedPayload t xs).
    cbn [de_packed].
    assert (Hne : (blen (mkBytes (packedElem t x ++ packedPayload t xs) c) =? 0)%nat
                  = false).
    { unfold blen. cbn [data].
      destruct (packedElem t x ++ packedPayload t xs) eqn:Epay;
        [now apply packedElem_nonempty in Epay|reflexivity]. }
    rewrite Hne.
    change (de_value_body (de_putvalue methods generators (S fuel)) nm (scalarWire t)
              (mkBytes (packedElem t x ++ packedPayload t xs) c)
              (Some (mkValue t z true false false)))
      with (de_value methods generators (S fuel) nm (scalarWire t)
              (mkBytes (packedElem t x ++ packedPayload t xs) c)
              (Some (mkValue t z true false false))).
    rewrite (de_value_packedElem methods generators fuel nm t x z (packedPayload t xs) c
               Ht Hx).
    cbn [bind Type_].
    rewrite IH by (try assumption; cbn [length] in Hsteps; lia).
    now rewrite <- app_assoc.
Qed.

Lemma packedPayload_length (t : type) :
  isPacked t = true ->
  forall xs, forallb (fitsScalar t) xs = true ->
             (length xs <= length (packedPayload t xs))%nat.
Proof.
  intros Ht. induction xs as [|x xs IH]; intros Hxs; [cbn; lia|].
  cbn [forallb] in Hxs. apply andb_prop in Hxs as [Hx Hxs].
  unfold packedPayload. cbn [map concat length]. fold (packedPayload t xs).
  rewrite length_app. specialize (IH Hxs).
  pose proof (packedElem_nonempty t x [] Ht Hx) as Hne.
  rewrite app_nil_r in Hne.
  destruct (packedElem t x); [congruence|cbn [length]; lia].
Qed.

(** [de.slice] on a slice of packed elements. *)
Lemma de_slice_body_packed recp nm (t : type) ys vb :
  isPacked t = true ->
  de_slice_body recp nm (mkValue (TSlice t) (VSlice ys) true false false) vb
  = (xs' <- de_packed recp nm (blen vb) (scalarWire t) vb (newVar t) true ys ;;
     Ok (VSlice xs')).
Proof.
  intros Ht. packed_cases Ht; reflexivity.
Qed.

(** What the packing loops of [slice] and [sliceReflect] write. *)
Lemma packWith_payload (f : Value -> result (list Z)) (t : type) a :
  (forall x, fitsScalar t x = true ->
             f (mkValue t x true false false) = Ok (packedElem t x)) ->
  forall xs, forallb (fitsScalar t) xs = true ->
    packWith f (mkValue (TSlice t) (VSlice xs) a false false)
    = Ok (packedPayload t xs).
Proof.
  intros Hf xs Hxs. unfold packWith, elements.
  cbn [Type_ Elem val bind flagRO flagStickyRO flagEmbedRO orb].
  induction xs as [|x xs IH]; [reflexivity|].
  cbn [forallb] in Hxs. apply andb_prop in Hxs as [Hx Hxs].
  cbn [map forEach]. rewrite (Hf x Hx), (IH Hxs). reflexivity.
Qed.

Lemma en_slice_packed methods generators recv key (t : type) xs a :
  isPacked t = true ->
  forallb (fitsScalar t) xs = true ->
  en_value_body methods generators recv key
    (mkValue (TSlice t) (VSlice xs) a false false)
  = Ok (en_bytesField key (packedPayload t xs)).
Proof.
  intros Ht Hxs.
  packed_cases Ht;
    unfold en_value_body;
    cbn [Type_ type_eqb Kind_eqb boolType intType int32Type int64Type
         timeType uintType uint32Type uint64Type sfixed32type sfixed64type
         ufixed32type ufixed64type float32Type float64Type stringType bytesType
         orb andb kind String.eqb Ascii.eqb Bool.eqb];
    unfold en_slice;
    cbn [Type_ type_eqb Kind_eqb boolType intType int32Type int64Type
         timeType uintType uint32Type uint64Type sfixed32type sfixed64type
         ufixed32type ufixed64type float32Type float64Type stringType bytesType
         orb andb kind String.eqb Ascii.eqb Bool.eqb];
    try (unfold en_sliceReflect;
         cbn [Type_ Elem kind intType Kind_eqb orb andb]);
    (erewrite packWith_payload;
     [reflexivity
     |intros x Hx; destruct x; try discriminate Hx; reflexivity
     |exact Hxs]).
Qed.

(** X17.  A slice of numbers or booleans comes back, appended to what the
    destination holds.  For the element types that are written packed
    ([bool], [int], [int32], [int64], [uint32], [uint64], the four fixed
    types and the two floats) the encoder writes one length-delimited
    record holding the elements one after the other, the bits of a float
    as they are; the decoder, reading that record into a slice of the same
    type, consumes exactly the record and appends the elements, in order,
    to the elements the slice had.  The elements come back as they were,
    but for a [float32] signalling NaN, which the decoder stores quieted. *)
Theorem packed_slice_round_trip :
  forall methods generators fuel fuel' nm key (t : type) xs ys a rest c,
    isPacked t = true ->
    forallb (fitsScalar t) xs = true ->
    Z.of_nat (length (packedPayload t xs)) < 2 ^ 64 ->
    exists record,
      en_value methods generators (S fuel) key
        (mkValue (TSlice t) (VSlice xs) a false false)
      = Ok (en_keyTag key protowire.BytesType ++ record)
      /\ de_value methods generators (S (S fuel')) nm protowire.BytesType
           (mkBytes (record ++ rest) c)
           (Some (mkValue (TSlice t) (VSlice ys) true false false))
         = Ok (mkBytes rest (c - length record),
               Some (VSlice (ys ++ map (landed t) xs)))
      /\ (Kind_eqb (kind t) Float32 = false -> map (landed t) xs = xs).
Proof.
  intros methods generators fuel fuel' nm key t xs ys a rest c Ht Hxs Hlen.
  exists (en_uvarint (lenZ (packedPayload t xs)) ++ packedPayload t xs).
  split; [|split].
  - rewrite en_value_S. now rewrite en_slice_packed.
  - unfold de_value. rewrite de_value_body_prefixed by exact Hlen.
    rewrite de_putvalue_S. unfold de_putvalue_body.
    cbn [CanSet flagAddr flagRO flagStickyRO flagEmbedRO negb andb orb Type_ val kind].
    change (protowire.BytesType =? protowire.BytesType) with true. cbn [negb].
    rewrite de_slice_body_packed by exact Ht.
    unfold newVar.
    rewrite (de_packed_scalar methods generators fuel' nm t Ht xs _ (Zero t) ys _ Hxs)
      by (unfold blen; cbn [data]; now apply packedPayload_length).
    reflexivity.
  - intros Hk. clear Hlen. induction xs as [|x xs IH]; [reflexivity|].
    cbn [forallb] in Hxs. apply andb_prop in Hxs as [Hx Hxs].
    cbn [map]. rewrite (IH Hxs). f_equal.
    destruct x; try reflexivity.
    + cbn [landed]. now rewrite Hk.
    + packed_cases Ht; simpl in Hx; discriminate Hx.
Qed.

Lemma packed_slice_round_trip_witness :
  exists record,
    en_value noM [] 1 3
      (mkValue (TSlice float32Type) (VSlice [VFloat 2141192192; VFloat 1065353216])
         true false false)
    = Ok (en_keyTag 3 protowire.BytesType ++ record)
    /\ de_value noM [] 2 [] protowire.BytesType (mkBytes (record ++ [8; 1]) 20)
         (Some (mkValue (TSlice float32Type) (VSlice [VFloat 0]) true false false))
       = Ok (mkBytes [8; 1] (20 - length record),
             Some (VSlice ([VFloat 0]
                           ++ map (landed float32Type)
                                [VFloat 2141192192; VFloat 1065353216])))
    /\ (Kind_eqb (kind float32Type) Float32 = false ->
        map (landed float32Type) [VFloat 2141192192; VFloat 1065353216]
        = [VFloat 2141192192; VFloat 1065353216]).
Proof.
  apply (packed_slice_round_trip noM [] 0%nat 0%nat [] 3 float32Type
           [VFloat 2141192192; VFloat 1065353216] [VFloat 0] true [8; 1] 20%nat);
    [reflexivity | reflexivity | vm_compute; reflexivity].
Defined.

(** ** Arrays *)

Lemma de_slice_body_packed_array recp nm (t : type) n ys vb :
  isPacked t = true ->
  de_slice_body recp nm (mkValue (TArray n t) (VArray ys) true false false) vb
  = (xs' <- de_packed recp nm (blen vb) (scalarWire t) vb (newVar t) false ys ;;
     Ok (VArray xs')).
Proof.
  intros Ht. packed_cases Ht; reflexivity.
Qed.

Lemma packWith_payload_array (f : Value -> result (list Z)) (t : type) n a :
  (forall x, fitsScalar t x = true ->
             f (mkValue t x a false false) = Ok (scalarPayload t x)) ->
  forall xs, forallb (fitsScalar t) xs = true ->
    packWith f (mkValue (TArray n t) (VArray xs) a false false)
    = Ok (arrayPayload t xs).
Proof.
  intros Hf xs Hxs. unfold packWith, elements.
  cbn [Type_ Elem val bind flagAddr flagRO flagStickyRO flagEmbedRO orb].
  induction xs as [|x xs IH]; [reflexivity|].
  cbn [forallb] in Hxs. apply andb_prop in Hxs as [Hx Hxs].
  cbn [map forEach]. rewrite (Hf x Hx), (IH Hxs). reflexivity.
Qed.

(** X18.  An array of numbers or booleans is written but cannot be read.
    The encoder packs the elements of an array into one length-delimited
    record, a [float32] element after its passage through [float64].  The
    decoder treats the array as a slice: it reads the first element of the
    record and appends it, and [reflect.Append] panics on an array, so
    that decoding any record that holds an element fails, whatever the
    length of the array. *)
Theorem numeric_array_is_written_but_not_read :
  forall methods generators fuel fuel' nm key (t : type) n x xs ys a c,
    isPacked t = true ->
    isFixed t = false ->
    forallb (fitsScalar t) (x :: xs) = true ->
    en_value methods generators (S fuel) key
      (mkValue (TArray n t) (VArray (x :: xs)) a false false)
    = Ok (en_bytesField key (arrayPayload t (x :: xs)))
    /\ exists m,
         de_putvalue methods generators (S (S fuel')) nm protowire.BytesType
           (mkValue (TArray n t) (VArray ys) true false false) 0
           (mkBytes (arrayPayload t (x :: xs)) c)
         = Panic m.
Proof.
  intros methods generators fuel fuel' nm key t n x xs ys a c Ht Hfix Hxs.
  split.
  - rewrite en_value_S. clear fuel'.
    packed_cases Ht; try discriminate Hfix;
      unfold en_value_body;
      cbn [Type_ type_eqb Kind_eqb boolType intType int32Type int64Type
           timeType uintType uint32Type uint64Type sfixed32type sfixed64type
           ufixed32type ufixed64type float32Type float64Type stringType bytesType
           orb andb kind String.eqb Ascii.eqb Bool.eqb];
      unfold en_slice;
      cbn [Type_ type_eqb Kind_eqb boolType intType int32Type int64Type
           timeType uintType uint32Type uint64Type sfixed32type sfixed64type
           ufixed32type ufixed64type float32Type float64Type stringType bytesType
           orb andb kind String.eqb Ascii.eqb Bool.eqb];
      unfold en_sliceReflect;
      cbn [Type_ Elem kind boolType intType int32Type int64Type uint32Type
           uint64Type float32Type float64Type Kind_eqb orb andb];
      (erewrite packWith_payload_array;
       [reflexivity
       |intros y Hy; destruct y; try discriminate Hy; reflexivity
       |exact Hxs]).
  - eexists.
    rewrite de_putvalue_S. unfold de_putvalue_body.
    cbn [CanSet flagAddr flagRO flagStickyRO flagEmbedRO negb andb orb Type_ val kind].
    change (protowire.BytesType =? protowire.BytesType) with true. cbn [negb].
    rewrite de_slice_body_packed_array by exact Ht.
    cbn [forallb] in Hxs. apply andb_prop in Hxs as [Hx Hxs].
    unfold arrayPayload. cbn [map concat]. fold (arrayPayload t xs).
    assert (Hne : exists k, blen (mkBytes (scalarPayload t x ++ arrayPayload t xs) c)
                            = S k).
    { unfold blen. cbn [data].
      destruct (scalarPayload t x ++ arrayPayload t xs) eqn:Epay;
        [now apply packed_payload_nonempty in Epay|eexists; reflexivity]. }
    destruct Hne as [k Hk].
    remember (mkBytes (scalarPayload t x ++ arrayPayload t xs) c) as vb eqn:Evb.
    rewrite Hk. cbn [de_packed]. rewrite Hk. cbn [Nat.eqb]. subst vb.
    unfold newVar.
    change (de_value_body (de_putvalue methods generators (S fuel')) nm (scalarWire t)
              (mkBytes (scalarPayload t x ++ arrayPayload t xs) c)
              (Some (mkValue t (Zero t) true false false)))
      with (de_value methods generators (S fuel') nm (scalarWire t)
              (mkBytes (scalarPayload t x ++ arrayPayload t xs) c)
              (Some (mkValue t (Zero t) true false false))).
    rewrite (de_value_scalar methods generators fuel' nm t x (Zero t)
               (arrayPayload t xs) c (isPacked_isScalar t Ht) Hx).
    reflexivity.
Qed.

Lemma numeric_array_is_written_but_not_read_witness :
  en_value noM [] 1 2
    (mkValue (TArray 2 float32Type) (VArray [VFloat 2141192192; VFloat 0])
       true false false)
  = Ok (en_bytesField 2 (arrayPayload float32Type [VFloat 2141192192; VFloat 0]))
  /\ exists m,
       de_putvalue noM [] 2 [] protowire.BytesType
         (mkValue (TArray 2 float32Type) (VArray [VFloat 0; VFloat 0]) true false false)
         0 (mkBytes (arrayPayload float32Type [VFloat 2141192192; VFloat 0]) 8)
       = Panic m.
Proof.
  apply (numeric_array_is_written_but_not_read noM [] 0%nat 0%nat [] 2 float32Type
           2%nat (VFloat 2141192192) [VFloat 0] [VFloat 0; VFloat 0] true 8%nat);
    reflexivity.
Defined.

(** ** Maps *)


Lemma unhashable_scalar (t : type) (x : value) :
  fitsScalar t x = true -> unhashable (landed t x) = None.
Proof.
  intros Hx. destruct x; try reflexivity;
    try (unfold fitsScalar in Hx; destruct (kind t); discriminate Hx).
  cbn [landed]. destruct (Kind_eqb (kind t) Float32); reflexivity.
Qed.

(** [de.putvalue] on the contents of an entry record: the first record is
    read into the key and the second into the value. *)
Lemma de_mapEntry_scalar methods generators fuel nm (kt et : type) k v es c n1 n2 :
  isScalar kt = true ->
  isScalar et = true ->
  fitsScalar kt k = true ->
  fitsScalar et v = true ->
  1 <= n1 < 2 ^ 31 ->
  1 <= n2 < 2 ^ 31 ->
  de_putvalue methods generators (S (S fuel)) nm protowire.BytesType
    (mkValue (TMap kt et) (VMap es) true false false) 0
    (mkBytes ((en_keyTag n1 (scalarWire kt) ++ scalarPayload kt k)
              ++ (en_keyTag n2 (scalarWire et) ++ scalarPayload et v)) c)
  = Ok (VMap (mapassign kt es (landed kt k) (landed et v))).
Proof.
  intros Hkt Het Hk Hv Hn1 Hn2.
  rewrite de_putvalue_S. unfold de_putvalue_body.
  cbn [CanSet flagAddr flagRO flagStickyRO flagEmbedRO negb andb orb Type_ val kind].
  change (protowire.BytesType =? protowire.BytesType) with true. cbn [negb].
  unfold de_mapEntry_body. cbn [Type_ Key Elem val data].
  rewrite <- app_assoc.
  destruct (@ConsumeTag_keyTag n1 (scalarWire kt)
              (scalarPayload kt k ++ en_keyTag n2 (scalarWire et) ++ scalarPayload et v))
    as [Htag1 Hpos1]; [assumption | apply scalarWire_range |].
  rewrite Htag1.
  destruct (Z.leb_spec (Z.of_nat (length (en_keyTag n1 (scalarWire kt)))) 0) as [Hle|_];
    [lia|].
  rewrite slice_from_app. unfold newVar.
  change (de_value_body (de_putvalue methods generators (S fuel)) nm (scalarWire kt)
            ?b ?x)
    with (de_value methods generators (S fuel) nm (scalarWire kt) b x).
  rewrite (de_value_scalar methods generators fuel nm kt k (Zero kt) _ _ Hkt Hk).
  cbn [bind].
  set (c2 := (c - length (en_keyTag n1 (scalarWire kt)) - length (scalarPayload kt k))%nat).
  destruct (@ConsumeTag_keyTag n2 (scalarWire et) (scalarPayload et v))
    as [Htag2 Hpos2]; [assumption | apply scalarWire_range |].
  assert (Hb : exists n, blen (mkBytes (en_keyTag n2 (scalarWire et) ++ scalarPayload et v) c2)
                         = S n).
  { unfold blen. cbn [data]. rewrite length_app.
    destruct (length (en_keyTag n2 (scalarWire et))); [lia|eexists; reflexivity]. }
  destruct Hb as [n Hn].
  remember (mkBytes (en_keyTag n2 (scalarWire et) ++ scalarPayload et v) c2) as buf eqn:Ebuf.
  rewrite Hn. cbn [de_mapValues]. rewrite Hn. cbn [Nat.eqb]. subst buf.
  cbn [data]. rewrite Htag2.
  destruct (Z.leb_spec (Z.of_nat (length (en_keyTag n2 (scalarWire et)))) 0) as [Hle|_];
    [lia|].
  rewrite slice_from_app.
  rewrite <- (app_nil_r (scalarPayload et v)) at 1.
  change (de_value_body (de_putvalue methods generators (S fuel)) nm (scalarWire et)
            ?b ?x)
    with (de_value methods generators (S fuel) nm (scalarWire et) b x).
  rewrite (de_value_scalar methods generators fuel nm et v (Zero et) _ _ Het Hv).
  cbn [bind Type_].
  assert (Hend : de_mapValues (de_putvalue methods generators (S fuel)) nm n
                   (mkBytes [] (c2 - length (en_keyTag n2 (scalarWire et))
                                - length (scalarPayload et v)))
                   (mkValue et (landed et v) true false false)
                 = Ok (landed et v)) by (destruct n; reflexivity).
  rewrite Hend. cbn [bind].
  unfold SetMapIndex. rewrite (unhashable_scalar kt k Hk). reflexivity.
Qed.

Lemma isKey_isScalar (t : type) : isKey t = true -> isScalar t = true.
Proof. unfold isKey. intros H. now apply andb_prop in H as [H _]. Qed.



(** X20.  The numbers of the records inside an entry are not looked at.
    Whatever numbers the two records of an entry bear, the decoder reads
    the first into the key and the second into the value.  An entry
    written value first, as the wire format permits, is therefore stored
    with the fields of key and value exchanged when both have the same
    type. *)
Theorem map_entry_numbers_are_ignored :
  forall methods generators fuel nm (kt et : type) k v es c n1 n2,
    isKey kt = true ->
    isScalar et = true ->
    fitsScalar kt k = true ->
    fitsScalar et v = true ->
    1 <= n1 < 2 ^ 31 ->
    1 <= n2 < 2 ^ 31 ->
    de_putvalue methods generators (S (S fuel)) nm protowire.BytesType
      (mkValue (TMap kt et) (VMap es) true false false) 0
      (mkBytes ((en_keyTag n1 (scalarWire kt) ++ scalarPayload kt k)
                ++ (en_keyTag n2 (scalarWire et) ++ scalarPayload et v)) c)
    = de_putvalue methods generators (S (S fuel)) nm protowire.BytesType
        (mkValue (TMap kt et) (VMap es) true false false) 0
        (mkBytes (entryPayload kt et k v) c)
    /\ de_putvalue methods generators (S (S fuel)) nm protowire.BytesType
         (mkValue (TMap kt et) (VMap es) true false false) 0
         (mkBytes ((en_keyTag n1 (scalarWire kt) ++ scalarPayload kt k)
                   ++ (en_keyTag n2 (scalarWire et) ++ scalarPayload et v)) c)
       = Ok (VMap (mapassign kt es (landed kt k) (landed et v))).
Proof.
  intros methods generators fuel nm kt et k v es c n1 n2 Hkey Het Hk Hv Hn1 Hn2.
  pose proof (isKey_isScalar kt Hkey) as Hkt.
  unfold entryPayload.
  rewrite !de_mapEntry_scalar by (assumption || lia).
  split; reflexivity.
Qed.

Lemma map_entry_numbers_are_ignored_witness :
  de_putvalue noM [] 2 [] protowire.BytesType
    (mkValue (TMap int64Type int64Type) (VMap []) true false false) 0
    (mkBytes ((en_keyTag 2 (scalarWire int64Type) ++ scalarPayload int64Type (VInt 7))
              ++ (en_keyTag 1 (scalarWire int64Type) ++ scalarPayload int64Type (VInt 9)))
       4)
  = de_putvalue noM [] 2 [] protowire.BytesType
      (mkValue (TMap int64Type int64Type) (VMap []) true false false) 0
      (mkBytes (entryPayload int64Type int64Type (VInt 7) (VInt 9)) 4)
  /\ de_putvalue noM [] 2 [] protowire.BytesType
       (mkValue (TMap int64Type int64Type) (VMap []) true false false) 0
       (mkBytes ((en_keyTag 2 (scalarWire int64Type) ++ scalarPayload int64Type (VInt 7))
                 ++ (en_keyTag 1 (scalarWire int64Type) ++ scalarPayload int64Type (VInt 9)))
          4)
     = Ok (VMap [(VInt 7, VInt 9)]).
Proof.
  apply (map_entry_numbers_are_ignored noM [] 0%nat [] int64Type int64Type
           (VInt 7) (VInt 9) [] 4%nat 2 1); (reflexivity || lia).
Defined.

(** ** Slices of slices *)

(** X21.  A slice of slices other than [[][]byte] cannot be encoded, not
    even an empty one.  When the elements of a slice are themselves slices
    or arrays whose elements are not bytes, the encoder panics before it
    looks at any element. *)
Theorem two_dimensional_slice_panics :
  forall methods generators fuel key (t u : type) xs a,
    kind t = Slice \/ kind t = Array ->
    Elem t = Some u ->
    kind u <> Uint8 ->
    en_value methods generators (S fuel) key
      (mkValue (TSlice t) (VSlice xs) a false false)
    = Panic "protobuf: no support for 2-dimensional array except for [][]byte".
Proof.
  intros methods generators fuel key t u xs a Hk Hu Hne.
  rewrite en_value_S. unfold en_value_body.
  cbn [Type_ type_eqb boolType intType int32Type int64Type
       timeType uintType uint32Type uint64Type sfixed32type sfixed64type
       ufixed32type ufixed64type float32Type float64Type stringType orb kind].
  unfold en_slice.
  cbn [Type_ type_eqb bytesType].
  rewrite !(@type_eqb_kind t) by (destruct Hk as [Hk|Hk]; rewrite Hk; discriminate).
  cbn [orb].
  unfold en_sliceReflect. cbn [Type_ Elem].
  assert (Hb : Kind_eqb (kind u) Uint8 = false) by (destruct (kind u); try reflexivity; now elim Hne).
  destruct Hk as [Hk|Hk]; rewrite Hk; cbn [Kind_eqb orb andb]; rewrite Hu, Hb;
    reflexivity.
Qed.

Lemma two_dimensional_slice_panics_witness :
  en_value noM [] 1 1
    (mkValue (TSlice (TSlice int32Type)) (VSlice []) true false false)
  = Panic "protobuf: no support for 2-dimensional array except for [][]byte".
Proof.
  apply (two_dimensional_slice_panics noM [] 0%nat 1 (TSlice int32Type) int32Type
           [] true); [left; reflexivity | reflexivity | discriminate].
Defined.

(** ** Byte arrays *)

Lemma bytesOf_array (t : type) bs a s e :
  bytesOf (mkValue t (VArray (map VUint bs)) a s e) = Ok bs.
Proof.
  unfold bytesOf. cbn [val].
  induction bs as [|b bs IH]; [reflexivity|].
  cbn [map fold_right]. rewrite IH. reflexivity.
Qed.

(** X22.  A byte array comes back, and only at its own length.  The
    encoder writes an array of [byte] as one length-delimited record
    holding the bytes; on an array whose elements are of a defined type
    over [uint8] it panics, since such an array cannot be converted or
    copied to a [[]byte].  The decoder goes by the kind of the elements:
    given a payload as long as the array, it stores the bytes of the
    payload, whatever the array held; given a payload of any other length
    it reports "array length and buffer length differ". *)
Theorem byte_array_round_trip :
  forall methods generators fuel fuel' nm key (e : type) n bs bs' old a c c',
    kind e = Uint8 ->
    length bs = n ->
    length bs' <> n ->
    (if type_eqb e (TBasic Uint8)
     then en_value methods generators (S fuel) key
            (mkValue (TArray n e) (VArray (map VUint bs)) a false false)
          = Ok (en_bytesField key bs)
     else exists m,
            en_value methods generators (S fuel) key
              (mkValue (TArray n e) (VArray (map VUint bs)) a false false)
            = Panic m)
    /\ de_putvalue methods generators (S fuel') nm protowire.BytesType
         (mkValue (TArray n e) old true false false) 0 (mkBytes bs c)
       = Ok (VArray (map VUint bs))
    /\ de_putvalue methods generators (S fuel') nm protowire.BytesType
         (mkValue (TArray n e) old true false false) 0 (mkBytes bs' c')
       = Err "array length and buffer length differ".
Proof.
  intros methods generators fuel fuel' nm key e n bs bs' old a c c' Hk Hn Hn'.
  split; [|split].
  - assert (Hen : en_value methods generators (S fuel) key
                    (mkValue (TArray n e) (VArray (map VUint bs)) a false false)
                  = en_sliceReflect (en_value methods generators fuel) key
                      (mkValue (TArray n e) (VArray (map VUint bs)) a false false)).
    { rewrite en_value_S. unfold en_value_body.
      cbn [Type_ type_eqb boolType intType int32Type int64Type
           timeType uintType uint32Type uint64Type sfixed32type sfixed64type
           ufixed32type ufixed64type float32Type float64Type stringType orb kind].
      unfold en_slice. cbn [Type_ type_eqb bytesType orb]. reflexivity. }
    rewrite Hen. unfold en_sliceReflect. cbn [Type_ Elem]. rewrite Hk.
    destruct (type_eqb e (TBasic Uint8)).
    + rewrite bytesOf_array. reflexivity.
    + cbn [kind Kind_eqb CanAddr flagAddr]. destruct a; eexists; reflexivity.
  - rewrite de_putvalue_S. unfold de_putvalue_body.
    cbn [CanSet flagAddr flagRO flagStickyRO flagEmbedRO negb andb orb Type_ val kind].
    change (protowire.BytesType =? protowire.BytesType) with true. cbn [negb].
    unfold de_slice_body. cbn [Type_ Elem kind Kind_eqb Len]. rewrite Hk.
    unfold blen. cbn [data]. rewrite Hn, Nat.eqb_refl. reflexivity.
  - rewrite de_putvalue_S. unfold de_putvalue_body.
    cbn [CanSet flagAddr flagRO flagStickyRO flagEmbedRO negb andb orb Type_ val kind].
    change (protowire.BytesType =? protowire.BytesType) with true. cbn [negb].
    unfold de_slice_body. cbn [Type_ Elem kind Kind_eqb Len]. rewrite Hk.
    unfold blen. cbn [data].
    destruct (Nat.eqb_spec n (length bs')) as [Heq|_]; [congruence|reflexivity].
Qed.

Lemma byte_array_round_trip_witness :
  en_value noM [] 1 1
    (mkValue (TArray 2 (TBasic Uint8)) (VArray (map VUint [1; 2])) true false false)
  = Ok (en_bytesField 1 [1; 2])
  /\ de_putvalue noM [] 1 [] protowire.BytesType
       (mkValue (TArray 2 (TBasic Uint8)) (VArray [VUint 0; VUint 0]) true false false)
       0 (mkBytes [1; 2] 2)
     = Ok (VArray (map VUint [1; 2]))
  /\ de_putvalue noM [] 1 [] protowire.BytesType
       (mkValue (TArray 2 (TBasic Uint8)) (VArray [VUint 0; VUint 0]) true false false)
       0 (mkBytes [1; 2; 3] 3)
     = Err "array length and buffer length differ".
Proof.
  apply (byte_array_round_trip noM [] 0%nat 0%nat [] 1 (TBasic Uint8) 2%nat
           [1; 2] [1; 2; 3] (VArray [VUint 0; VUint 0]) true 2%nat 3%nat);
    [reflexivity | reflexivity | discriminate].
Defined.

(** ** Fields without a record *)

(** X23.  [Decode] clears the destination before it reads.  Decoding an
    empty buffer into a struct of plain fields succeeds and leaves every
    field at the zero value of its type, whatever the struct held: a field
    for which the buffer has no record does not keep its contents. *)
Theorem decode_clears_fields_without_record :
  forall methods generators (t : type) fs ys cap fuel,
    fieldsOf t = Some fs ->
    forallb plainField fs = true ->
    length ys = length fs ->
    Z.of_nat (length fs) < 2 ^ 31 ->
    UnmarshalBinary (methods (TPtr t)) = None ->
    Decode methods generators (S fuel) (mkBytes [] cap)
      (Some (TPtr t, VPtr (Some (VStruct ys))))
    = Ok (Some (TPtr t, VPtr (Some (VStruct (map (fun f => Zero (Typ f)) fs))))).
Proof.
  intros methods generators t fs ys cap fuel Hfs Hplain Hys Hlen Hu.
  unfold Decode, DecodeWithConstructors.
  rewrite DecodeWith_body_ptr by exact Hu.
  destruct (@protoFields_untagged t fs Hfs (fieldsOf_kind t fs Hfs)
              (forallb_plain_untagged fs Hplain) Hlen) as [Hpf _].
  rewrite (@de_message_body_struct _ _ _ t fs ys (defaultEntries fs 0 0)
             (fieldsOf_kind t fs Hfs) Hfs Hpf).
  rewrite (resetFields_plain (Deref t (VStruct ys)) fs eq_refl eq_refl Hplain ys Hys).
  rewrite de_messageLoop_done by reflexivity.
  reflexivity.
Qed.

Lemma decode_clears_fields_without_record_witness :
  Decode noM [] 1 (mkBytes [] 0)
    (Some (TPtr sampleStruct, VPtr (Some (VStruct sampleFilled))))
  = Ok (Some (TPtr sampleStruct,
              VPtr (Some (VStruct (map (fun f => Zero (Typ f)) sampleFields))))).
Proof.
  apply (decode_clears_fields_without_record noM [] sampleStruct sampleFields
           sampleFilled 0%nat 0%nat);
    (reflexivity || (simpl; lia)).
Defined.

(** ** Pointers *)

(** [de.putvalue] on a nil pointer allocates the target and goes on with
    it. *)
Lemma de_putvalue_nil_pointer methods generators fuel nm wt (t : type) v vb :
  kind t <> Interface ->
  de_putvalue methods generators (S (S fuel)) nm wt
    (mkValue (TPtr t) (VPtr None) true false false) v vb
  = (x <- de_putvalue methods generators (S fuel) nm wt
            (mkValue t (Zero t) true false false) v vb ;;
     Ok (VPtr (Some x))).
Proof.
  intros Hni. rewrite (de_putvalue_S methods generators (S fuel)).
  unfold de_putvalue_body at 1.
  cbn [CanSet flagAddr flagRO flagStickyRO flagEmbedRO negb andb orb Type_ val kind Elem].
  unfold de_instantiate.
  assert (Hi : match kind t with
               | Interface =>
                   match consGet nm t with
                   | None => Panic ("no constructor for interface " ++ typeString t)
                   | Some newfunc => Ok newfunc
                   end
               | _ => Ok (TPtr t, VPtr (Some (Zero t)))
               end = Ok (TPtr t, VPtr (Some (Zero t)))).
  { destruct (kind t); try reflexivity. now elim Hni. }
  rewrite Hi. cbn [bind]. rewrite type_eqb_refl. reflexivity.
Qed.

(** X24.  A pointer to a scalar is written as the scalar and comes back
    as a pointer.  A nil pointer writes nothing.  A pointer to a value
    writes the record the value itself would give; the decoder, reading
    that record into a nil pointer of the same type, allocates the target
    and stores the value in it (a byte slice without spare capacity, a
    [float32] after its passage through [float64]). *)
Theorem pointer_to_scalar_round_trip :
  forall methods generators fuel fuel' nm key (t : type) x a rest c,
    isScalar t = true ->
    fitsScalar t x = true ->
    en_value methods generators (S fuel) key
      (mkValue (TPtr t) (VPtr None) a false false) = Ok []
    /\ en_value methods generators (S (S fuel)) key
         (mkValue (TPtr t) (VPtr (Some x)) a false false)
       = Ok (en_keyTag key (scalarWire t) ++ scalarPayload t x)
    /\ de_value methods generators (S (S fuel')) nm (scalarWire t)
         (mkBytes (scalarPayload t x ++ rest) c)
         (Some (mkValue (TPtr t) (VPtr None) true false false))
       = Ok (mkBytes rest (c - length (scalarPayload t x)), Some (VPtr (Some (landed t x)))).
Proof.
  intros methods generators fuel fuel' nm key t x a rest c Ht Hx.
  assert (Hsw : forall recv v,
             en_value_body methods generators recv key
               (mkValue (TPtr t) (VPtr v) a false false)
             = (if IsNilPtr (mkValue (TPtr t) (VPtr v) a false false) then Ok []
                else e <- PtrElem (mkValue (TPtr t) (VPtr v) a false false) ;;
                     recv key e)).
  { intros recv v. unfold en_value_body.
    cbn [Type_ type_eqb boolType intType int32Type int64Type
         timeType uintType uint32Type uint64Type sfixed32type sfixed64type
         ufixed32type ufixed64type float32Type float64Type stringType orb kind].
    reflexivity. }
  split; [|split].
  - rewrite en_value_S, Hsw. reflexivity.
  - rewrite en_value_S, Hsw.
    unfold IsNilPtr, PtrElem.
    cbn [val Type_ Elem bind flagStickyRO flagEmbedRO].
    rewrite en_value_S. now apply en_value_scalar.
  - pose proof (de_value_scalar methods generators fuel' nm t x (Zero t) rest c Ht Hx)
      as Hd.
    destruct (scalar_kind_not_ptr t Ht) as [_ Hni].
    unfold de_value, de_value_body in *.
    revert Hd.
    match goal with
    | |- bind ?p _ = _ -> _ => destruct p as [[[v vb] buf']|err|m| |]
    end; cbn [bind]; intros Hd; try discriminate Hd.
    rewrite (de_putvalue_nil_pointer methods generators fuel' nm _ t v vb Hni).
    destruct (de_putvalue methods generators (S fuel') nm (scalarWire t)
                (mkValue t (Zero t) true false false) v vb) as [y|err|m| |];
      cbn [bind] in *; try discriminate Hd.
    injection Hd as -> ->. reflexivity.
Qed.

Lemma pointer_to_scalar_round_trip_witness :
  en_value noM [] 1 2 (mkValue (TPtr uint32Type) (VPtr None) true false false) = Ok []
  /\ en_value noM [] 2 2
       (mkValue (TPtr uint32Type) (VPtr (Some (VUint 150))) true false false)
     = Ok (en_keyTag 2 (scalarWire uint32Type) ++ scalarPayload uint32Type (VUint 150))
  /\ de_value noM [] 2 [] (scalarWire uint32Type)
       (mkBytes (scalarPayload uint32Type (VUint 150) ++ []) 2)
       (Some (mkValue (TPtr uint32Type) (VPtr None) true false false))
     = Ok (mkBytes [] (2 - length (scalarPayload uint32Type (VUint 150))),
           Some (VPtr (Some (landed uint32Type (VUint 150))))).
Proof.
  apply (pointer_to_scalar_round_trip noM [] 0%nat 0%nat [] 2 uint32Type (VUint 150)
           true [] 2%nat); reflexivity.
Defined.

(** ** Embedded messages *)

(** X25.  A struct of plain fields that is itself a field comes back.
    The encoder writes it as one length-delimited record whose contents
    are the records of its fields; the decoder, reading that record into a
    struct of the same type, consumes exactly the record and gives the
    fields their values back, whatever the struct held (a byte slice
    without spare capacity, a [float32] after its passage through
    [float64]). *)
Theorem nested_message_round_trip :
  forall methods generators fuel fuel' nm key (t : type) fs xs ys rest c,
    fieldsOf t = Some fs ->
    forallb plainField fs = true ->
    fitsFields fs xs = true ->
    length ys = length fs ->
    Z.of_nat (length fs) < 2 ^ 31 ->
    type_eqb t timeType = false ->
    MarshalBinary (methods t) = None ->
    MarshalBinary (methods (TPtr t)) = None ->
    UnmarshalBinary (methods (TPtr t)) = None ->
    Z.of_nat (length (plainRecords fs xs 0)) < 2 ^ 64 ->
    exists record,
      en_value methods generators (S (S fuel)) key
        (mkValue t (VStruct xs) true false false)
      = Ok (en_keyTag key protowire.BytesType ++ record)
      /\ de_value methods generators (S (S fuel')) nm protowire.BytesType
           (mkBytes (record ++ rest) c)
           (Some (mkValue t (VStruct ys) true false false))
         = Ok (mkBytes rest (c - length record), Some (VStruct (landedFields fs xs))).
Proof.
  intros methods generators fuel fuel' nm key t fs xs ys rest c
         Hfs Hplain Hfit Hys Hlen Htime Hm Hmp Hu Hsize.
  pose proof (fieldsOf_kind t fs Hfs) as Hk.
  destruct (@protoFields_untagged t fs Hfs Hk (forallb_plain_untagged fs Hplain) Hlen)
    as [Hpf _].
  exists (en_uvarint (lenZ (plainRecords fs xs 0)) ++ plainRecords fs xs 0).
  split.
  - rewrite en_value_S. unfold en_value_body. cbn [Type_].
    rewrite Htime.
    rewrite !(@type_eqb_kind t) by (rewrite Hk; discriminate).
    cbn [orb]. rewrite Hk.
    unfold getEncoder, checkInterface, CanAddr.
    cbn [flagRO flagStickyRO flagEmbedRO flagAddr orb bind Type_].
    rewrite Hm, Hmp. cbn [bind].
    unfold en_message_body. cbn [Type_]. rewrite Hpf. cbn [bind].
    destruct fs as [|f fs].
    + destruct xs; [reflexivity | discriminate].
    + change (mkValue t (VStruct xs) true false false) with (Deref t (VStruct xs)).
      cbn [defaultEntries].
      change (mkProtoField (0 + 1) "" [0%nat] f :: defaultEntries fs 1 (0 + 1))
        with (defaultEntries (f :: fs) 0 0).
      rewrite (en_fields_plain methods generators fuel t (f :: fs) xs Hfs (f :: fs) xs
                 0%nat 0 eq_refl eq_refl Hplain Hfit).
      reflexivity.
  - unfold de_value. rewrite de_value_body_prefixed by exact Hsize.
    rewrite de_putvalue_S. unfold de_putvalue_body.
    cbn [CanSet flagAddr flagRO flagStickyRO flagEmbedRO negb andb orb Type_ val].
    rewrite Hk, Htime, Hu.
    change (protowire.BytesType =? 2) with true. cbn [negb].
    change (mkValue t (VStruct ys) true false false) with (Deref t (VStruct ys)).
    rewrite (@de_message_body_struct _ _ _ t fs ys (defaultEntries fs 0 0) Hk Hfs Hpf).
    rewrite (resetFields_plain (Deref t (VStruct ys)) fs eq_refl eq_refl Hplain ys Hys).
    unfold blen. cbn [data].
    rewrite (de_messageLoop_plain methods generators fuel' nm t fs Hfs Hlen
               fs xs [] 0%nat (length (plainRecords fs xs 0)) _
               eq_refl eq_refl Hplain Hfit (Nat.le_refl _) (Nat.le_refl _)).
    reflexivity.
Qed.

Lemma nested_message_round_trip_witness :
  exists record,
    en_value noM [] 2 7 (mkValue sampleStruct (VStruct sampleValue) true false false)
    = Ok (en_keyTag 7 protowire.BytesType ++ record)
    /\ de_value noM [] 2 [] protowire.BytesType (mkBytes (record ++ [8; 1]) 64)
         (Some (mkValue sampleStruct (VStruct sampleFilled) true false false))
       = Ok (mkBytes [8; 1] (64 - length record), Some (VStruct (landedFields sampleFields sampleValue))).
Proof.
  apply (nested_message_round_trip noM [] 0%nat 0%nat [] 7 sampleStruct sampleFields
           sampleValue sampleFilled [8; 1] 64%nat);
    (reflexivity || (simpl; lia) || (vm_compute; reflexivity)).
Defined.

(** ** Slices of strings *)

(** X26.  A slice of strings is written one record per element, and read
    one element per record.  The encoder writes every string of the slice,
    an empty one included, as a length-delimited record of its own under
    the number of the field; the decoder, given the contents of one such
    record, appends one string to what the slice holds. *)
Theorem string_slice_is_repeated :
  forall methods generators fuel fuel' nm key ss ys s a c,
    en_value methods generators (S fuel) key
      (mkValue (TSlice stringType) (VSlice (map VString ss)) a false false)
    = Ok (concat (map (en_bytesField key) ss))
    /\ de_putvalue methods generators (S (S fuel')) nm protowire.BytesType
         (mkValue (TSlice stringType) (VSlice ys) true false false) 0 (mkBytes s c)
       = Ok (VSlice (ys ++ [VString s])).
Proof.
  intros methods generators fuel fuel' nm key ss ys s a c. split.
  - rewrite en_value_S. unfold en_value_body.
    cbn [Type_ type_eqb Kind_eqb boolType intType int32Type int64Type
         timeType uintType uint32Type uint64Type sfixed32type sfixed64type
         ufixed32type ufixed64type float32Type float64Type stringType orb kind].
    unfold en_slice.
    cbn [Type_ type_eqb Kind_eqb boolType intType int32Type int64Type
         timeType uintType uint32Type uint64Type sfixed32type sfixed64type
         ufixed32type ufixed64type float32Type float64Type stringType bytesType
         orb].
    unfold packWith, elements.
    cbn [Type_ Elem val bind flagRO flagStickyRO flagEmbedRO orb].
    induction ss as [|x ss IH]; [reflexivity|].
    cbn [map forEach concat]. rewrite IH. reflexivity.
  - rewrite de_putvalue_S. unfold de_putvalue_body.
    cbn [CanSet flagAddr flagRO flagStickyRO flagEmbedRO negb andb orb Type_ val kind].
    change (protowire.BytesType =? protowire.BytesType) with true. cbn [negb].
    unfold de_slice_body. cbn [Type_ Elem kind stringType].
    rewrite de_putvalue_S. reflexivity.
Qed.
